(** * tripscrape: the review scraper ([tripscrape/reviews.py])

    A shallow embedding of [ReviewScraper] and the properties of its
    extraction pipeline: the tree search over the decoded page blob, the
    per-record mapping with its soft failures, the page retrieval loops, the
    pagination plan and the orchestration loop of [do_scrape].

    Python values that come out of [json.loads] are modelled by [json];
    effects are modelled by a trace of events (prints, sleeps, HTTP requests,
    SQL statements) and the answers of the network by a finite script of
    responses, consumed one per [get(url)]. *)

From Stdlib Require Import List String Ascii ZArith Bool Arith Lia.
From Stdlib Require Import DecimalString.
Import ListNotations.
Open Scope string_scope.
Open Scope list_scope.
Set Warnings "-register-all".

(* ================================================================== *)
(** ** Python values decoded from JSON *)

(** [json.loads] produces [None], [bool], [int], [float], [str], [list] and
    [dict].  A finite float is kept as the dyadic number [m * 2^e]; a [dict]
    keeps its entries in insertion order, as [dict.items()] iterates them. *)
Inductive json : Type :=
| JNull
| JBool (b : bool)
| JInt (z : Z)
| JFloat (m e : Z)
| JStr (s : string)
| JList (l : list json)
| JDict (kvs : list (string * json)).

(** The key that marks a record list ([k == "reviews"] in [traverse]). *)
Definition collection_key : string := "reviews".

(** [ReviewScraper.traverse]: the generator, as the list of the values it
    yields, in the order it yields them. *)
Fixpoint traverse (val : json) : list json :=
  match val with
  | JDict kvs =>
      flat_map (fun kv => match kv with
                          | (k, v) => if String.eqb k collection_key
                                      then [v]
                                      else traverse v
                          end) kvs
  | JList l => flat_map traverse l
  | _ => []
  end.

(** The tree search as the specification words it: a depth-first walk;
    an entry under the collection key is yielded as it is and not entered,
    every other entry and every array element is searched in turn, and
    a scalar yields nothing. *)
Inductive yields : json -> list json -> Prop :=
| Y_null : yields JNull []
| Y_bool b : yields (JBool b) []
| Y_int z : yields (JInt z) []
| Y_float m e : yields (JFloat m e) []
| Y_str s : yields (JStr s) []
| Y_list_nil : yields (JList []) []
| Y_list_cons v rest ys1 ys2 :
    yields v ys1 -> yields (JList rest) ys2 ->
    yields (JList (v :: rest)) (ys1 ++ ys2)
| Y_dict_nil : yields (JDict []) []
| Y_dict_hit v rest ys :
    yields (JDict rest) ys ->
    yields (JDict ((collection_key, v) :: rest)) (v :: ys)
| Y_dict_miss k v rest ys1 ys2 :
    k <> collection_key ->
    yields v ys1 -> yields (JDict rest) ys2 ->
    yields (JDict ((k, v) :: rest)) (ys1 ++ ys2).

(** [mentions k j]: the key [k] is the key of some object entry of [j], at
    any depth. *)
Fixpoint mentions (k : string) (j : json) : bool :=
  match j with
  | JDict kvs =>
      existsb (fun kv => match kv with
                         | (k', v) => String.eqb k' k || mentions k v
                         end) kvs
  | JList l => existsb (mentions k) l
  | _ => false
  end.

(** The page of the specification's example:
    [{"a": {"reviews": [1,2]}, "b": {"reviews": []}}]. *)
Definition example_blob : json :=
  JDict [ ("a", JDict [("reviews", JList [JInt 1; JInt 2])]);
          ("b", JDict [("reviews", JList [])]) ].

(* ================================================================== *)
(** ** Operations of Python on decoded values *)

Inductive exn : Type :=
| TransportError          (* requests: the GET failed *)
| AttributeError          (* [None.group]: the marker was not found *)
| JSONDecodeError         (* [json.loads] rejected the text *)
| KeyError (k : string)   (* [d[k]] on a dict without [k] *)
| TypeError               (* subscript or iteration of a value without it *)
| ProgrammingError        (* psycopg2: rejected statement, unadaptable value,
                             or no result set *)
| ValueError              (* psycopg2: a string with a NUL character *)
| DetailError.            (* the detail extractor raised *)

(** What a call does: it returns, it raises, or it never gets its answer
    (the script of responses is used up before the loop ends). *)
Inductive outcome (A : Type) : Type :=
| Ret (a : A)
| Raise (e : exn)
| Hang.
Arguments Ret {A} a.
Arguments Raise {A} e.
Arguments Hang {A}.

Fixpoint lookup (k : string) (kvs : list (string * json)) : option json :=
  match kvs with
  | [] => None
  | (k', v) :: rest => if String.eqb k' k then Some v else lookup k rest
  end.

(** [val[k]] for a string [k]: a dict answers or raises [KeyError], every
    other value raises [TypeError]. *)
Definition getitem (val : json) (k : string) : outcome json :=
  match val with
  | JDict kvs => match lookup k kvs with
                 | Some v => Ret v
                 | None => Raise (KeyError k)
                 end
  | _ => Raise TypeError
  end.

(** Truth value of a value, as [if reviews:] tests it. *)
Definition truthy (val : json) : bool :=
  match val with
  | JNull => false
  | JBool b => b
  | JInt z => negb (Z.eqb z 0)
  | JFloat m _ => negb (Z.eqb m 0)
  | JStr s => negb (String.eqb s "")
  | JList l => match l with [] => false | _ => true end
  | JDict kvs => match kvs with [] => false | _ => true end
  end.

Fixpoint chars (s : string) : list json :=
  match s with
  | EmptyString => []
  | String c s' => JStr (String c EmptyString) :: chars s'
  end.

(** The items [enumerate(val)] iterates: the elements of a list, the keys
    of a dict, the characters of a string; other values are not iterable. *)
Definition iterate (val : json) : outcome (list json) :=
  match val with
  | JList l => Ret l
  | JDict kvs => Ret (map (fun kv => JStr (fst kv)) kvs)
  | JStr s => Ret (chars s)
  | _ => Raise TypeError
  end.

(** [next(traverser, _exhausted)]: the first value of the generator, or the
    sentinel, here [None]. *)
Definition next (traverser : list json) : option json :=
  match traverser with
  | [] => None
  | v :: _ => Some v
  end.

(** [x == _exhausted]: the sentinel is a fresh [object()], equal to itself
    only. *)
Definition is_exhausted (x : option json) : bool :=
  match x with
  | None => true
  | Some _ => false
  end.

Fixpoint json_eqb (a b : json) {struct a} : bool :=
  match a, b with
  | JNull, JNull => true
  | JBool x, JBool y => Bool.eqb x y
  | JInt x, JInt y => Z.eqb x y
  | JFloat m e, JFloat m' e' => Z.eqb m m' && Z.eqb e e'
  | JStr x, JStr y => String.eqb x y
  | JList l, JList l' =>
      (fix go (l l' : list json) {struct l} : bool :=
         match l, l' with
         | [], [] => true
         | x :: l, y :: l' => json_eqb x y && go l l'
         | _, _ => false
         end) l l'
  | JDict kvs, JDict kvs' =>
      (fix go (l l' : list (string * json)) {struct l} : bool :=
         match l, l' with
         | [], [] => true
         | (k, x) :: l, (k', y) :: l' => String.eqb k k' && json_eqb x y && go l l'
         | _, _ => false
         end) kvs kvs'
  | _, _ => false
  end.

(* ================================================================== *)
(** ** The text of a page *)

Definition dquote : string := String "034"%char EmptyString.
Definition newline : ascii := "010"%char.

(** The marker of [r"window\.__WEB_CONTEXT__=(.*?});"]. *)
Definition marker : string := "window.__WEB_CONTEXT__=".

Fixpoint drop (n : nat) (s : string) : string :=
  match n, s with
  | S n', String _ s' => drop n' s'
  | _, _ => s
  end.

(** The group [(.*?})] followed by [;]: the shortest run of characters
    other than a newline that ends in a brace and is followed by a
    semicolon. *)
Fixpoint lazy_group (s : string) : option string :=
  if String.prefix "};" s then Some "}"
  else match s with
       | EmptyString => None
       | String c s' =>
           if Ascii.eqb c newline then None
           else option_map (String c) (lazy_group s')
       end.

(** [re.search(r"window\.__WEB_CONTEXT__=(.*?});", text)], the first group
    of the leftmost match; [None] when there is no match. *)
Fixpoint re_search (text : string) : option string :=
  match (if String.prefix marker text
         then lazy_group (drop (String.length marker) text)
         else None) with
  | Some g => Some g
  | None => match text with
            | EmptyString => None
            | String _ text' => re_search text'
            end
  end.

Fixpoint replace_from (old new : string) (skip : nat) (s : string) : string :=
  match s with
  | EmptyString => EmptyString
  | String c s' =>
      match skip with
      | S k => replace_from old new k s'
      | O => if String.prefix old s
             then (new ++ replace_from old new (String.length old - 1) s')%string
             else String c (replace_from old new 0 s')
      end
  end.

(** [s.replace(old, new)] for a non-empty [old]: every occurrence, left to
    right, without overlap. *)
Definition replace (old new s : string) : string := replace_from old new 0 s.

(** [data.replace("pageManifest", '"pageManifest"')]. *)
Definition requote (data : string) : string :=
  replace "pageManifest" (dquote ++ "pageManifest" ++ dquote)%string data.

Fixpoint count_substr (sub s : string) : nat :=
  (if String.prefix sub s then 1 else 0) +
  match s with
  | EmptyString => 0
  | String _ s' => count_substr sub s'
  end.

(* ================================================================== *)
(** ** Records, events and the store *)

(** Modelled from the spec: [Review] of the package ([tripscrape/__init__.py],
    whose source this development does not have).  Its fields are the columns of
    the [INSERT] of [update_review], in that order, and [Review()] leaves
    every field at its default, absent ([None], here [JNull]). *)
Record Review : Type := mkReview {
  ID : json; title : json; rating : json; date : json; full : json;
  attr_ID : json; user_profile : json }.

Definition new_Review : Review := mkReview JNull JNull JNull JNull JNull JNull JNull.

(** Modelled from the spec: [User] of the package, with the columns of the
    [INSERT] of [update_user]; [User()] leaves every field absent. *)
Record User : Type := mkUser {
  profile : json; location : json; contributions : json; helpful_votes : json }.

Definition new_User : User := mkUser JNull JNull JNull JNull.

Definition set_ID (r : Review) (v : json) : Review :=
  mkReview v (title r) (rating r) (date r) (full r) (attr_ID r) (user_profile r).
Definition set_title (r : Review) (v : json) : Review :=
  mkReview (ID r) v (rating r) (date r) (full r) (attr_ID r) (user_profile r).
Definition set_rating (r : Review) (v : json) : Review :=
  mkReview (ID r) (title r) v (date r) (full r) (attr_ID r) (user_profile r).
Definition set_date (r : Review) (v : json) : Review :=
  mkReview (ID r) (title r) (rating r) v (full r) (attr_ID r) (user_profile r).
Definition set_full (r : Review) (v : json) : Review :=
  mkReview (ID r) (title r) (rating r) (date r) v (attr_ID r) (user_profile r).
Definition set_attr_ID (r : Review) (v : json) : Review :=
  mkReview (ID r) (title r) (rating r) (date r) (full r) v (user_profile r).
Definition set_user_profile (r : Review) (v : json) : Review :=
  mkReview (ID r) (title r) (rating r) (date r) (full r) (attr_ID r) v.

Definition set_profile (u : User) (v : json) : User :=
  mkUser v (location u) (contributions u) (helpful_votes u).
Definition set_location (u : User) (v : json) : User :=
  mkUser (profile u) v (contributions u) (helpful_votes u).
Definition set_contributions (u : User) (v : json) : User :=
  mkUser (profile u) (location u) v (helpful_votes u).
Definition set_helpful_votes (u : User) (v : json) : User :=
  mkUser (profile u) (location u) (contributions u) v.

(** Modelled from the spec: [Attraction] of the package; [Attraction(id)]
    sets the identity, the location [(lat, lon)] is absent until the detail
    phase. *)
Record Attraction : Type := mkAttraction {
  a_ID : Z; a_location : option (json * json); a_num_reviews : json }.

(** What the detail extractor returns: location, review count, page count. *)
Definition details : Type := (option (json * json) * json * nat)%type.

(** The statements [mogrify] builds, with their parameters. *)
Inductive statement : Type :=
| UpdateAttraction (lon lat : json) (num_reviews : string) (id : Z)
| InsertReview (r : Review)
| InsertUser (u : User)
| SetScraped (b : bool) (id : Z).

(** The lines printed on stdout.  [MsgMissing] carries the numbers as
    [print_missing_info] prints them, [page_no + 1] and [review_no + 1]. *)
Inductive message : Type :=
| MsgDetails (d : details)
| MsgScraping (url : string)
| MsgReloading (url : string)
| MsgWeird (index : nat)
| MsgMissing (info_type : string) (attr : Z) (page review : Z) (url : string)
| MsgUpdatingUser (profile : json)
| MsgEmptyUser
| MsgScrapedSet (id : Z) (b : bool).

Inductive pause : Type :=
| RetryPause      (* [sleep(1)] *)
| PagePause.      (* [sleep(1.3 + random())] *)

Inductive event : Type :=
| Print (m : message)
| Get (url : string)
| Sleep (p : pause)
| Exec (q : statement).

(** A response of the site to one [get(url)]. *)
Inductive response : Type :=
| TransportFailure
| Body (text : string).

(** Modelled from the spec: the tables behind the persistence gateway. *)
Record attraction_row : Type := mkRow {
  row_id : Z; row_url : string; row_attr_type : string;
  row_geom : option (json * json); row_num_reviews : option string;
  row_scraped : bool }.

Record Db : Type := mkDb {
  attractions : list attraction_row;
  reviews : list Review;
  users : list User }.

Definition has_review (id : json) (rows : list Review) : bool :=
  existsb (fun r => json_eqb (ID r) id) rows.

Definition has_user (p : json) (rows : list User) : bool :=
  existsb (fun u => json_eqb (profile u) p) rows.

Definition update_row (id : Z) (f : attraction_row -> attraction_row)
    (rows : list attraction_row) : list attraction_row :=
  map (fun r => if Z.eqb (row_id r) id then f r else r) rows.

(** Modelled from the spec: what the store does with a statement.  The two
    [INSERT ... ON CONFLICT DO NOTHING] leave the table as it is when a row
    with that identity exists; the two [UPDATE ... WHERE id = ...] rewrite
    the row with that id. *)
Definition exec (q : statement) (db : Db) : Db :=
  match q with
  | UpdateAttraction lon lat n id =>
      mkDb (update_row id
              (fun r => mkRow (row_id r) (row_url r) (row_attr_type r)
                              (Some (lon, lat)) (Some n) (row_scraped r))
              (attractions db))
           (reviews db) (users db)
  | InsertReview r =>
      if has_review (ID r) (reviews db) then db
      else mkDb (attractions db) (reviews db ++ [r]) (users db)
  | InsertUser u =>
      if has_user (profile u) (users db) then db
      else mkDb (attractions db) (reviews db) (users db ++ [u])
  | SetScraped b id =>
      mkDb (update_row id
              (fun r => mkRow (row_id r) (row_url r) (row_attr_type r)
                              (row_geom r) (row_num_reviews r) b)
              (attractions db))
           (reviews db) (users db)
  end.

(** The store after the statements of a trace, in the order of the trace. *)
Fixpoint run_trace (t : list event) (db : Db) : Db :=
  match t with
  | [] => db
  | Exec q :: t' => run_trace t' (exec q db)
  | _ :: t' => run_trace t' db
  end.

(** The rows the cursor holds after
    [SELECT id, url FROM attractions WHERE scraped = False]. *)
Definition pending (db : Db) : list (Z * string) :=
  map (fun r => (row_id r, row_url r))
      (filter (fun r => negb (row_scraped r)) (attractions db)).

(* ================================================================== *)
(** ** Computations: a trace of events over a script of responses *)

(** A run returns, raises or hangs, leaves the responses it did not consume
    and emits its events in order. *)
Record run (A : Type) : Type := mkRun {
  res : outcome A; rest : list response; trace : list event }.
Arguments mkRun {A} res rest trace.
Arguments res {A} r.
Arguments rest {A} r.
Arguments trace {A} r.

Definition M (A : Type) : Type := list response -> run A.

Definition ret {A} (a : A) : M A := fun net => mkRun (Ret a) net [].

Definition raise {A} (e : exn) : M A := fun net => mkRun (Raise e) net [].

Definition emit (e : event) : M unit := fun net => mkRun (Ret tt) net [e].

(** [after t r]: the run [r], preceded by the events [t]. *)
Definition after {A} (t : list event) (r : run A) : run A :=
  mkRun (res r) (rest r) (t ++ trace r).

Definition bind {A B} (m : M A) (f : A -> M B) : M B := fun net =>
  let r := m net in
  match res r with
  | Ret a => after (trace r) (f a (rest r))
  | Raise e => mkRun (Raise e) (rest r) (trace r)
  | Hang => mkRun Hang (rest r) (trace r)
  end.

(** [try: body / except: handler], the bare [except] of the source: every
    exception is caught. *)
Definition try_except {A} (body handler : M A) : M A := fun net =>
  let r := body net in
  match res r with
  | Raise _ => after (trace r) (handler (rest r))
  | _ => r
  end.

Definition lift {A} (o : outcome A) : M A := fun net => mkRun o net [].

Declare Scope py_scope.
Delimit Scope py_scope with py.
Notation "x <- m ;; k" := (bind m (fun x => k))
  (at level 61, m at next level, right associativity) : py_scope.
Notation "m ;; k" := (bind m (fun _ => k))
  (at level 61, right associativity) : py_scope.
Open Scope py_scope.

(** [for x in l: body(x)]. *)
Fixpoint for_each {A} (body : A -> M unit) (l : list A) : M unit :=
  match l with
  | [] => ret tt
  | x :: l' => body x ;; for_each body l'
  end.

(** [for i, x in enumerate(l): body(i, x)], counting from [i]. *)
Fixpoint for_enumerate {A} (body : nat -> A -> M unit) (i : nat) (l : list A)
    : M unit :=
  match l with
  | [] => ret tt
  | x :: l' => body i x ;; for_enumerate body (S i) l'
  end.

(** [get(url).text]: the next response of the script. *)
Definition text_of (resp : response) : outcome string :=
  match resp with
  | TransportFailure => Raise TransportError
  | Body text => Ret text
  end.

(** [re.search(...).group(1)]: without a match [re.search] is [None] and
    [.group] raises. *)
Definition search_group (text : string) : outcome string :=
  match re_search text with
  | Some g => Ret g
  | None => Raise AttributeError
  end.

Definition obind {A B} (o : outcome A) (f : A -> outcome B) : outcome B :=
  match o with
  | Ret a => f a
  | Raise e => Raise e
  | Hang => Hang
  end.

(* ================================================================== *)
(** ** The scraper object and its statements *)

(** [attr_types] is compared with the string ["all"] and measured with
    [len]: it is a string or a tuple of strings. *)
Inductive types_value : Type :=
| TypesStr (s : string)
| TypesTuple (l : list string).

Record ReviewScraper : Type := mkScraper {
  base_url : string; search_type : string; attr_types : types_value }.

Definition types_is (v : types_value) (s : string) : bool :=
  match v with
  | TypesStr s' => String.eqb s' s
  | TypesTuple _ => false
  end.

(** A [str] is kept as the bytes of its UTF-8 text.  A character is one
    leading byte and then bytes of the form [10xxxxxx], so the characters
    are counted by the bytes that are not of that form. *)
Definition is_continuation (c : ascii) : bool :=
  Nat.leb 128 (nat_of_ascii c) && Nat.ltb (nat_of_ascii c) 192.

(** [len(s)] of a [str]: the number of its characters. *)
Fixpoint str_len (s : string) : nat :=
  match s with
  | EmptyString => 0
  | String c s' => (if is_continuation c then 0 else 1) + str_len s'
  end.

(** [len(self.attr_types)]. *)
Definition types_len (v : types_value) : nat :=
  match v with
  | TypesStr s => str_len s
  | TypesTuple l => List.length l
  end.

Definition query_template : string :=
  "SELECT id, url FROM attractions WHERE scraped = False".

Definition filter_one : string :=
  (" WHERE attr_type IN (%s) AND scraped = False ORDER BY "
   ++ dquote ++ "id" ++ dquote ++ " DESC")%string.

Definition filter_many : string :=
  (" WHERE attr_type IN %s AND scraped = False ORDER BY "
   ++ dquote ++ "id" ++ dquote ++ " DESC")%string.

(** The text [read_attractions] hands to [execute], or [None] when no
    branch of it runs. *)
Definition read_attractions_query (self : ReviewScraper) : option string :=
  if types_is (attr_types self) "all" then Some query_template
  else if Nat.eqb (types_len (attr_types self)) 1
       then Some (query_template ++ filter_one)%string
  else if Nat.ltb 1 (types_len (attr_types self))
       then Some (query_template ++ filter_many)%string
  else None.

(** Modelled from the spec: the cursor of the persistence gateway.  It
    answers the selection of the pending attractions; a statement with a
    second [WHERE] clause is not SQL and is rejected, as is any other text. *)
Definition cursor_execute (query : string) (db : Db) : outcome (list (Z * string)) :=
  if String.eqb query query_template then Ret (pending db)
  else Raise ProgrammingError.

(** [read_attractions]: the result set left in [db_iter_cur], [None] when
    nothing was executed. *)
Definition read_attractions (self : ReviewScraper) (db : Db)
    : outcome (option (list (Z * string))) :=
  match read_attractions_query self with
  | Some q => obind (cursor_execute q db) (fun rows => Ret (Some rows))
  | None => Ret None
  end.

(** Modelled from the spec: [Scraper.update_record] of the base class hands
    the statement to the store, each write on its own. *)
Definition update_record (q : statement) : M unit := emit (Exec q).

Definition is_None (v : json) : bool :=
  match v with
  | JNull => true
  | _ => false
  end.

(** [tuple(review.__dict__.values())] and [tuple(user.__dict__.values())]:
    the values of the fields, in the order of the fields. *)
Definition review_values (review : Review) : list json :=
  [ID review; title review; rating review; date review; full review;
   attr_ID review; user_profile review].

Definition user_values (user : User) : list json :=
  [profile user; location user; contributions user; helpful_votes user].

Definition print_missing_info (info_type : string) (attr : Z)
    (page_no review_no : Z) (url : string) : M unit :=
  emit (Print (MsgMissing info_type attr (page_no + 1) (review_no + 1) url)).

Definition set_scraped (a : Attraction) (boolean : bool) : M unit :=
  emit (Print (MsgScrapedSet (a_ID a) boolean)) ;;
  update_record (SetScraped boolean (a_ID a)).

(* ================================================================== *)
(** ** The scraper *)

Section Scraper.

(** The libraries and collaborators the scraper calls.  [json_loads] is
    [None] where [json.loads] raises; [get_attr_details] is [None] where
    the detail extractor raises. *)
Variable json_loads : string -> option json.
Variable json_dumps : json -> string.

(** The adaptation of a Python value to SQL by the database driver:
    [None] where the driver adapts the value, the exception it raises
    where it does not. *)
Variable adapt : json -> option exn.

Variable get_attr_details : string -> option details.

(** The URL template of the base class: search type, attraction URL and
    page index give the URL of the page. *)
Variable page_url : string -> string -> nat -> string.

Definition loads (data : string) : outcome json :=
  match json_loads data with
  | Some v => Ret v
  | None => Raise JSONDecodeError
  end.

(** Modelled from the spec: [Scraper.generate_page_links] of the base
    class (its source is not at hand): one URL per page index from
    0 to [amount - 1], the index substituted into the template. *)
Definition Scraper_generate_page_links (amount : nat) (search_type url : string)
    : list string :=
  map (page_url search_type url) (seq 0 amount).

Definition generate_page_links (self : ReviewScraper) (url : string)
    (amount : nat) : list string :=
  Scraper_generate_page_links amount (search_type self) url.

(** [db_cur.mogrify(query, params)]: the parameters are adapted in their
    order, and the first one the driver does not adapt raises. *)
Fixpoint mogrify (params : list json) : outcome unit :=
  match params with
  | [] => Ret tt
  | v :: params' =>
      match adapt v with
      | Some e => Raise e
      | None => mogrify params'
      end
  end.

Definition update_review (review : Review) : M unit :=
  lift (mogrify (review_values review)) ;;
  update_record (InsertReview review).

Definition update_user (user : User) : M unit :=
  emit (Print (MsgUpdatingUser (profile user))) ;;
  if negb (is_None (profile user))
  then lift (mogrify (user_values user)) ;;
       update_record (InsertUser user)
  else emit (Print MsgEmptyUser).

(** The values handed to [mogrify] here are the two coordinates, the text
    of [json.dumps] and the identity of the row. *)
Definition update_attraction (attr : Attraction) : M unit :=
  match a_location attr with
  | Some (lat, lon) =>
      update_record
        (UpdateAttraction lon lat (json_dumps (a_num_reviews attr)) (a_ID attr))
  | None => raise TypeError
  end.

(** The first loop of [scrape_page]: fetch and search until both
    succeed; every failure prints, sleeps and starts again. *)
Fixpoint fetch_loop (url : string) (net : list response) : run string :=
  match net with
  | [] => mkRun Hang [] []
  | resp :: net' =>
      match obind (text_of resp) search_group with
      | Ret data => mkRun (Ret data) net' [Get url]
      | Raise _ =>
          after [Get url; Print (MsgReloading url); Sleep RetryPause]
                (fetch_loop url net')
      | Hang => mkRun Hang net' [Get url]
      end
  end.

(** The body of the second loop: fetch, search, requote and decode, none
    of it guarded. *)
Definition reload (resp : response) : outcome json :=
  obind (text_of resp) (fun text =>
  obind (search_group text) (fun data =>
  loads (requote data))).

(** The second loop of [scrape_page]: while the tree search over [data]
    yields nothing, print and fetch again.  It returns the [data] it stops
    on. *)
Fixpoint weird_loop (url : string) (index : nat) (data : json)
    (net : list response) : run json :=
  if is_exhausted (next (traverse data)) then
    match net with
    | [] => mkRun Hang [] [Print (MsgWeird index)]
    | resp :: net' =>
        match reload resp with
        | Ret data' =>
            after [Print (MsgWeird index); Get url]
                  (weird_loop url index data' net')
        | Raise e => mkRun (Raise e) net' [Print (MsgWeird index); Get url]
        | Hang => mkRun Hang net' [Print (MsgWeird index); Get url]
        end
    end
  else mkRun (Ret data) net [].

(** The body of the loop over the records of one list. *)
Definition scrape_record (url : string) (attr : Z) (index ridx : nat)
    (r : json) : M unit :=
  let review := new_Review in
  let user := new_User in
  v <- lift (getitem r "id") ;;
  let review := set_ID review v in
  v <- lift (getitem r "title") ;;
  let review := set_title review v in
  v <- lift (getitem r "rating") ;;
  let review := set_rating review v in
  v <- lift (getitem r "text") ;;
  let review := set_full review v in
  let review := set_attr_ID review (JInt attr) in
  v <- lift (getitem r "publishedDate") ;;
  let review := set_date review v in
  ru <- try_except
          (v <- lift (obind (getitem r "userProfile") (fun p =>
                      obind (getitem p "route") (fun p =>
                      getitem p "url"))) ;;
           ret (set_user_profile review v, set_profile user v))
          (print_missing_info "user profile" attr (Z.of_nat index)
                              (Z.of_nat ridx) url ;;
           ret (review, user)) ;;
  let review := fst ru in
  let user := snd ru in
  user <- try_except
            (v <- lift (obind (getitem r "userProfile") (fun p =>
                        getitem p "hometown")) ;;
             ret (set_location user (JStr (json_dumps v))))
            (print_missing_info "user location" attr (Z.of_nat index)
                                (Z.of_nat ridx) url ;;
             ret user) ;;
  user <- try_except
            (v <- lift (obind (getitem r "userProfile") (fun p =>
                        obind (getitem p "contributionCounts") (fun p =>
                        getitem p "sumAllUgc"))) ;;
             ret (set_contributions user v))
            (print_missing_info "user contributions" attr (Z.of_nat index)
                                (Z.of_nat ridx) url ;;
             ret user) ;;
  user <- try_except
            (v <- lift (obind (getitem r "userProfile") (fun p =>
                        obind (getitem p "contributionCounts") (fun p =>
                        getitem p "helpfulVote"))) ;;
             ret (set_helpful_votes user v))
            (print_missing_info "helpful" attr (Z.of_nat index)
                                (Z.of_nat ridx) url ;;
             ret user) ;;
  update_user user ;;
  update_review review.

(** The body of the loop over the yielded lists. *)
Definition scrape_reviews (url : string) (attr : Z) (index : nat)
    (revs : json) : M unit :=
  if truthy revs then
    items <- lift (iterate revs) ;;
    for_enumerate (scrape_record url attr index) 0 items
  else
    print_missing_info "reviews" attr (Z.of_nat index) (-2) url.

Definition scrape_page (url : string) (attr : Z) (index : nat) : M unit :=
  emit (Print (MsgScraping url)) ;;
  data <- fetch_loop url ;;
  let data := requote data in
  data <- lift (loads data) ;;
  data <- weird_loop url index data ;;
  for_each (scrape_reviews url attr index) (traverse data).

(** The page loop of [do_scrape] for the links of one attraction. *)
Definition scrape_pages (attr : Z) (links : list string) : M unit :=
  for_enumerate
    (fun index link =>
       scrape_page link attr index ;;
       emit (Sleep PagePause))
    0 links.

(** The body of the loop of [do_scrape], for one row of the cursor. *)
Definition scrape_attraction (self : ReviewScraper) (row : Z * string)
    : M unit :=
  let current_url := (base_url self ++ snd row)%string in
  d <- lift (match get_attr_details current_url with
             | Some d => Ret d
             | None => Raise DetailError
             end) ;;
  let a := mkAttraction (fst row) (fst (fst d)) (snd (fst d)) in
  let number_of_pages := snd d in
  emit (Print (MsgDetails d)) ;;
  update_attraction a ;;
  let links := generate_page_links self current_url number_of_pages in
  scrape_pages (a_ID a) links ;;
  set_scraped a true.

(** [do_scrape], on the store the cursor reads.  [fetchone] hands out the
    rows of the result set one by one and [None] at its end; without a
    result set it raises. *)
Definition do_scrape (self : ReviewScraper) (db : Db) : M unit :=
  cur <- lift (read_attractions self db) ;;
  match cur with
  | Some rows => for_each (scrape_attraction self) rows
  | None => raise ProgrammingError
  end.

(* ---------------------------------------------------------------- *)
(** *** The record mapping and the page, as the specification words them *)

(** A lookup along a path of keys. *)
Definition getpath (r : json) (path : list string) : outcome json :=
  fold_left (fun o k => obind o (fun v => getitem v k)) path (Ret r).

Definition returned {A} (o : outcome A) : bool :=
  match o with
  | Ret _ => true
  | _ => false
  end.

Definition value_or_absent (o : outcome json) : json :=
  match o with
  | Ret v => v
  | _ => JNull
  end.

Definition required_fields : list string :=
  ["id"; "title"; "rating"; "text"; "publishedDate"].

Definition profile_path : list string := ["userProfile"; "route"; "url"].
Definition hometown_path : list string := ["userProfile"; "hometown"].
Definition contributions_path : list string :=
  ["userProfile"; "contributionCounts"; "sumAllUgc"].
Definition helpful_path : list string :=
  ["userProfile"; "contributionCounts"; "helpfulVote"].

(** The optional fields, each with the name its diagnostic prints. *)
Definition optional_fields : list (string * list string) :=
  [ ("user profile", profile_path);
    ("user location", hometown_path);
    ("user contributions", contributions_path);
    ("helpful", helpful_path) ].

(** A raw record with every required field. *)
Definition record_ok (r : json) : bool :=
  forallb (fun k => returned (getitem r k)) required_fields.

(** The [Review] of a raw record: required fields mapped directly, the
    profile absent when its path is missing. *)
Definition review_of (attr : Z) (r : json) : Review :=
  mkReview (value_or_absent (getitem r "id"))
           (value_or_absent (getitem r "title"))
           (value_or_absent (getitem r "rating"))
           (value_or_absent (getitem r "publishedDate"))
           (value_or_absent (getitem r "text"))
           (JInt attr)
           (value_or_absent (getpath r profile_path)).

(** The [User] of a raw record: every field absent when its path is
    missing. *)
Definition user_of (r : json) : User :=
  mkUser (value_or_absent (getpath r profile_path))
         (match getpath r hometown_path with
          | Ret v => JStr (json_dumps v)
          | _ => JNull
          end)
         (value_or_absent (getpath r contributions_path))
         (value_or_absent (getpath r helpful_path)).

(** The driver adapts [v]. *)
Definition adapts (v : json) : bool :=
  match adapt v with
  | None => true
  | Some _ => false
  end.

(** A raw record whose values can be written: the driver adapts every
    value of its review and, when the user has a profile, every value of
    its user. *)
Definition storable (attr : Z) (r : json) : bool :=
  forallb adapts (review_values (review_of attr r))
  && (is_None (profile (user_of r))
      || forallb adapts (user_values (user_of r))).

(** The diagnostic of a missing field, with its locating context. *)
Definition missing (name : string) (url : string) (attr : Z)
    (index ridx : nat) : event :=
  Print (MsgMissing name attr (Z.of_nat index + 1) (Z.of_nat ridx + 1) url).

Definition diagnostics (url : string) (attr : Z) (index ridx : nat)
    (r : json) : list event :=
  flat_map (fun f => if returned (getpath r (snd f)) then []
                     else [missing (fst f) url attr index ridx])
           optional_fields.

(** What the mapping of one raw record does when its values are written:
    the diagnostics, then the user write (skipped and logged without a
    profile), then the review write. *)
Definition record_events (url : string) (attr : Z) (index ridx : nat)
    (r : json) : list event :=
  diagnostics url attr index ridx r
  ++ [Print (MsgUpdatingUser (profile (user_of r)))]
  ++ (if is_None (profile (user_of r))
      then [Print MsgEmptyUser]
      else [Exec (InsertUser (user_of r))])
  ++ [Exec (InsertReview (review_of attr r))].

(** What [update_user] and then [update_review] come to on the user and
    the review of a raw record, whatever its values: the user is written
    when it has a profile and its values are adapted, the review when the
    user step did not raise and its values are adapted. *)
Definition user_outcome (u : User) : outcome unit :=
  if is_None (profile u) then Ret tt else mogrify (user_values u).

Definition record_outcome (attr : Z) (r : json) : outcome unit :=
  obind (user_outcome (user_of r))
        (fun _ => mogrify (review_values (review_of attr r))).

Definition record_trace (url : string) (attr : Z) (index ridx : nat)
    (r : json) : list event :=
  diagnostics url attr index ridx r
  ++ [Print (MsgUpdatingUser (profile (user_of r)))]
  ++ (if is_None (profile (user_of r))
      then [Print MsgEmptyUser]
      else if returned (user_outcome (user_of r))
           then [Exec (InsertUser (user_of r))]
           else [])
  ++ (if returned (record_outcome attr r)
      then [Exec (InsertReview (review_of attr r))]
      else []).

Fixpoint records_events (url : string) (attr : Z) (index ridx : nat)
    (rs : list json) : list event :=
  match rs with
  | [] => []
  | r :: rs' => record_events url attr index ridx r
                ++ records_events url attr index (S ridx) rs'
  end.

(** The diagnostic of an empty list: [print_missing_info] with review
    number -2. *)
Definition no_reviews (url : string) (attr : Z) (index : nat) : event :=
  Print (MsgMissing "reviews" attr (Z.of_nat index + 1) (-2 + 1) url).

(** A yielded value of a well-formed page: a list of raw records with
    every required field. *)
Definition list_ok (v : json) : bool :=
  match v with
  | JList rs => forallb record_ok rs
  | _ => false
  end.

Definition records (v : json) : list json :=
  match v with
  | JList rs => rs
  | _ => []
  end.

Definition is_empty_list (v : json) : bool :=
  match v with
  | JList [] => true
  | _ => false
  end.

(** The reviews written by a trace, in order. *)
Definition inserted_reviews (t : list event) : list Review :=
  flat_map (fun e => match e with
                     | Exec (InsertReview r) => [r]
                     | _ => []
                     end) t.

(** The users written by a trace, in order. *)
Definition inserted_users (t : list event) : list User :=
  flat_map (fun e => match e with
                     | Exec (InsertUser u) => [u]
                     | _ => []
                     end) t.

Definition is_no_reviews (e : event) : bool :=
  match e with
  | Print (MsgMissing name _ _ _ _) => String.eqb name "reviews"
  | _ => false
  end.

Definition is_weird (e : event) : bool :=
  match e with
  | Print (MsgWeird _) => true
  | _ => false
  end.

(** The number of times a trace sets the scraped flag of [id]. *)
Definition count_scraped (id : Z) (t : list event) : nat :=
  List.length (filter (fun e => match e with
                                | Exec (SetScraped _ id') => Z.eqb id' id
                                | _ => false
                                end) t).

(** The scraped flag of attraction [id] in the store, if it has a row. *)
Definition scraped_flag (db : Db) (id : Z) : option bool :=
  option_map row_scraped
    (find (fun r => Z.eqb (row_id r) id) (attractions db)).

(** A response on which the guarded fetch fails: no answer, or no
    marker. *)
Definition fetch_fails (resp : response) : bool :=
  negb (returned (obind (text_of resp) search_group)).

(** A response that decodes to a blob without any record list. *)
Definition empty_tree (resp : response) : bool :=
  match reload resp with
  | Ret data => is_exhausted (next (traverse data))
  | _ => false
  end.

(** What the loop body does on one yielded list of a well-formed page: the
    diagnostic for an empty list, the mapping of every record otherwise. *)
Definition list_events (url : string) (attr : Z) (index : nat) (v : json)
    : list event :=
  match records v with
  | [] => [no_reviews url attr index]
  | rs => records_events url attr index 0 rs
  end.

Definition page_events (url : string) (attr : Z) (index : nat)
    (ls : list json) : list event :=
  flat_map (list_events url attr index) ls.

(** Every event a computation emits satisfies [P], whatever the script. *)
Definition emits {A} (P : event -> bool) (m : M A) : Prop :=
  forall net, forallb P (trace (m net)) = true.

(** [v] is the integer [z]. *)
Definition is_int (z : Z) (v : json) : bool :=
  match v with
  | JInt z' => Z.eqb z' z
  | _ => false
  end.

(** The events of the pages of attraction [attr]: no write to the
    attraction, and reviews of that attraction only. *)
Definition page_event (attr : Z) (e : event) : bool :=
  match e with
  | Exec (UpdateAttraction _ _ _ _) => false
  | Exec (SetScraped _ _) => false
  | Exec (InsertReview r) => is_int attr (attr_ID r)
  | Print (MsgScrapedSet _ _) => false
  | Print (MsgDetails _) => false
  | _ => true
  end.

(** The events of the records of a page: no fetch, no retry. *)
Definition record_event (e : event) : bool :=
  match e with
  | Print (MsgWeird _) => false
  | Print (MsgReloading _) => false
  | Print (MsgScraping _) => false
  | Get _ => false
  | Sleep _ => false
  | _ => true
  end.

(** The events of the first loop: requests, reload notices and pauses. *)
Definition fetch_event (e : event) : bool :=
  match e with
  | Get _ => true
  | Print (MsgReloading _) => true
  | Sleep RetryPause => true
  | _ => false
  end.

(** The events of the second loop: retry notices and requests, no pause. *)
Definition refetch_event (e : event) : bool :=
  match e with
  | Get _ => true
  | Print (MsgWeird _) => true
  | _ => false
  end.

(** The events of one retry of the first loop. *)
Definition reload_events (url : string) : list event :=
  [Get url; Print (MsgReloading url); Sleep RetryPause].

(** The events of one retry of the second loop. *)
Definition refetch_events (url : string) (index : nat) : list event :=
  [Print (MsgWeird index); Get url].

(** What [scrape_attraction] emits before and after the page loop. *)
Definition attraction_events (self : ReviewScraper) (row : Z * string)
    (net : list response) : list event :=
  let current_url := (base_url self ++ snd row)%string in
  match get_attr_details current_url with
  | None => []
  | Some d =>
      Print (MsgDetails d) ::
      match fst (fst d) with
      | None => []
      | Some (lat, lon) =>
          let pr := scrape_pages (fst row)
                      (generate_page_links self current_url (snd d)) net in
          Exec (UpdateAttraction lon lat (json_dumps (snd (fst d))) (fst row))
          :: trace pr
          ++ (if returned (res pr)
              then [Print (MsgScrapedSet (fst row) true);
                    Exec (SetScraped true (fst row))]
              else [])
      end
  end.

(** Every review a trace writes comes after a write of the metadata of
    its attraction. *)
Definition metadata_first (t : list event) : Prop :=
  forall t1 rv t2,
    t = t1 ++ Exec (InsertReview rv) :: t2 ->
    exists lon lat n id,
      In (Exec (UpdateAttraction lon lat n id)) t1 /\ attr_ID rv = JInt id.

(** The URLs of the "Scraping page" notices of a trace, in order. *)
Definition scraped_links (t : list event) : list string :=
  flat_map (fun e => match e with
                     | Print (MsgScraping u) => [u]
                     | _ => []
                     end) t.

(** The number of pauses between pages in a trace. *)
Definition page_pauses (t : list event) : nat :=
  List.length (filter (fun e => match e with
                                | Sleep PagePause => true
                                | _ => false
                                end) t).

(** The events of a page sequence of which every page was processed: for
    every link in turn, numbered from [i], the events of a run of
    [scrape_page] on that link that returned, and then the pause between
    pages; each run reads the responses the run before it left. *)
Inductive pages_processed (attr : Z)
    : nat -> list string -> list response -> list event -> Prop :=
| PP_none i net : pages_processed attr i [] net []
| PP_page i link links net t :
    res (scrape_page link attr i net) = Ret tt ->
    pages_processed attr (S i) links (rest (scrape_page link attr i net)) t ->
    pages_processed attr i (link :: links) net
      (trace (scrape_page link attr i net) ++ Sleep PagePause :: t).

(** Whenever a trace sets a scraped flag, it sets it to true, for one of
    the [rows], and what comes right before is: the write of the metadata
    of that attraction, the events of its page sequence with every page
    processed, each link of the plan announced once and in order, and the
    notice of [set_scraped]. *)
Definition scraped_after_pages (self : ReviewScraper) (rows : list (Z * string))
    (t : list event) : Prop :=
  forall t1 b id t2,
    t = t1 ++ Exec (SetScraped b id) :: t2 ->
    b = true /\
    exists url d lat lon t0 net0 tp,
      In (id, url) rows /\
      get_attr_details (base_url self ++ url) = Some d /\
      fst (fst d) = Some (lat, lon) /\
      (let links := generate_page_links self (base_url self ++ url) (snd d) in
       pages_processed id 0 links net0 tp /\
       scraped_links tp = links /\
       page_pauses tp = List.length links /\
       t1 = t0
            ++ Exec (UpdateAttraction lon lat (json_dumps (snd (fst d))) id)
            :: tp
            ++ [Print (MsgScrapedSet id true)]).

(* ---------------------------------------------------------------- *)
(** *** Sample pages *)

Definition quoted (s : string) : string := (dquote ++ s ++ dquote)%string.

(** The markup of a page around its blob. *)
Definition page_of (blob : string) : string :=
  (marker ++ blob ++ ";")%string.

(** A blob without any record list. *)
Definition blob_without_lists : string := "{pageManifest:1}".
Definition page_without_lists : string := page_of blob_without_lists.

(** A blob that is not JSON, also once requoted. *)
Definition blob_not_json : string := "{pageManifest:}".
Definition page_not_json : string := page_of blob_not_json.

(** A blob with one empty record list: [{pageManifest:{"reviews":[]}}]. *)
Definition blob_no_reviews : string :=
  ("{pageManifest:{" ++ quoted "reviews" ++ ":[]}}")%string.
Definition page_no_reviews : string := page_of blob_no_reviews.

(** A raw record with the required fields and no user profile. *)
Definition sample_record : json :=
  JDict [ ("id", JInt 7); ("title", JStr "Nice"); ("rating", JInt 5);
          ("text", JStr "Fine"); ("publishedDate", JStr "2020-01-01") ].

Definition sample_record_text : string :=
  ("{" ++ quoted "id" ++ ":7," ++ quoted "title" ++ ":" ++ quoted "Nice" ++ ","
   ++ quoted "rating" ++ ":5," ++ quoted "text" ++ ":" ++ quoted "Fine" ++ ","
   ++ quoted "publishedDate" ++ ":" ++ quoted "2020-01-01" ++ "}")%string.

(** A raw record without a title. *)
Definition untitled_record : json := JDict [ ("id", JInt 8) ].

Definition untitled_record_text : string :=
  ("{" ++ quoted "id" ++ ":8}")%string.

(** A blob with an empty list and then a list of one record. *)
Definition blob_one_review : string :=
  ("{pageManifest:{" ++ quoted "a" ++ ":{"
   ++ quoted "reviews" ++ ":[]}," ++ quoted "reviews" ++ ":["
   ++ sample_record_text ++ "]}}")%string.
Definition page_one_review : string := page_of blob_one_review.

Definition data_one_review : json :=
  JDict [("pageManifest",
          JDict [("a", JDict [("reviews", JList [])]);
                 ("reviews", JList [sample_record])])].

(** A blob with one list: a good record, then one without a title. *)
Definition blob_untitled : string :=
  ("{pageManifest:{" ++ quoted "reviews" ++ ":["
   ++ sample_record_text ++ "," ++ untitled_record_text ++ "]}}")%string.
Definition page_untitled : string := page_of blob_untitled.

Definition data_untitled : json :=
  JDict [("pageManifest",
          JDict [("reviews", JList [sample_record; untitled_record])])].

(** [json.loads] on the blobs of the sample pages, requoted; every other
    text is taken as not JSON, which holds of the blob of
    [page_not_json]. *)
Definition sample_loads (data : string) : option json :=
  lookup data
    [ (("{" ++ quoted "pageManifest" ++ ":1}")%string,
       JDict [("pageManifest", JInt 1)]);
      (("{" ++ quoted "pageManifest" ++ ":{" ++ quoted "reviews" ++ ":[]}}")%string,
       JDict [("pageManifest", JDict [("reviews", JList [])])]);
      (("{" ++ quoted "pageManifest" ++ ":{" ++ quoted "a" ++ ":{"
        ++ quoted "reviews" ++ ":[]}," ++ quoted "reviews" ++ ":["
        ++ sample_record_text ++ "]}}")%string,
       data_one_review);
      (("{" ++ quoted "pageManifest" ++ ":{" ++ quoted "reviews" ++ ":["
        ++ sample_record_text ++ "," ++ untitled_record_text ++ "]}}")%string,
       data_untitled) ].

(** [json.dumps] on [None], the booleans and the integers, which is all
    the samples hand to it: [null], [true], [false] and the decimal
    numeral.  On every other value it answers the empty text, which is not
    the text of any value. *)
Definition sample_dumps (v : json) : string :=
  match v with
  | JNull => "null"
  | JBool true => "true"
  | JBool false => "false"
  | JInt z => NilZero.string_of_int (Z.to_int z)
  | _ => ""
  end.

(** The adaptation of psycopg2: [None], booleans, numbers and strings are
    adapted, a string not when it holds a NUL character; a list is adapted
    when its elements are; there is no adapter for a dict. *)
Fixpoint sample_adapt (v : json) : option exn :=
  match v with
  | JDict _ => Some ProgrammingError
  | JList l =>
      (fix go (l : list json) : option exn :=
         match l with
         | [] => None
         | x :: l' => match sample_adapt x with
                      | Some e => Some e
                      | None => go l'
                      end
         end) l
  | JStr s =>
      if existsb (Ascii.eqb zero) (list_ascii_of_string s)
      then Some ValueError else None
  | _ => None
  end.

(** The detail extractor of the end-to-end scenario: location (1.0, 2.0),
    ten reviews, two pages. *)
Definition sample_details (url : string) : option details :=
  Some (Some (JFloat 1 0, JFloat 1 1), JInt 10, 2).

Definition sample_page_url (search_type url : string) (i : nat) : string :=
  (url ++ "-" ++ search_type ++ "-" ++ String (ascii_of_nat (48 + i)) "")%string.

Definition sample_scraper : ReviewScraper :=
  mkScraper "https://www.tripadvisor.com" "reviews" (TypesStr "all").

Definition sample_db : Db :=
  mkDb [mkRow 42 "/Attraction-42" "Sights & Landmarks" None None false] [] [].

(** A raw record whose profile URL is [null]. *)
Definition null_profile_record : json :=
  JDict [ ("id", JInt 9); ("title", JStr "Nice"); ("rating", JInt 5);
          ("text", JStr "Fine"); ("publishedDate", JStr "2020-01-01");
          ("userProfile", JDict [("route", JDict [("url", JNull)])]) ].

(** A raw record with a profile whose hometown is [null]. *)
Definition homeless_record : json :=
  JDict [ ("id", JInt 10); ("title", JStr "Nice"); ("rating", JInt 5);
          ("text", JStr "Fine"); ("publishedDate", JStr "2020-01-01");
          ("userProfile",
           JDict [("route", JDict [("url", JStr "/Profile/a")]);
                  ("hometown", JNull)]) ].

(** What the selection of the pending attractions looks at in a row. *)
Definition row_key (r : attraction_row) : Z * string * bool :=
  (row_id r, row_url r, row_scraped r).

(** The pending attractions, from the keys of the rows. *)
Definition pending_keys (ks : list (Z * string * bool)) : list (Z * string) :=
  map fst (filter (fun k => negb (snd k)) ks).

(** The key of a row after the statements of a trace that sets flags to
    true only. *)
Definition key_after (t : list event) (k : Z * string * bool)
    : Z * string * bool :=
  (fst k, snd k || Nat.ltb 0 (count_scraped (fst (fst k)) t)).

(** Every flag a trace sets, it sets to true. *)
Definition sets_true (e : event) : bool :=
  match e with
  | Exec (SetScraped b _) => b
  | _ => true
  end.

(** The constructor's default, [attr_types=("Sights & Landmarks")]: without
    a comma the parentheses make no tuple, the value is the string. *)
Definition default_scraper : ReviewScraper :=
  mkScraper "https://www.tripadvisor.com" "reviews"
            (TypesStr "Sights & Landmarks").

(** A detail extractor that finds no location. *)
Definition details_without_location (url : string) : option details :=
  Some (None, JInt 10, 2).

(** A detail extractor that finds no page of reviews. *)
Definition details_without_pages (url : string) : option details :=
  Some (Some (JFloat 1 0, JFloat 1 1), JInt 0, 0).

(** The users a page may write: those with a profile. *)
Definition user_event (e : event) : bool :=
  match e with
  | Exec (InsertUser u) => negb (is_None (profile u))
  | _ => true
  end.

(** [c] occurs in [s]. *)
Fixpoint contains_char (c : ascii) (s : string) : bool :=
  match s with
  | EmptyString => false
  | String c' s' => Ascii.eqb c' c || contains_char c s'
  end.

(** The events inside a page, after its notice: no further notice, no
    pause between pages. *)
Definition inner_event (e : event) : bool :=
  match e with
  | Print (MsgScraping _) => false
  | Sleep PagePause => false
  | _ => true
  end.

(** A raw record with a profile, whose title is an object. *)
Definition dict_title_record : json :=
  JDict [ ("id", JInt 11); ("title", JDict [("text", JStr "Nice")]);
          ("rating", JInt 5); ("text", JStr "Fine");
          ("publishedDate", JStr "2020-01-01");
          ("userProfile", JDict [("route", JDict [("url", JStr "/Profile/b")])]) ].

Definition dict_title_record_text : string :=
  ("{" ++ quoted "id" ++ ":11," ++ quoted "title" ++ ":{" ++ quoted "text"
   ++ ":" ++ quoted "Nice" ++ "}," ++ quoted "rating" ++ ":5,"
   ++ quoted "text" ++ ":" ++ quoted "Fine" ++ ","
   ++ quoted "publishedDate" ++ ":" ++ quoted "2020-01-01" ++ ","
   ++ quoted "userProfile" ++ ":{" ++ quoted "route" ++ ":{" ++ quoted "url"
   ++ ":" ++ quoted "/Profile/b" ++ "}}}")%string.

(** A blob with one list: a good record, then the one whose title is an
    object. *)
Definition blob_dict_title : string :=
  ("{pageManifest:{" ++ quoted "reviews" ++ ":["
   ++ sample_record_text ++ "," ++ dict_title_record_text ++ "]}}")%string.
Definition page_dict_title : string := page_of blob_dict_title.

Definition data_dict_title : json :=
  JDict [("pageManifest",
          JDict [("reviews", JList [sample_record; dict_title_record])])].

(** [json.loads] on the blob of [page_dict_title], requoted. *)
Definition loads_dict_title (data : string) : option json :=
  lookup data
    [ (("{" ++ quoted "pageManifest" ++ ":{" ++ quoted "reviews" ++ ":["
        ++ sample_record_text ++ "," ++ dict_title_record_text ++ "]}}")%string,
       data_dict_title) ].

(* ================================================================== *)
(** ** Induction on values *)

Section json_nested_ind.
Variable P : json -> Prop.
Hypothesis Hnull : P JNull.
Hypothesis Hbool : forall b, P (JBool b).
Hypothesis Hint : forall z, P (JInt z).
Hypothesis Hfloat : forall m e, P (JFloat m e).
Hypothesis Hstr : forall s, P (JStr s).
Hypothesis Hlist : forall l, Forall P l -> P (JList l).
Hypothesis Hdict : forall kvs, Forall (fun kv => P (snd kv)) kvs -> P (JDict kvs).

Fixpoint json_nested_ind (j : json) : P j :=
  match j with
  | JNull => Hnull
  | JBool b => Hbool b
  | JInt z => Hint z
  | JFloat m e => Hfloat m e
  | JStr s => Hstr s
  | JList l =>
      Hlist l ((fix go (l : list json) : Forall P l :=
                  match l with
                  | [] => Forall_nil P
                  | v :: rest => Forall_cons v (json_nested_ind v) (go rest)
                  end) l)
  | JDict kvs =>
      Hdict kvs ((fix go (kvs : list (string * json))
                    : Forall (fun kv => P (snd kv)) kvs :=
                    match kvs with
                    | [] => Forall_nil _
                    | kv :: rest =>
                        Forall_cons kv (json_nested_ind (snd kv)) (go rest)
                    end) kvs)
  end.
End json_nested_ind.

(* ================================================================== *)
(** ** The tree search *)

Lemma traverse_list_cons v rest :
traverse (JList (v :: rest)) = traverse v ++ traverse (JList rest).
Proof. reflexivity. Qed.

Lemma traverse_dict_hit v rest :
traverse (JDict ((collection_key, v) :: rest)) = v :: traverse (JDict rest).
Proof. reflexivity. Qed.

Lemma traverse_dict_miss k v rest :
k <> collection_key ->
traverse (JDict ((k, v) :: rest)) = traverse v ++ traverse (JDict rest).
Proof.
intros Hk. simpl. destruct (String.eqb_spec k collection_key); [contradiction|reflexivity].
Qed.

Lemma yields_traverse j : yields j (traverse j).
Proof.
induction j using json_nested_ind; try (simpl; constructor).
- induction H as [|v rest Hv _ IH].
  + constructor.
  + rewrite traverse_list_cons. now constructor.
- induction H as [|[k v] rest Hv _ IH].
  + constructor.
  + destruct (String.eqb_spec k collection_key) as [->|Hk].
    * rewrite traverse_dict_hit. now constructor.
    * rewrite (traverse_dict_miss _ _ _ Hk). now constructor.
Qed.

Lemma yields_sound j ys : yields j ys -> traverse j = ys.
Proof.
induction 1; try reflexivity.
- rewrite traverse_list_cons. now subst.
- rewrite traverse_dict_hit. now subst.
- rewrite (traverse_dict_miss _ _ _ H). now subst.
Qed.

Lemma traverse_absent j : mentions collection_key j = false -> traverse j = [].
Proof.
induction j using json_nested_ind; try reflexivity.
- simpl. induction H as [|v rest Hv _ IH]; simpl; [reflexivity|].
  intros E. apply orb_false_iff in E as [E1 E2].
  rewrite (Hv E1), (IH E2). reflexivity.
- simpl. induction H as [|[k v] rest Hv _ IH]; simpl; [reflexivity|].
  intros E. apply orb_false_iff in E as [E1 E2].
  apply orb_false_iff in E1 as [E0 E1].
  rewrite E0. simpl in Hv. rewrite (Hv E1), (IH E2). reflexivity.
Qed.

(** C3. [traverse] is the specified tree search: the values it yields are
  exactly those the depth-first walk of the specification yields, in that
  order (an entry under ["reviews"] is yielded as it is and not entered,
  other entries and array elements are searched); a value in which the key
  occurs nowhere yields nothing; and on
  [{"a": {"reviews": [1,2]}, "b": {"reviews": []}}] it yields [[1,2]] and
  then [[]]. *)
Theorem traverse_is_tree_search :
(forall j ys, yields j ys <-> traverse j = ys) /\
(forall j, mentions collection_key j = false -> traverse j = []) /\
traverse example_blob = [JList [JInt 1; JInt 2]; JList []].
Proof.
split; [|split].
- intros j ys. split.
  + apply yields_sound.
  + intros <-. apply yields_traverse.
- apply traverse_absent.
- reflexivity.
Qed.

(* ================================================================== *)
(** ** Runs and their traces *)

Lemma after_nil {A} (r : run A) : after [] r = r.
Proof. now destruct r. Qed.

Lemma after_after {A} (t1 t2 : list event) (r : run A) :
  after t1 (after t2 r) = after (t1 ++ t2) r.
Proof. unfold after. simpl. now rewrite app_assoc. Qed.

Lemma bind_ret {A B} (m : M A) (f : A -> M B) net a net' t :
  m net = mkRun (Ret a) net' t -> bind m f net = after t (f a net').
Proof. intros E. unfold bind. now rewrite E. Qed.

Lemma bind_raise {A B} (m : M A) (f : A -> M B) net e net' t :
  m net = mkRun (Raise e) net' t -> bind m f net = mkRun (Raise e) net' t.
Proof. intros E. unfold bind. now rewrite E. Qed.

Lemma bind_known {A B} (m : M A) (f : A -> M B) net o n t :
  m net = mkRun o n t ->
  bind m f net
  = match o with
    | Ret a => after t (f a n)
    | Raise e => mkRun (Raise e) n t
    | Hang => mkRun Hang n t
    end.
Proof. intros E. unfold bind. rewrite E. now destruct o. Qed.

Lemma forallb_app_true {A} (f : A -> bool) l1 l2 :
  forallb f l1 = true -> forallb f l2 = true -> forallb f (l1 ++ l2) = true.
Proof. intros H1 H2. rewrite forallb_app, H1, H2. reflexivity. Qed.

Lemma emits_ret {A} P (a : A) : emits P (ret a).
Proof. intros net. reflexivity. Qed.

Lemma emits_raise {A} P e : emits P (@raise A e).
Proof. intros net. reflexivity. Qed.

Lemma emits_lift {A} P (o : outcome A) : emits P (lift o).
Proof. intros net. reflexivity. Qed.

Lemma emits_emit (P : event -> bool) e : P e = true -> emits P (emit e).
Proof. intros H net. simpl. now rewrite H. Qed.

Lemma emits_bind {A B} P (m : M A) (f : A -> M B) :
  emits P m -> (forall a, emits P (f a)) -> emits P (bind m f).
Proof.
  intros Hm Hf net. unfold bind. specialize (Hm net).
  destruct (res (m net)); simpl; auto.
  apply forallb_app_true; [assumption | apply Hf].
Qed.

Lemma emits_try {A} P (body handler : M A) :
  emits P body -> emits P handler -> emits P (try_except body handler).
Proof.
  intros Hb Hh net. unfold try_except. specialize (Hb net).
  destruct (res (body net)); simpl; auto.
  apply forallb_app_true; [assumption | apply Hh].
Qed.

Lemma emits_for_each {A} P (body : A -> M unit) l :
  (forall x, emits P (body x)) -> emits P (for_each body l).
Proof.
  intros Hb. induction l as [|x l IH]; simpl.
  - apply emits_ret.
  - apply emits_bind; auto.
Qed.

Lemma emits_for_enumerate {A} P (body : nat -> A -> M unit) l :
  (forall i x, emits P (body i x)) -> forall i, emits P (for_enumerate body i l).
Proof.
  intros Hb. induction l as [|x l IH]; intros i; simpl.
  - apply emits_ret.
  - apply emits_bind; auto.
Qed.

Lemma emits_if {A} P (b : bool) (m1 m2 : M A) :
  emits P m1 -> emits P m2 -> emits P (if b then m1 else m2).
Proof. now destruct b. Qed.

Ltac emits_step :=
  first [ apply emits_ret | apply emits_raise | apply emits_lift
        | apply emits_emit; reflexivity
        | apply emits_bind; [|intros ?]
        | apply emits_try
        | apply emits_if ].

Lemma emits_update_user P u :
  P (Print (MsgUpdatingUser (profile u))) = true ->
  P (Exec (InsertUser u)) = true ->
  P (Print MsgEmptyUser) = true ->
  emits P (update_user u).
Proof.
  intros H1 H2 H3. unfold update_user, update_record.
  apply emits_bind; [now apply emits_emit|intros _].
  apply emits_if; [|now apply emits_emit].
  apply emits_bind; [apply emits_lift|intros _]. now apply emits_emit.
Qed.

Lemma json_eqb_refl a : json_eqb a a = true.
Proof.
  induction a using json_nested_ind; simpl;
    try reflexivity.
  - now destruct b.
  - apply Z.eqb_refl.
  - now rewrite !Z.eqb_refl.
  - apply String.eqb_refl.
  - induction H as [|v rest Hv _ IH]; [reflexivity|].
    now rewrite Hv, IH.
  - induction H as [|[k v] rest Hv _ IH]; [reflexivity|].
    simpl in Hv. now rewrite String.eqb_refl, Hv, IH.
Qed.

(* ================================================================== *)
(** ** The mapping of one raw record *)

Lemma bind_lift {A B} (o : outcome A) (f : A -> M B) net :
  bind (lift o) f net
  = match o with
    | Ret a => f a net
    | Raise e => mkRun (Raise e) net []
    | Hang => mkRun Hang net []
    end.
Proof. unfold bind, lift. destruct o; simpl; auto. apply after_nil. Qed.

Lemma bind_emit {B} e (f : unit -> M B) net :
  bind (emit e) f net = after [e] (f tt net).
Proof. reflexivity. Qed.

(** One guarded field: the value found, or the diagnostic and the
    default. *)
Lemma bind_soft {A B} (o : outcome json) (g : json -> A) (dflt : A)
    name attr p q url (f : A -> M B) net :
  o <> Hang ->
  bind (try_except (v <- lift o ;; ret (g v))
                   (print_missing_info name attr p q url ;; ret dflt)) f net
  = after (if returned o then []
           else [Print (MsgMissing name attr (p + 1) (q + 1) url)])
          (f (match o with Ret v => g v | _ => dflt end) net).
Proof.
  intros H. destruct o as [v|e|]; [| |contradiction].
  - reflexivity.
  - unfold bind, try_except, lift, ret, print_missing_info, emit. simpl.
    now rewrite ?after_after.
Qed.

Lemma getitem_cases v k :
  (exists x, getitem v k = Ret x) \/
  getitem v k = Raise TypeError \/ getitem v k = Raise (KeyError k).
Proof.
  destruct v; simpl; auto.
  destruct (lookup k kvs); eauto.
Qed.

Lemma getpath_snoc r path k :
  getpath r (path ++ [k]) = obind (getpath r path) (fun v => getitem v k).
Proof. unfold getpath. now rewrite fold_left_app. Qed.

Lemma getpath_cases r path :
  (exists v, getpath r path = Ret v) \/ (exists e, getpath r path = Raise e).
Proof.
  induction path as [|k path IH] using rev_ind.
  - left. now exists r.
  - rewrite getpath_snoc. destruct IH as [[v ->]|[e ->]]; simpl; eauto.
    destruct (getitem_cases v k) as [[x ->]|[-> | ->]]; eauto.
Qed.

Lemma getpath_not_hang r path : getpath r path <> Hang.
Proof. destruct (getpath_cases r path) as [[v ->]|[e ->]]; discriminate. Qed.

Lemma getpath2 r a b :
  obind (getitem r a) (fun p => getitem p b) = getpath r [a; b].
Proof. reflexivity. Qed.

Lemma getpath3 r a b c :
  obind (getitem r a) (fun p => obind (getitem p b) (fun p => getitem p c))
  = getpath r [a; b; c].
Proof. unfold getpath. simpl. now destruct (getitem r a). Qed.

Lemma record_ok_fields r :
  record_ok r = true ->
  exists a b c d e,
    getitem r "id" = Ret a /\ getitem r "title" = Ret b /\
    getitem r "rating" = Ret c /\ getitem r "text" = Ret d /\
    getitem r "publishedDate" = Ret e.
Proof.
  unfold record_ok, required_fields. simpl.
  destruct (getitem r "id") as [a| |]; try discriminate.
  destruct (getitem r "title") as [b| |]; try discriminate.
  destruct (getitem r "rating") as [c| |]; try discriminate.
  destruct (getitem r "text") as [d| |]; try discriminate.
  destruct (getitem r "publishedDate") as [e| |]; try discriminate.
  intros _. now exists a, b, c, d, e.
Qed.

Lemma mogrify_cases params :
  mogrify params = Ret tt \/ exists e, mogrify params = Raise e.
Proof.
  induction params as [|v params IH]; simpl; [now left|].
  destruct (adapt v) as [e|]; [right; now exists e|exact IH].
Qed.

Lemma mogrify_adapts params :
  returned (mogrify params) = forallb adapts params.
Proof.
  induction params as [|v params IH]; simpl; [reflexivity|].
  unfold adapts at 1. now destruct (adapt v).
Qed.

Lemma mogrify_ok params :
  forallb adapts params = true -> mogrify params = Ret tt.
Proof.
  rewrite <- mogrify_adapts.
  destruct (mogrify_cases params) as [->|[e ->]]; [reflexivity|discriminate].
Qed.

Lemma user_outcome_cases u :
  user_outcome u = Ret tt \/ exists e, user_outcome u = Raise e.
Proof.
  unfold user_outcome. destruct (is_None (profile u)); [now left|].
  apply mogrify_cases.
Qed.

Lemma record_outcome_cases attr r :
  record_outcome attr r = Ret tt \/ exists e, record_outcome attr r = Raise e.
Proof.
  unfold record_outcome.
  destruct (user_outcome_cases (user_of r)) as [->|[e ->]]; cbn [obind].
  - apply mogrify_cases.
  - right. now exists e.
Qed.

Lemma update_user_run u net :
  update_user u net
  = mkRun (user_outcome u) net
      (Print (MsgUpdatingUser (profile u))
       :: (if is_None (profile u) then [Print MsgEmptyUser]
           else if returned (user_outcome u) then [Exec (InsertUser u)]
           else [])).
Proof.
  unfold update_user, update_record, user_outcome. rewrite bind_emit.
  destruct (is_None (profile u)); cbn [negb]; [reflexivity|].
  rewrite bind_lift.
  destruct (mogrify_cases (user_values u)) as [->|[e ->]]; reflexivity.
Qed.

Lemma update_review_run rv net :
  update_review rv net
  = mkRun (mogrify (review_values rv)) net
      (if returned (mogrify (review_values rv))
       then [Exec (InsertReview rv)] else []).
Proof.
  unfold update_review, update_record. rewrite bind_lift.
  destruct (mogrify_cases (review_values rv)) as [->|[e ->]]; reflexivity.
Qed.

(** The two writes of a record, the user and then the review. *)
Lemma writes_run u rv net :
  (update_user u ;; update_review rv) net
  = mkRun (obind (user_outcome u) (fun _ => mogrify (review_values rv))) net
      (Print (MsgUpdatingUser (profile u))
       :: (if is_None (profile u) then [Print MsgEmptyUser]
           else if returned (user_outcome u) then [Exec (InsertUser u)]
           else [])
       ++ (if returned (obind (user_outcome u)
                              (fun _ => mogrify (review_values rv)))
           then [Exec (InsertReview rv)] else [])).
Proof.
  rewrite (bind_known _ _ _ _ _ _ (update_user_run u net)).
  destruct (user_outcome_cases u) as [E|[e E]]; rewrite E; cbn [obind returned].
  - rewrite update_review_run. unfold after. cbn [res rest trace].
    now rewrite <- app_comm_cons.
  - destruct (is_None (profile u)); now rewrite ?app_nil_r.
Qed.

(** A record with its required fields, whatever its values: the
    diagnostics, then the two writes as far as the driver takes them. *)
Lemma scrape_record_run url attr index ridx r net :
  record_ok r = true ->
  scrape_record url attr index ridx r net
  = mkRun (record_outcome attr r) net (record_trace url attr index ridx r).
Proof.
  intros H.
  destruct (record_ok_fields r H) as (a & b & c & d & e & Ha & Hb & Hc & Hd & He).
  unfold scrape_record.
  rewrite bind_lift, Ha. rewrite bind_lift, Hb. rewrite bind_lift, Hc.
  rewrite bind_lift, Hd. rewrite bind_lift, He.
  rewrite !getpath3, !getpath2.
  rewrite bind_soft by apply getpath_not_hang.
  rewrite bind_soft by apply getpath_not_hang.
  rewrite bind_soft by apply getpath_not_hang.
  rewrite bind_soft by apply getpath_not_hang.
  rewrite writes_run.
  unfold record_trace, record_outcome, diagnostics, optional_fields, missing,
    user_of, review_of.
  fold profile_path hometown_path contributions_path helpful_path.
  rewrite Ha, Hb, Hc, Hd, He. cbn [flat_map fst snd].
  destruct (getpath r profile_path) as [v1| |];
  destruct (getpath r hometown_path) as [v2| |];
  destruct (getpath r contributions_path) as [v3| |];
  destruct (getpath r helpful_path) as [v4| |];
  reflexivity.
Qed.

Lemma storable_outcome attr r :
  storable attr r = true ->
  user_outcome (user_of r) = Ret tt /\ record_outcome attr r = Ret tt.
Proof.
  unfold storable, record_outcome, user_outcome. intros H.
  apply andb_prop in H as [Hr Hu].
  assert (U : (if is_None (profile (user_of r)) then Ret tt
               else mogrify (user_values (user_of r))) = Ret tt).
  { destruct (is_None (profile (user_of r))); [reflexivity|].
    now apply mogrify_ok. }
  rewrite U. split; [reflexivity|]. cbn [obind]. now apply mogrify_ok.
Qed.

Lemma storable_trace url attr index ridx r :
  storable attr r = true ->
  record_trace url attr index ridx r = record_events url attr index ridx r.
Proof.
  intros H. destruct (storable_outcome attr r H) as [U R].
  unfold record_trace, record_events. now rewrite U, R.
Qed.

(** A record with its required fields and values the driver adapts is
    mapped and written: the run returns and emits [record_events]. *)
Lemma scrape_record_ok url attr index ridx r net :
  record_ok r = true ->
  storable attr r = true ->
  scrape_record url attr index ridx r net
  = mkRun (Ret tt) net (record_events url attr index ridx r).
Proof.
  intros H S. rewrite (scrape_record_run _ _ _ _ _ _ H).
  rewrite (storable_trace _ _ _ _ _ S).
  now rewrite (proj2 (storable_outcome attr r S)).
Qed.

(** A record without one of its required fields raises at the first
    missing one, before anything is printed or written. *)
Lemma scrape_record_bad url attr index ridx r :
  record_ok r = false ->
  exists e,
    (forall net, scrape_record url attr index ridx r net = mkRun (Raise e) net []) /\
    (e = TypeError \/ exists k, In k required_fields /\ e = KeyError k).
Proof.
  unfold record_ok, required_fields. cbn [forallb]. intros H.
  unfold scrape_record.
  destruct (getitem_cases r "id") as [[a Ea]|[Ea|Ea]].
  2,3: eexists; split;
    [intros net; rewrite bind_lift, Ea; reflexivity|simpl; eauto 8].
  destruct (getitem_cases r "title") as [[b Eb]|[Eb|Eb]].
  2,3: eexists; split;
    [intros net; rewrite bind_lift, Ea, bind_lift, Eb; reflexivity|simpl; eauto 8].
  destruct (getitem_cases r "rating") as [[c Ec]|[Ec|Ec]].
  2,3: eexists; split;
    [intros net; rewrite bind_lift, Ea, bind_lift, Eb, bind_lift, Ec; reflexivity
    |simpl; eauto 9].
  destruct (getitem_cases r "text") as [[d Ed]|[Ed|Ed]].
  2,3: eexists; split;
    [intros net; rewrite bind_lift, Ea, bind_lift, Eb, bind_lift, Ec, bind_lift, Ed;
     reflexivity
    |simpl; eauto 10].
  destruct (getitem_cases r "publishedDate") as [[e Ee]|[Ee|Ee]].
  2,3: eexists; split;
    [intros net; rewrite bind_lift, Ea, bind_lift, Eb, bind_lift, Ec, bind_lift, Ed,
       bind_lift, Ee; reflexivity
    |simpl; eauto 11].
  rewrite Ea, Eb, Ec, Ed, Ee in H. discriminate.
Qed.

Ltac record_cases r :=
  unfold record_events, diagnostics, optional_fields, missing;
  cbn [flat_map fst snd];
  destruct (returned (getpath r profile_path));
  destruct (returned (getpath r hometown_path));
  destruct (returned (getpath r contributions_path));
  destruct (returned (getpath r helpful_path));
  destruct (is_None (profile (user_of r)));
  cbn.

Lemma inserted_reviews_app t1 t2 :
  inserted_reviews (t1 ++ t2) = inserted_reviews t1 ++ inserted_reviews t2.
Proof. apply flat_map_app. Qed.

Lemma inserted_users_app t1 t2 :
  inserted_users (t1 ++ t2) = inserted_users t1 ++ inserted_users t2.
Proof. apply flat_map_app. Qed.

Lemma record_events_reviews url attr index ridx r :
  inserted_reviews (record_events url attr index ridx r) = [review_of attr r].
Proof. record_cases r; reflexivity. Qed.


Lemma record_events_no_reviews url attr index ridx r :
  filter is_no_reviews (record_events url attr index ridx r) = [].
Proof. record_cases r; reflexivity. Qed.

Lemma record_events_record url attr index ridx r :
  forallb record_event (record_events url attr index ridx r) = true.
Proof. record_cases r; reflexivity. Qed.

Lemma record_events_page url attr index ridx r :
  forallb (page_event attr) (record_events url attr index ridx r) = true.
Proof. record_cases r; rewrite ?Z.eqb_refl; reflexivity. Qed.

Ltac trace_cases r :=
  unfold record_trace, diagnostics, optional_fields, missing;
  cbn [flat_map fst snd];
  destruct (returned (getpath r profile_path));
  destruct (returned (getpath r hometown_path));
  destruct (returned (getpath r contributions_path));
  destruct (returned (getpath r helpful_path));
  destruct (is_None (profile (user_of r)));
  destruct (returned (user_outcome (user_of r)));
  cbn.

Lemma record_trace_reviews url attr index ridx r :
  inserted_reviews (record_trace url attr index ridx r)
  = if returned (record_outcome attr r) then [review_of attr r] else [].
Proof.
  destruct (returned (record_outcome attr r)) eqn:E;
    trace_cases r; rewrite ?E; reflexivity.
Qed.

Lemma record_trace_users url attr index ridx r :
  inserted_users (record_trace url attr index ridx r)
  = if is_None (profile (user_of r)) then []
    else if returned (user_outcome (user_of r)) then [user_of r] else [].
Proof.
  destruct (returned (record_outcome attr r)) eqn:E;
    trace_cases r; rewrite ?E; reflexivity.
Qed.

Lemma record_trace_record url attr index ridx r :
  forallb record_event (record_trace url attr index ridx r) = true.
Proof.
  destruct (returned (record_outcome attr r)) eqn:E;
    trace_cases r; rewrite ?E; reflexivity.
Qed.

Lemma record_trace_page url attr index ridx r :
  forallb (page_event attr) (record_trace url attr index ridx r) = true.
Proof.
  destruct (returned (record_outcome attr r)) eqn:E;
    trace_cases r; rewrite ?E; cbn; rewrite ?Z.eqb_refl; reflexivity.
Qed.

Lemma records_events_reviews url attr index ridx rs :
  inserted_reviews (records_events url attr index ridx rs)
  = map (review_of attr) rs.
Proof.
  revert ridx. induction rs as [|r rs IH]; intros ridx; simpl; [reflexivity|].
  now rewrite inserted_reviews_app, record_events_reviews, IH.
Qed.

Lemma records_events_no_reviews url attr index ridx rs :
  filter is_no_reviews (records_events url attr index ridx rs) = [].
Proof.
  revert ridx. induction rs as [|r rs IH]; intros ridx; simpl; [reflexivity|].
  now rewrite filter_app, record_events_no_reviews, IH.
Qed.

Lemma records_events_app url attr index ridx rs1 rs2 :
  records_events url attr index ridx (rs1 ++ rs2)
  = records_events url attr index ridx rs1
    ++ records_events url attr index (ridx + List.length rs1) rs2.
Proof.
  revert ridx. induction rs1 as [|r rs1 IH]; intros ridx; simpl.
  - now rewrite Nat.add_0_r.
  - rewrite IH, <- app_assoc. do 3 f_equal. lia.
Qed.

(** The loop over the records of a list whose records are all mapped. *)
Lemma records_run url attr index ridx rs net :
  forallb record_ok rs = true ->
  forallb (storable attr) rs = true ->
  for_enumerate (scrape_record url attr index) ridx rs net
  = mkRun (Ret tt) net (records_events url attr index ridx rs).
Proof.
  revert ridx. induction rs as [|r rs IH]; intros ridx H S; simpl in *.
  - reflexivity.
  - apply andb_prop in H as [Hr Hrs]. apply andb_prop in S as [Sr Srs].
    rewrite (bind_ret _ _ _ _ _ _
               (scrape_record_ok url attr index ridx r net Hr Sr)).
    rewrite (IH (S ridx) Hrs Srs). reflexivity.
Qed.

(** The loop over the records stops at the first record without a required
    field: the records before it are written, nothing after it is. *)
Lemma records_run_bad url attr index ridx rs1 r rs2 :
  forallb record_ok rs1 = true ->
  forallb (storable attr) rs1 = true ->
  record_ok r = false ->
  exists e,
    (forall net,
       for_enumerate (scrape_record url attr index) ridx (rs1 ++ r :: rs2) net
       = mkRun (Raise e) net (records_events url attr index ridx rs1)) /\
    (e = TypeError \/ exists k, In k required_fields /\ e = KeyError k).
Proof.
  intros H1 S1 Hr. revert ridx.
  induction rs1 as [|r1 rs1 IH]; intros ridx; simpl in *.
  - destruct (scrape_record_bad url attr index ridx r Hr) as (e & He & Hk).
    exists e. split; [|exact Hk]. intros net.
    now rewrite (bind_raise _ _ _ _ _ _ (He net)).
  - apply andb_prop in H1 as [Hr1 Hrs1]. apply andb_prop in S1 as [Sr1 Srs1].
    destruct (IH Hrs1 Srs1 (S ridx)) as (e & He & Hk).
    exists e. split; [|exact Hk]. intros net.
    rewrite (bind_ret _ _ _ _ _ _
               (scrape_record_ok url attr index ridx r1 net Hr1 Sr1)).
    rewrite He. reflexivity.
Qed.

(** Whatever the record, its events are those of a record of a page of
    [attr]. *)
Lemma scrape_record_events url attr index ridx r net :
  forallb (page_event attr) (trace (scrape_record url attr index ridx r net)) = true /\
  forallb record_event (trace (scrape_record url attr index ridx r net)) = true.
Proof.
  destruct (record_ok r) eqn:E.
  - rewrite (scrape_record_run _ _ _ _ _ _ E). cbn [trace].
    split; [apply record_trace_page | apply record_trace_record].
  - destruct (scrape_record_bad url attr index ridx r E) as (e & He & _).
    rewrite He. now split.
Qed.

(* ================================================================== *)
(** ** The lists of a page *)

Lemma forallb_impl {A} (P Q : A -> bool) l :
  (forall x, P x = true -> Q x = true) ->
  forallb P l = true -> forallb Q l = true.
Proof.
  intros H. induction l as [|x l IH]; simpl; [reflexivity|].
  intros E. apply andb_prop in E as [E1 E2]. now rewrite (H x E1), (IH E2).
Qed.

Lemma flat_map_nil_forallb {A B} (P : A -> bool) (f : A -> list B) l :
  (forall x, P x = true -> f x = []) ->
  forallb P l = true -> flat_map f l = [].
Proof.
  intros H. induction l as [|x l IH]; simpl; [reflexivity|].
  intros E. apply andb_prop in E as [E1 E2]. now rewrite (H x E1), (IH E2).
Qed.

Lemma filter_nil_forallb {A} (P g : A -> bool) l :
  (forall x, P x = true -> g x = false) ->
  forallb P l = true -> filter g l = [].
Proof.
  intros H. induction l as [|x l IH]; simpl; [reflexivity|].
  intros E. apply andb_prop in E as [E1 E2]. now rewrite (H x E1), (IH E2).
Qed.

Lemma existsb_false_forallb {A} (P g : A -> bool) l :
  (forall x, P x = true -> g x = false) ->
  forallb P l = true -> existsb g l = false.
Proof.
  intros H. induction l as [|x l IH]; simpl; [reflexivity|].
  intros E. apply andb_prop in E as [E1 E2]. now rewrite (H x E1), (IH E2).
Qed.

Lemma scrape_reviews_ok url attr index v net :
  list_ok v = true ->
  forallb (storable attr) (records v) = true ->
  scrape_reviews url attr index v net
  = mkRun (Ret tt) net (list_events url attr index v).
Proof.
  destruct v; try discriminate. cbn [list_ok records]. intros H S.
  unfold scrape_reviews, list_events. cbn [records truthy].
  destruct l as [|r rs].
  - reflexivity.
  - rewrite bind_lift. apply (records_run url attr index 0 (r :: rs) net H S).
Qed.

(** The loop over the yielded lists of a well-formed page. *)
Lemma lists_run url attr index ls net :
  forallb list_ok ls = true ->
  forallb (storable attr) (flat_map records ls) = true ->
  for_each (scrape_reviews url attr index) ls net
  = mkRun (Ret tt) net (page_events url attr index ls).
Proof.
  induction ls as [|v ls IH]; cbn [forallb flat_map for_each]; intros H S;
    [reflexivity|].
  apply andb_prop in H as [Hv Hls].
  rewrite forallb_app in S. apply andb_prop in S as [Sv Sls].
  rewrite (bind_ret _ _ _ _ _ _ (scrape_reviews_ok url attr index v net Hv Sv)).
  rewrite (IH Hls Sls). reflexivity.
Qed.

(** The loop over the yielded lists stops at the first record without a
    required field. *)
Lemma lists_run_bad url attr index ls1 rs1 r rs2 ls2 :
  forallb list_ok ls1 = true ->
  forallb record_ok rs1 = true ->
  forallb (storable attr) (flat_map records ls1 ++ rs1) = true ->
  record_ok r = false ->
  exists e,
    (forall net,
       for_each (scrape_reviews url attr index)
                (ls1 ++ JList (rs1 ++ r :: rs2) :: ls2) net
       = mkRun (Raise e) net
               (page_events url attr index ls1
                ++ records_events url attr index 0 rs1)) /\
    (e = TypeError \/ exists k, In k required_fields /\ e = KeyError k).
Proof.
  intros H1 Hrs S Hr.
  rewrite forallb_app in S. apply andb_prop in S as [S1 Srs].
  destruct (records_run_bad url attr index 0 rs1 r rs2 Hrs Srs Hr)
    as (e & He & Hk).
  exists e. split; [|exact Hk].
  induction ls1 as [|v ls1 IH]; intros net; cbn [forallb flat_map] in *.
  - assert (E : scrape_reviews url attr index (JList (rs1 ++ r :: rs2)) net
                = mkRun (Raise e) net (records_events url attr index 0 rs1)).
    { unfold scrape_reviews.
      replace (truthy (JList (rs1 ++ r :: rs2))) with true by now destruct rs1.
      rewrite bind_lift. cbn [iterate]. apply He. }
    simpl. now rewrite (bind_raise _ _ _ _ _ _ E).
  - apply andb_prop in H1 as [Hv Hls].
    rewrite forallb_app in S1. apply andb_prop in S1 as [Sv Sls].
    cbn [app for_each].
    rewrite (bind_ret _ _ _ _ _ _ (scrape_reviews_ok url attr index v net Hv Sv)).
    rewrite (IH Hls Sls). unfold after. simpl. now rewrite app_assoc.
Qed.

Lemma page_events_reviews url attr index ls :
  inserted_reviews (page_events url attr index ls)
  = map (review_of attr) (flat_map records ls).
Proof.
  induction ls as [|v ls IH]; simpl; [reflexivity|].
  rewrite inserted_reviews_app, IH, map_app. f_equal.
  unfold list_events. destruct (records v) eqn:E; [reflexivity|].
  apply records_events_reviews.
Qed.

Lemma page_events_no_reviews url attr index ls :
  forallb list_ok ls = true ->
  filter is_no_reviews (page_events url attr index ls)
  = map (fun _ => no_reviews url attr index) (filter is_empty_list ls).
Proof.
  induction ls as [|v ls IH]; [reflexivity|].
  cbn [forallb]. intros H. apply andb_prop in H as [Hv Hls].
  unfold page_events in *. cbn [flat_map filter].
  rewrite filter_app, (IH Hls).
  destruct v; try discriminate. unfold list_events. cbn [records].
  destruct l as [|r rs]; [reflexivity|].
  rewrite records_events_no_reviews. reflexivity.
Qed.

(** Whatever the yielded value, the events of the loop body are those of
    the records of a page of [attr]. *)
Lemma scrape_reviews_emits url attr index v P :
  (forall e, page_event attr e = true -> record_event e = true -> P e = true) ->
  emits P (scrape_reviews url attr index v).
Proof.
  intros HP. unfold scrape_reviews. apply emits_if.
  - apply emits_bind; [apply emits_lift|intros items].
    apply emits_for_enumerate. intros i r net.
    destruct (scrape_record_events url attr index i r net) as [H1 H2].
    revert H1 H2. generalize (trace (scrape_record url attr index i r net)).
    induction l as [|e l IH]; simpl; [reflexivity|].
    intros E1 E2. apply andb_prop in E1 as [E1 E1']. apply andb_prop in E2 as [E2 E2'].
    now rewrite (HP e E1 E2), IH.
  - unfold print_missing_info. apply emits_emit. now apply HP.
Qed.

(* ================================================================== *)
(** ** The two loops of [scrape_page] *)

Lemma fetch_loop_events url net :
  forallb fetch_event (trace (fetch_loop url net)) = true.
Proof.
  induction net as [|resp net IH]; simpl; [reflexivity|].
  destruct (obind (text_of resp) search_group); simpl; auto.
Qed.

Lemma weird_loop_events url index data net :
  forallb refetch_event (trace (weird_loop url index data net)) = true.
Proof.
  revert data. induction net as [|resp net IH]; intros data; simpl.
  - now destruct (is_exhausted (next (traverse data))).
  - destruct (is_exhausted (next (traverse data))); [|reflexivity].
    destruct (reload resp); simpl; auto.
Qed.

(** A failure of the guarded fetch costs one retry and changes nothing
    else. *)
Lemma fetch_loop_retries url fails net :
  forallb fetch_fails fails = true ->
  fetch_loop url (fails ++ net)
  = after (flat_map (fun _ => reload_events url) fails) (fetch_loop url net).
Proof.
  induction fails as [|resp fails IH]; simpl; intros H.
  - now rewrite after_nil.
  - apply andb_prop in H as [Hr Hf]. unfold fetch_fails in Hr.
    destruct (obind (text_of resp) search_group) eqn:E; try discriminate.
    + rewrite (IH Hf), after_after. reflexivity.
    + destruct resp; simpl in E; [discriminate|].
      unfold search_group in E. destruct (re_search text); discriminate.
Qed.

(** Without a yielded list the second loop does not look at [data]. *)
Lemma weird_loop_empty url index data data' net :
  traverse data = [] -> traverse data' = [] ->
  weird_loop url index data net = weird_loop url index data' net.
Proof.
  intros E E'. destruct net; simpl; now rewrite E, E'.
Qed.

Lemma weird_loop_done url index data net :
  traverse data <> [] ->
  weird_loop url index data net = mkRun (Ret data) net [].
Proof.
  intros H. destruct (traverse data) eqn:E; [contradiction|].
  destruct net; simpl; now rewrite E.
Qed.

(** A response with an empty tree costs one more request, at once. *)
Lemma weird_loop_retries url index data empties net :
  traverse data = [] ->
  forallb empty_tree empties = true ->
  weird_loop url index data (empties ++ net)
  = after (flat_map (fun _ => refetch_events url index) empties)
          (weird_loop url index data net).
Proof.
  revert data. induction empties as [|resp empties IH]; intros data E H.
  - simpl. now rewrite after_nil.
  - simpl in H. apply andb_prop in H as [Hr He]. unfold empty_tree in Hr.
    cbn [app weird_loop]. rewrite E. cbn [next is_exhausted].
    destruct (reload resp) as [data'| |] eqn:R; try discriminate.
    assert (E' : traverse data' = []).
    { destruct (traverse data'); [reflexivity|discriminate]. }
    rewrite (IH data' E' He), after_after.
    now rewrite (weird_loop_empty url index data' data net E' E).
Qed.

Lemma weird_loop_enters url index data net :
  traverse data = [] ->
  existsb is_weird (trace (weird_loop url index data net)) = true.
Proof.
  intros E. destruct net as [|resp net]; simpl; rewrite E; simpl; [reflexivity|].
  now destruct (reload resp).
Qed.

(* ================================================================== *)
(** ** [scrape_page] *)

(** Once the first loop has its blob and the blob decodes, the page is the
    second loop on the decoded data and then the loop over its lists. *)
Lemma scrape_page_decoded url attr index script d data net t0 :
  fetch_loop url script = mkRun (Ret d) net t0 ->
  json_loads (requote d) = Some data ->
  scrape_page url attr index script
  = after (Print (MsgScraping url) :: t0)
      (bind (weird_loop url index data)
            (fun data' => for_each (scrape_reviews url attr index) (traverse data'))
            net).
Proof.
  intros F L. unfold scrape_page.
  unfold bind at 1. cbn [emit res rest trace].
  rewrite (bind_ret _ _ _ _ _ _ F), after_after.
  unfold bind at 1. unfold lift, loads. rewrite L. cbn [res rest trace].
  now rewrite after_after, app_nil_r.
Qed.

Lemma scrape_page_lists url attr index script d data net t0 :
  fetch_loop url script = mkRun (Ret d) net t0 ->
  json_loads (requote d) = Some data ->
  traverse data <> [] ->
  scrape_page url attr index script
  = after (Print (MsgScraping url) :: t0)
      (for_each (scrape_reviews url attr index) (traverse data) net).
Proof.
  intros F L T. rewrite (scrape_page_decoded _ _ _ _ _ _ _ _ F L).
  rewrite (bind_ret _ _ _ _ _ _ (weird_loop_done url index data net T)).
  now rewrite after_nil.
Qed.

(** Every event of a page of [attr] is a page event. *)
Lemma scrape_page_emits url attr index :
  emits (page_event attr) (scrape_page url attr index).
Proof.
  unfold scrape_page.
  apply emits_bind; [now apply emits_emit|intros _].
  apply emits_bind.
  { intros net. apply (forallb_impl fetch_event); [|apply fetch_loop_events].
    intros [[]| |[]|]; simpl; congruence. }
  intros d. apply emits_bind; [apply emits_lift|intros data].
  apply emits_bind.
  { intros net. apply (forallb_impl refetch_event); [|apply weird_loop_events].
    intros [[]| |[]|]; simpl; congruence. }
  intros data'. apply emits_for_each. intros v.
  apply scrape_reviews_emits. auto.
Qed.

(* ================================================================== *)
(** ** Properties of the page retrieval *)

Lemma bind_after {A B} (m : M A) (f : A -> M B) net1 net2 t :
  m net1 = after t (m net2) -> bind m f net1 = after t (bind m f net2).
Proof.
  intros E. unfold bind. rewrite E. cbn [after res rest trace].
  destruct (res (m net2)); rewrite ?after_after; reflexivity.
Qed.

(** C4. On a well-formed page (the blob decodes, the tree search yields at
    least one list, every yielded value is a list of raw records with
    their required fields, and the values of the records are values the
    database driver adapts) [scrape_page] returns, and it maps and writes
    exactly the records of the yielded lists, in source order; every empty
    yielded list, the first one included, is logged with the "reviews"
    diagnostic and skipped. *)
Theorem scrape_page_well_formed url attr index script d data net t0 :
  fetch_loop url script = mkRun (Ret d) net t0 ->
  json_loads (requote d) = Some data ->
  traverse data <> [] ->
  forallb list_ok (traverse data) = true ->
  forallb (storable attr) (flat_map records (traverse data)) = true ->
  let out := scrape_page url attr index script in
  res out = Ret tt /\ rest out = net /\
  trace out
  = Print (MsgScraping url) :: t0 ++ page_events url attr index (traverse data) /\
  inserted_reviews (trace out)
  = map (review_of attr) (flat_map records (traverse data)) /\
  filter is_no_reviews (trace out)
  = map (fun _ => no_reviews url attr index)
        (filter is_empty_list (traverse data)).
Proof.
  intros F L T W S out. subst out.
  rewrite (scrape_page_lists _ _ _ _ _ _ _ _ F L T), (lists_run _ _ _ _ _ W S).
  cbn [after res rest trace].
  repeat split.
  - rewrite <- app_comm_cons.
    change (inserted_reviews (Print (MsgScraping url) :: ?l))
      with (inserted_reviews l).
    rewrite inserted_reviews_app, page_events_reviews.
    assert (E : inserted_reviews t0 = []).
    { replace t0 with (trace (fetch_loop url script)) by now rewrite F.
      apply (flat_map_nil_forallb fetch_event); [|apply fetch_loop_events].
      intros [[]| |[]|[]]; simpl; congruence. }
    now rewrite E.
  - rewrite <- app_comm_cons.
    change (filter is_no_reviews (Print (MsgScraping url) :: ?l))
      with (filter is_no_reviews l).
    rewrite filter_app, (page_events_no_reviews _ _ _ _ W).
    assert (E : filter is_no_reviews t0 = []).
    { replace t0 with (trace (fetch_loop url script)) by now rewrite F.
      apply (filter_nil_forallb fetch_event); [|apply fetch_loop_events].
      intros [[]| |[]|]; simpl; congruence. }
    now rewrite E.
Qed.

Lemma bind_shift {A B} (m1 m2 : M A) (f : A -> M B) net1 net2 t :
  m1 net1 = after t (m2 net2) -> bind m1 f net1 = after t (bind m2 f net2).
Proof.
  intros E. unfold bind. rewrite E. cbn [after res rest trace].
  destruct (res (m2 net2)); rewrite ?after_after; reflexivity.
Qed.

(** A response the second loop can go on with is one the first loop would
    have taken, with a blob that decodes. *)
Lemma reload_ret resp data :
  reload resp = Ret data ->
  exists d, obind (text_of resp) search_group = Ret d /\
            json_loads (requote d) = Some data.
Proof.
  unfold reload, loads. destruct (text_of resp) as [text| |]; try discriminate.
  cbn [obind]. destruct (search_group text) as [d| |] eqn:G; try discriminate.
  cbn [obind]. destruct (json_loads (requote d)) as [v|] eqn:L; try discriminate.
  intros E. inversion E. subst. now exists d.
Qed.

(** C5. Once the first loop has a blob that decodes, [scrape_page] enters
    the retry of the second loop exactly when the tree search over the
    decoded blob yields nothing.  When it yields at least one list, the
    page goes on to the lists without a retry notice and without another
    request, also when the first list is empty, which is then logged as a
    page without reviews.  When it yields nothing, the page never goes on
    with that blob: it prints the retry notice and sends another request;
    with a response whose blob decodes, the page ends as a fresh run of
    [scrape_page] on that response ends, and its events are those of the
    fresh run after the retry notice; with any other response the error
    leaves the page; and without a response the page is still waiting. *)
Theorem retry_iff_no_list url attr index script d data net t0 :
  fetch_loop url script = mkRun (Ret d) net t0 ->
  json_loads (requote d) = Some data ->
  let out := scrape_page url attr index script in
  (existsb is_weird (trace out) = true <-> traverse data = []) /\
  (traverse data <> [] ->
   out = after (Print (MsgScraping url) :: t0)
           (for_each (scrape_reviews url attr index) (traverse data) net)) /\
  (forall tail, traverse data = JList [] :: tail ->
     existsb is_weird (trace out) = false /\
     In (no_reviews url attr index) (trace out)) /\
  (traverse data = [] -> net = [] ->
   out = mkRun Hang []
           (Print (MsgScraping url) :: t0 ++ [Print (MsgWeird index)])) /\
  (forall resp net' data',
     traverse data = [] -> net = resp :: net' -> reload resp = Ret data' ->
     let again := scrape_page url attr index (resp :: net') in
     res out = res again /\ rest out = rest again /\
     trace out
     = Print (MsgScraping url) :: t0
       ++ Print (MsgWeird index) :: tl (trace again)) /\
  (forall resp net' e,
     traverse data = [] -> net = resp :: net' -> reload resp = Raise e ->
     out = mkRun (Raise e) net'
             (Print (MsgScraping url) :: t0 ++ refetch_events url index)).
Proof.
  intros F L out.
  assert (N : traverse data <> [] -> existsb is_weird (trace out) = false).
  { intros T. subst out. rewrite (scrape_page_lists _ _ _ _ _ _ _ _ F L T).
    cbn [after trace]. simpl. rewrite existsb_app.
    apply orb_false_iff. split.
    - replace t0 with (trace (fetch_loop url script)) by now rewrite F.
      apply (existsb_false_forallb fetch_event); [|apply fetch_loop_events].
      intros [[]| |[]|]; simpl; congruence.
    - apply (existsb_false_forallb (fun e => page_event attr e && record_event e)).
      + intros [[]| |[]|]; simpl; rewrite ?andb_false_r; congruence.
      + apply emits_for_each. intros v. apply scrape_reviews_emits.
        intros e H1 H2. now rewrite H1, H2. }
  split; [|split; [|split; [|split; [|split]]]].
  - split.
    + intros W. destruct (traverse data) eqn:E; [reflexivity|].
      rewrite N in W; discriminate.
    + intros T. subst out. rewrite (scrape_page_decoded _ _ _ _ _ _ _ _ F L).
      cbn [after trace]. simpl. rewrite existsb_app. apply orb_true_iff. right.
      unfold bind. pose proof (weird_loop_enters url index data net T) as W.
      destruct (res (weird_loop url index data net)); cbn [after trace]; auto.
      rewrite existsb_app, W. reflexivity.
  - intros T. subst out. apply (scrape_page_lists _ _ _ _ _ _ _ _ F L T).
  - intros tail T. split.
    + apply N. rewrite T. discriminate.
    + assert (T' : traverse data <> []) by (rewrite T; discriminate).
      subst out. rewrite (scrape_page_lists _ _ _ _ _ _ _ _ F L T'), T.
      cbn [after trace]. right. apply in_or_app. right.
      simpl. unfold bind, scrape_reviews at 1. simpl. now left.
  - intros T ->. subst out. rewrite (scrape_page_decoded _ _ _ _ _ _ _ _ F L).
    unfold bind. cbn [weird_loop]. rewrite T. reflexivity.
  - intros resp net' data' T -> R again.
    destruct (reload_ret resp data' R) as (d' & G & L').
    assert (F' : fetch_loop url (resp :: net') = mkRun (Ret d') net' [Get url]).
    { cbn [fetch_loop]. now rewrite G. }
    assert (W : weird_loop url index data (resp :: net')
                = after (refetch_events url index)
                        (weird_loop url index data' net')).
    { cbn [weird_loop]. rewrite T. cbn [next is_exhausted]. now rewrite R. }
    subst out again.
    rewrite (scrape_page_decoded _ _ _ _ _ _ _ _ F L).
    rewrite (scrape_page_decoded _ _ _ _ _ _ _ _ F' L').
    rewrite (bind_shift _ _ _ _ _ _ W).
    unfold after, refetch_events. cbn [res rest trace tl app].
    split; [reflexivity|]. split; [reflexivity|]. reflexivity.
  - intros resp net' e T -> R. subst out.
    rewrite (scrape_page_decoded _ _ _ _ _ _ _ _ F L).
    assert (W : weird_loop url index data (resp :: net')
                = mkRun (Raise e) net' (refetch_events url index)).
    { cbn [weird_loop]. rewrite T. cbn [next is_exhausted]. now rewrite R. }
    now rewrite (bind_raise _ _ _ _ _ _ W).
Qed.

(** C6, as the code has it.  A transport failure or a page without the
    marker met by the first loop costs one retry (a reload notice and a
    pause of one second) and changes nothing else, however many of them
    come in a row, so none of them surfaces from [scrape_page]; a blob
    without any record list met by the second loop costs one further
    request, sent at once, however many of them come in a row. *)
Theorem retry_loops url attr index :
  (forall fails net, forallb fetch_fails fails = true ->
     fetch_loop url (fails ++ net)
     = after (flat_map (fun _ => reload_events url) fails) (fetch_loop url net)) /\
  (forall fails net, forallb fetch_fails fails = true ->
     res (scrape_page url attr index (fails ++ net))
     = res (scrape_page url attr index net) /\
     rest (scrape_page url attr index (fails ++ net))
     = rest (scrape_page url attr index net)) /\
  (forall data empties net,
     traverse data = [] -> forallb empty_tree empties = true ->
     weird_loop url index data (empties ++ net)
     = after (flat_map (fun _ => refetch_events url index) empties)
             (weird_loop url index data net)).
Proof.
  split; [|split].
  - apply fetch_loop_retries.
  - intros fails net H. unfold scrape_page. rewrite !bind_emit.
    rewrite (bind_after _ _ _ _ _ (fetch_loop_retries url fails net H)).
    split; reflexivity.
  - apply weird_loop_retries.
Qed.

(* ================================================================== *)
(** ** Properties of the record mapping *)



(** C10. When a record of a yielded list lacks a required field
    ("id", "title", "rating", "text" or "publishedDate"), and it is the
    first record the page fails on (the lists and records before it have
    their required fields, with values the database driver adapts),
    [scrape_page] raises the lookup error ([KeyError] of a required field,
    or [TypeError] when the record is not an object); the lists and records
    before it are written and nothing after it is: the rest of the page is
    given up. *)
Theorem required_field_missing_raises
    url attr index script d data net t0 ls1 rs1 r rs2 ls2 :
  fetch_loop url script = mkRun (Ret d) net t0 ->
  json_loads (requote d) = Some data ->
  traverse data = ls1 ++ JList (rs1 ++ r :: rs2) :: ls2 ->
  forallb list_ok ls1 = true ->
  forallb record_ok rs1 = true ->
  forallb (storable attr) (flat_map records ls1 ++ rs1) = true ->
  record_ok r = false ->
  let out := scrape_page url attr index script in
  (exists e, res out = Raise e /\
     (e = TypeError \/ exists k, In k required_fields /\ e = KeyError k)) /\
  trace out
  = Print (MsgScraping url) :: t0 ++ page_events url attr index ls1
    ++ records_events url attr index 0 rs1 /\
  inserted_reviews (trace out)
  = map (review_of attr) (flat_map records ls1 ++ rs1).
Proof.
  intros F L T H1 Hrs S Hr out. subst out.
  assert (T' : traverse data <> []) by (rewrite T; now destruct ls1).
  rewrite (scrape_page_lists _ _ _ _ _ _ _ _ F L T'), T.
  destruct (lists_run_bad url attr index ls1 rs1 r rs2 ls2 H1 Hrs S Hr)
    as (e & He & Hk).
  rewrite He. cbn [after res rest trace]. rewrite <- app_comm_cons.
  split; [exists e; now split|]. split; [reflexivity|].
  change (inserted_reviews (Print (MsgScraping url) :: ?l))
    with (inserted_reviews l).
  rewrite !inserted_reviews_app, page_events_reviews, records_events_reviews, map_app.
  assert (E : inserted_reviews t0 = []).
  { replace t0 with (trace (fetch_loop url script)) by now rewrite F.
    apply (flat_map_nil_forallb fetch_event); [|apply fetch_loop_events].
    intros [[]| |[]|[]]; simpl; congruence. }
  now rewrite E.
Qed.

(* ================================================================== *)
(** ** The store under the writes of a page *)

Lemma has_review_app id rows more :
  has_review id rows = true -> has_review id (rows ++ more) = true.
Proof. unfold has_review. intros H. now rewrite existsb_app, H. Qed.

Lemma has_review_In id rows :
  In id (map ID rows) -> has_review id rows = true.
Proof.
  intros H. apply in_map_iff in H as (r & <- & Hr).
  apply existsb_exists. exists r. split; [exact Hr|apply json_eqb_refl].
Qed.

(** A review whose id is in the table is not written: the statement is a
    no-op. *)
Lemma insert_review_noop r db :
  has_review (ID r) (reviews db) = true -> exec (InsertReview r) db = db.
Proof. intros H. simpl. now rewrite H. Qed.

Lemma exec_reviews_grow q db :
  exists added, reviews (exec q db) = reviews db ++ added.
Proof.
  destruct q; simpl; try (exists []; now rewrite app_nil_r).
  - destruct (has_review (ID r) (reviews db)); simpl.
    + exists []. now rewrite app_nil_r.
    + now exists [r].
  - destruct (has_user (profile u) (users db)); exists []; now rewrite app_nil_r.
Qed.

Lemma run_trace_reviews_grow t db :
  exists added, reviews (run_trace t db) = reviews db ++ added.
Proof.
  revert db. induction t as [|e t IH]; intros db; simpl.
  - exists []. now rewrite app_nil_r.
  - destruct e; auto.
    destruct (IH (exec q db)) as (a2 & E2).
    destruct (exec_reviews_grow q db) as (a1 & E1).
    exists (a1 ++ a2). now rewrite E2, E1, app_assoc.
Qed.

Lemma run_trace_has_review t db id :
  has_review id (reviews db) = true ->
  has_review id (reviews (run_trace t db)) = true.
Proof.
  intros H. destruct (run_trace_reviews_grow t db) as (added & ->).
  now apply has_review_app.
Qed.

(** Every review a trace writes is in the table afterwards. *)
Lemma run_trace_covers t db r :
  In r (inserted_reviews t) ->
  has_review (ID r) (reviews (run_trace t db)) = true.
Proof.
  revert db. induction t as [|e t IH]; intros db; simpl; [contradiction|].
  intros H. apply in_app_or in H as [H|H].
  - destruct e; try contradiction. destruct q; try contradiction.
    destruct H as [->|[]]. apply run_trace_has_review. simpl.
    destruct (has_review (ID r) (reviews db)) eqn:E; [exact E|].
    simpl. unfold has_review. rewrite existsb_app. simpl.
    now rewrite json_eqb_refl, orb_true_r.
  - destruct e; auto.
Qed.

(** A trace whose reviews are all in the table leaves the table as it is. *)
Lemma run_trace_covered t db :
  (forall r, In r (inserted_reviews t) -> has_review (ID r) (reviews db) = true) ->
  reviews (run_trace t db) = reviews db.
Proof.
  revert db. induction t as [|e t IH]; intros db H; simpl; [reflexivity|].
  destruct e; try (apply IH; intros r Hr; apply H; simpl; exact Hr).
  assert (E : reviews (exec q db) = reviews db).
  { destruct q; try reflexivity.
    - rewrite insert_review_noop; [reflexivity|]. apply H. simpl. now left.
    - simpl. now destruct (has_user (profile u) (users db)). }
  rewrite IH; [exact E|]. intros r Hr. rewrite E. apply H. simpl.
  apply in_or_app. now right.
Qed.

Lemma exec_reviews_nodup q db :
  NoDup (map ID (reviews db)) -> NoDup (map ID (reviews (exec q db))).
Proof.
  intros H. destruct q; simpl; auto.
  - destruct (has_review (ID r) (reviews db)) eqn:E; simpl; [exact H|].
    rewrite map_app. simpl. apply NoDup_app; [exact H|repeat constructor; auto|].
    intros id Hin [<-|[]]. apply has_review_In in Hin. congruence.
  - now destruct (has_user (profile u) (users db)).
Qed.

Lemma run_trace_reviews_nodup t db :
  NoDup (map ID (reviews db)) -> NoDup (map ID (reviews (run_trace t db))).
Proof.
  revert db. induction t as [|e t IH]; intros db H; simpl; [exact H|].
  destruct e; auto. apply IH. now apply exec_reviews_nodup.
Qed.

(** C2. Running [scrape_page] a second time on the same script, on the
    store the first run left, leaves the review table as the first run
    left it; the first run only appends rows (no stored row is changed), a
    review whose id is in the table is not written (the statement is a
    no-op), and ids that were distinct stay distinct. *)
Theorem scrape_page_idempotent url attr index script db :
  let t := trace (scrape_page url attr index script) in
  let db1 := run_trace t db in
  reviews (run_trace t db1) = reviews db1 /\
  (exists added, reviews db1 = reviews db ++ added) /\
  (NoDup (map ID (reviews db)) -> NoDup (map ID (reviews db1))) /\
  (forall r d, has_review (ID r) (reviews d) = true -> exec (InsertReview r) d = d).
Proof.
  intros t db1. split; [|split; [|split]].
  - apply run_trace_covered. intros r Hr. now apply run_trace_covers.
  - apply run_trace_reviews_grow.
  - apply run_trace_reviews_nodup.
  - intros r d. apply insert_review_noop.
Qed.

(* ================================================================== *)
(** ** The pagination plan and the selection of attractions *)

(** C9. [generate_page_links], given a page count [n], gives exactly [n]
    URLs: the URL at position [i] is the template at page index [i], for
    [i] from 0 to [n - 1] in ascending order, and there is none beyond;
    with count 0 the sequence is empty.  It is a function of its
    arguments. *)
Theorem generate_page_links_indices self url n :
  List.length (generate_page_links self url n) = n /\
  (forall i, nth_error (generate_page_links self url n) i
             = if Nat.ltb i n then Some (page_url (search_type self) url i)
               else None) /\
  generate_page_links self url 0 = [].
Proof.
  unfold generate_page_links, Scraper_generate_page_links.
  split; [|split].
  - now rewrite length_map, length_seq.
  - intros i. destruct (Nat.ltb_spec i n) as [Hi|Hi].
    + rewrite nth_error_map, nth_error_seq.
      apply Nat.ltb_lt in Hi. now rewrite Hi.
    + apply nth_error_None. now rewrite length_map, length_seq.
  - reflexivity.
Qed.

Lemma read_attractions_all self db :
  types_is (attr_types self) "all" = true ->
  read_attractions self db = Ret (Some (pending db)).
Proof.
  intros H. unfold read_attractions, read_attractions_query. now rewrite H.
Qed.

(** C8 fails on the code.  With one category configured, the text handed
    to [execute] is the selection of the pending attractions followed by a
    second [WHERE] clause: it holds the keyword twice, the cursor rejects
    it, and no attraction is selected. *)
Theorem filtered_query_malformed db :
  let self := mkScraper "https://www.tripadvisor.com" "reviews"
                        (TypesTuple ["Museums"]) in
  read_attractions_query self = Some (query_template ++ filter_one)%string /\
  count_substr "WHERE" (query_template ++ filter_one)%string = 2 /\
  read_attractions self db = Raise ProgrammingError.
Proof. repeat split. Qed.

(* ================================================================== *)
(** ** The orchestration loop *)

Lemma bind_trace {A B} (m : M A) (f : A -> M B) net :
  trace (bind m f net)
  = trace (m net)
    ++ match res (m net) with
       | Ret a => trace (f a (rest (m net)))
       | _ => []
       end.
Proof.
  unfold bind. destruct (res (m net)); simpl; now rewrite ?app_nil_r.
Qed.

Lemma bind_res {A B} (m : M A) (f : A -> M B) net :
  res (bind m f net)
  = match res (m net) with
    | Ret a => res (f a (rest (m net)))
    | Raise e => Raise e
    | Hang => Hang
    end.
Proof. unfold bind. now destruct (res (m net)). Qed.

Lemma split_app {A} (l1 l2 t1 t2 : list A) e :
  l1 ++ l2 = t1 ++ e :: t2 ->
  (exists l, l1 = t1 ++ e :: l /\ t2 = l ++ l2) \/
  (exists l, t1 = l1 ++ l /\ l2 = l ++ e :: t2).
Proof.
  revert t1. induction l1 as [|x l1 IH]; intros t1 H; simpl in *.
  - right. now exists t1.
  - destruct t1 as [|y t1]; simpl in *; inversion H; subst.
    + left. now exists l1.
    + destruct (IH t1 H2) as [(l & -> & ->)|(l & -> & ->)].
      * left. now exists l.
      * right. now exists l.
Qed.

Lemma forallb_In {A} (P : A -> bool) l x :
  forallb P l = true -> In x l -> P x = true.
Proof. intros H Hx. now apply (proj1 (forallb_forall P l) H). Qed.

Lemma count_scraped_app id t1 t2 :
  count_scraped id (t1 ++ t2) = count_scraped id t1 + count_scraped id t2.
Proof. unfold count_scraped. now rewrite filter_app, length_app. Qed.

Lemma count_scraped_pages id attr t :
  forallb (page_event attr) t = true -> count_scraped id t = 0.
Proof.
  intros H. unfold count_scraped.
  rewrite (filter_nil_forallb (page_event attr)); auto.
  intros [[]| |[]|[]]; simpl; congruence.
Qed.

Lemma scrape_pages_emits attr links :
  emits (page_event attr) (scrape_pages attr links).
Proof.
  unfold scrape_pages. apply emits_for_enumerate. intros i link.
  apply emits_bind; [apply scrape_page_emits|intros _].
  now apply emits_emit.
Qed.

Lemma scrape_page_inner url attr index net :
  exists r,
    scrape_page url attr index net = after [Print (MsgScraping url)] r /\
    forallb inner_event (trace r) = true.
Proof.
  unfold scrape_page. rewrite bind_emit.
  eexists. split; [reflexivity|].
  revert net. change (emits inner_event
    (data <- fetch_loop url;;
     data0 <- lift (loads (requote data));;
     data1 <- weird_loop url index data0;;
     for_each (scrape_reviews url attr index) (traverse data1))).
  apply emits_bind.
  { intros net. apply (forallb_impl fetch_event); [|apply fetch_loop_events].
    intros [[]| |[]|]; simpl; congruence. }
  intros d. apply emits_bind; [apply emits_lift|intros data].
  apply emits_bind.
  { intros net. apply (forallb_impl refetch_event); [|apply weird_loop_events].
    intros [[]| |[]|]; simpl; congruence. }
  intros data'. apply emits_for_each. intros v.
  apply scrape_reviews_emits.
  intros [[]| |[]|]; simpl; congruence.
Qed.

Lemma scraped_links_inner t :
  forallb inner_event t = true -> scraped_links t = [].
Proof.
  apply flat_map_nil_forallb. intros [[]| |[]|]; simpl; congruence.
Qed.

Lemma page_pauses_inner t :
  forallb inner_event t = true -> page_pauses t = 0.
Proof.
  intros H. unfold page_pauses.
  rewrite (filter_nil_forallb inner_event); auto.
  intros [[]| |[]|]; simpl; congruence.
Qed.

Lemma scraped_links_app t1 t2 :
  scraped_links (t1 ++ t2) = scraped_links t1 ++ scraped_links t2.
Proof. apply flat_map_app. Qed.

Lemma page_pauses_app t1 t2 :
  page_pauses (t1 ++ t2) = page_pauses t1 + page_pauses t2.
Proof. unfold page_pauses. now rewrite filter_app, length_app. Qed.

Lemma scraped_links_notice u t :
  scraped_links (Print (MsgScraping u) :: t) = u :: scraped_links t.
Proof. reflexivity. Qed.

Lemma page_pauses_notice u t :
  page_pauses (Print (MsgScraping u) :: t) = page_pauses t.
Proof. reflexivity. Qed.

Lemma page_step link attr i net :
  exists r,
    forallb inner_event (trace r) = true /\
    (scrape_page link attr i;; emit (Sleep PagePause)) net
    = mkRun (res r) (rest r)
        (Print (MsgScraping link)
         :: trace r ++ (if returned (res r) then [Sleep PagePause] else [])).
Proof.
  destruct (scrape_page_inner link attr i net) as (r & E & Hr).
  exists r. split; [exact Hr|]. unfold bind. rewrite E.
  cbn [after res rest trace emit app].
  destruct (res r) as [[]| |]; cbn [after res rest trace returned app];
    now rewrite ?app_nil_r.
Qed.

Lemma pages_in_order attr links i net :
  let out := for_enumerate
               (fun index link =>
                  scrape_page link attr index;; emit (Sleep PagePause))
               i links net in
  (exists later, links = scraped_links (trace out) ++ later) /\
  page_pauses (trace out) <= List.length (scraped_links (trace out))
                          <= page_pauses (trace out) + 1 /\
  (res out = Ret tt ->
   scraped_links (trace out) = links /\
   page_pauses (trace out) = List.length links).
Proof.
  revert i net. induction links as [|link links IH]; intros i net out.
  - subst out. cbn. split; [now exists []|]. split; [lia|auto].
  - subst out. cbn [for_enumerate].
    destruct (page_step link attr i net) as (r & Hr & E).
    rewrite (bind_known _ _ _ _ _ _ E).
    destruct (res r) as [[]| |]; cbn [returned after res rest trace app].
    + specialize (IH (S i) (rest r)). cbv zeta in IH.
      destruct IH as ((later & El) & Hp & Hret).
      rewrite scraped_links_notice, page_pauses_notice.
      rewrite !scraped_links_app, !page_pauses_app.
      rewrite (scraped_links_inner _ Hr), (page_pauses_inner _ Hr).
      change (page_pauses [Sleep PagePause]) with 1.
      change (scraped_links [Sleep PagePause]) with (@nil string).
      cbn [app List.length Nat.add].
      split; [exists later; f_equal; exact El|].
      split; [lia|]. intros R. destruct (Hret R) as [E1 E2].
      rewrite E1, E2. now split.
    + rewrite app_nil_r, scraped_links_notice, page_pauses_notice.
      rewrite (scraped_links_inner _ Hr), (page_pauses_inner _ Hr).
      split; [now exists links|]. split; [cbn [List.length]; lia|discriminate].
    + rewrite app_nil_r, scraped_links_notice, page_pauses_notice.
      rewrite (scraped_links_inner _ Hr), (page_pauses_inner _ Hr).
      split; [now exists links|]. split; [cbn [List.length]; lia|discriminate].
Qed.

(** The page loop that returned has processed every link. *)
Lemma page_pause_run link attr i net :
  (scrape_page link attr i;; emit (Sleep PagePause)) net
  = let sp := scrape_page link attr i net in
    match res sp with
    | Ret _ => mkRun (Ret tt) (rest sp) (trace sp ++ [Sleep PagePause])
    | Raise e => mkRun (Raise e) (rest sp) (trace sp)
    | Hang => mkRun Hang (rest sp) (trace sp)
    end.
Proof.
  unfold bind. cbv zeta. now destruct (res (scrape_page link attr i net)).
Qed.

Lemma pages_processed_run attr links i net :
  let out := for_enumerate
               (fun index link =>
                  scrape_page link attr index;; emit (Sleep PagePause))
               i links net in
  res out = Ret tt -> pages_processed attr i links net (trace out).
Proof.
  revert i net. induction links as [|link links IH]; intros i net out.
  - intros _. apply PP_none.
  - subst out. cbn [for_enumerate].
    pose proof (page_pause_run link attr i net) as E. cbv zeta in E.
    destruct (res (scrape_page link attr i net)) as [[]| |] eqn:R;
      rewrite (bind_known _ _ _ _ _ _ E); [|discriminate..].
    unfold after. cbn [res rest trace]. intros H.
    rewrite <- app_assoc. cbn [app].
    apply PP_page; [exact R|]. apply IH. exact H.
Qed.

Lemma scrape_attraction_trace self row net :
  trace (scrape_attraction self row net) = attraction_events self row net.
Proof.
  unfold scrape_attraction, attraction_events.
  rewrite bind_trace. unfold lift at 1 2 3. cbn [res rest trace].
  destruct (get_attr_details (base_url self ++ snd row)) as [d|]; [|reflexivity].
  cbn [app]. rewrite bind_trace. cbn [emit res rest trace app]. f_equal.
  rewrite bind_trace. unfold update_attraction at 1 2 3. cbn [a_location].
  destruct (fst (fst d)) as [[lat lon]|]; [|reflexivity].
  cbn [update_record emit res rest trace app a_ID a_num_reviews]. f_equal.
  rewrite bind_trace. f_equal.
  destruct (res (scrape_pages (fst row)
                   (generate_page_links self (base_url self ++ snd row) (snd d)) net));
    reflexivity.
Qed.

Lemma scrape_attraction_res self row net :
  res (scrape_attraction self row net) = Ret tt ->
  exists d lat lon,
    get_attr_details (base_url self ++ snd row) = Some d /\
    fst (fst d) = Some (lat, lon) /\
    res (scrape_pages (fst row)
           (generate_page_links self (base_url self ++ snd row) (snd d)) net)
    = Ret tt.
Proof.
  unfold scrape_attraction. rewrite bind_res. unfold lift at 1 2. cbn [res rest].
  destruct (get_attr_details (base_url self ++ snd row)) as [d|] eqn:D; [|discriminate].
  rewrite bind_res. cbn [emit res rest]. rewrite bind_res.
  unfold update_attraction at 1 2. cbn [a_location].
  destruct (fst (fst d)) as [[lat lon]|] eqn:Loc; [|discriminate].
  cbn [update_record emit res rest a_ID]. rewrite bind_res.
  destruct (res (scrape_pages (fst row)
                   (generate_page_links self (base_url self ++ snd row) (snd d)) net))
    as [[]| |] eqn:E; try discriminate.
  intros _. exists d, lat, lon. auto.
Qed.

Lemma split_last {A} (Q : A -> Prop) (pre : list A) (e e' : A) t1 t2 :
  (forall x, In x pre -> ~ Q x) -> Q e' ->
  pre ++ [e] = t1 ++ e' :: t2 ->
  t1 = pre /\ e' = e /\ t2 = [].
Proof.
  intros Hpre He' H. apply split_app in H as [(l & -> & _)|(l & -> & H)].
  - exfalso. apply (Hpre e'); [|exact He']. apply in_elt.
  - destruct l as [|x l]; simpl in H.
    + inversion H. now rewrite app_nil_r.
    + inversion H. now destruct l.
Qed.

Lemma page_event_review attr rv :
  page_event attr (Exec (InsertReview rv)) = true -> attr_ID rv = JInt attr.
Proof.
  simpl. unfold is_int. destruct (attr_ID rv); try discriminate.
  intros E. apply Z.eqb_eq in E. now subst.
Qed.

(** The events of one attraction: the metadata is written before its
    reviews. *)
Lemma attraction_metadata_first self row net :
  metadata_first (attraction_events self row net).
Proof.
  intros t1 rv t2. unfold attraction_events.
  destruct (get_attr_details (base_url self ++ snd row)) as [d|];
    [|now destruct t1].
  destruct (fst (fst d)) as [[lat lon]|].
  2:{ destruct t1 as [|x [|y t1]]; discriminate. }
  set (pr := scrape_pages _ _ _).
  intros H. destruct t1 as [|x [|y t1]]; try discriminate.
  inversion H as [[Hx Hy Ht]]. subst x y.
  exists lon, lat, (json_dumps (snd (fst d))), (fst row).
  split; [simpl; auto|].
  apply page_event_review.
  assert (Hin : In (Exec (InsertReview rv))
                   (trace pr ++ (if returned (res pr)
                                 then [Print (MsgScrapedSet (fst row) true);
                                       Exec (SetScraped true (fst row))]
                                 else []))).
  { rewrite Ht. apply in_elt. }
  apply in_app_or in Hin as [Hin|Hin].
  - apply (forallb_In _ _ _ (scrape_pages_emits (fst row) _ net) Hin).
  - destruct (returned (res pr)); simpl in Hin;
      repeat (destruct Hin as [Hin|Hin]; try discriminate); contradiction.
Qed.

(** The events of one attraction: the flag is set last, after a page loop
    that returned. *)
Lemma attraction_scraped_after_pages self row net :
  scraped_after_pages self [row] (attraction_events self row net).
Proof.
  intros t1 b id t2. unfold attraction_events.
  destruct (get_attr_details (base_url self ++ snd row)) as [d|] eqn:D;
    [|now destruct t1].
  destruct (fst (fst d)) as [[lat lon]|] eqn:Loc.
  2:{ destruct t1 as [|x [|y t1]]; discriminate. }
  set (pr := scrape_pages _ _ _).
  assert (Hpages : forall x, In x (trace pr) ->
                             ~ (exists b' id', x = Exec (SetScraped b' id'))).
  { intros x Hx (b' & id' & ->).
    pose proof (forallb_In _ _ _ (scrape_pages_emits (fst row) _ net) Hx) as E.
    discriminate. }
  destruct (res pr) as [[]| |] eqn:R; cbn [returned].
  - intros H.
    replace (Print (MsgDetails d)
            :: Exec (UpdateAttraction lon lat (json_dumps (snd (fst d))) (fst row))
            :: trace pr ++ [Print (MsgScrapedSet (fst row) true);
                            Exec (SetScraped true (fst row))])
      with (([Print (MsgDetails d)]
             ++ Exec (UpdateAttraction lon lat (json_dumps (snd (fst d))) (fst row))
             :: trace pr ++ [Print (MsgScrapedSet (fst row) true)])
            ++ [Exec (SetScraped true (fst row))]) in H
      by (simpl; now rewrite <- app_assoc).
    apply (split_last (fun x => exists b' id', x = Exec (SetScraped b' id'))) in H
      as (-> & E & ->); [| |eauto].
    + inversion E; subst. split; [reflexivity|].
      exists (snd row), d, lat, lon, [Print (MsgDetails d)], net, (trace pr).
      split; [left; now destruct row|].
      split; [exact D|]. split; [exact Loc|].
      destruct (pages_in_order (fst row)
                  (generate_page_links self (base_url self ++ snd row) (snd d))
                  0 net) as (_ & _ & Hret).
      destruct (Hret R) as [Hl Hp].
      split; [exact (pages_processed_run (fst row) _ 0 net R)|].
      split; [exact Hl|]. split; [exact Hp|reflexivity].
    + intros x Hx (b' & id' & ->). simpl in Hx.
      destruct Hx as [Hx|[Hx|Hx]]; try discriminate.
      apply in_app_or in Hx as [Hx|[Hx|[]]]; [|discriminate].
      apply (Hpages _ Hx). eauto.
  - rewrite app_nil_r. intros H. exfalso.
    destruct t1 as [|x [|y t1]]; try discriminate. inversion H as [[Hx Hy Ht]].
    apply (Hpages (Exec (SetScraped b id))); [rewrite Ht; apply in_elt|eauto].
  - rewrite app_nil_r. intros H. exfalso.
    destruct t1 as [|x [|y t1]]; try discriminate. inversion H as [[Hx Hy Ht]].
    apply (Hpages (Exec (SetScraped b id))); [rewrite Ht; apply in_elt|eauto].
Qed.

Lemma attraction_count_scraped self row net id :
  count_scraped id (attraction_events self row net)
  = if returned (res (scrape_attraction self row net)) && Z.eqb (fst row) id
    then 1 else 0.
Proof.
  unfold attraction_events, scrape_attraction.
  rewrite bind_res. unfold lift at 1 2. cbn [res rest].
  destruct (get_attr_details (base_url self ++ snd row)) as [d|]; [|reflexivity].
  rewrite bind_res. cbn [emit res rest]. rewrite bind_res.
  unfold update_attraction at 1 2. cbn [a_location].
  destruct (fst (fst d)) as [[lat lon]|]; [|reflexivity].
  cbn [update_record emit res rest a_ID]. rewrite bind_res.
  set (pr := scrape_pages _ _ _).
  change (Print (MsgDetails d) :: ?x :: ?l) with ([Print (MsgDetails d); x] ++ l).
  rewrite !count_scraped_app.
  rewrite (count_scraped_pages id (fst row) (trace pr));
    [|apply scrape_pages_emits].
  destruct (res pr) as [[]| |]; cbn; try reflexivity.
  unfold count_scraped. simpl. now destruct (Z.eqb (fst row) id).
Qed.

Lemma for_each_cons_trace {A} (body : A -> M unit) x l net :
  trace (for_each body (x :: l) net)
  = trace (body x net)
    ++ match res (body x net) with
       | Ret _ => trace (for_each body l (rest (body x net)))
       | _ => []
       end.
Proof. cbn [for_each]. now rewrite bind_trace. Qed.

Lemma for_each_cons_res {A} (body : A -> M unit) x l net :
  res (for_each body (x :: l) net)
  = match res (body x net) with
    | Ret _ => res (for_each body l (rest (body x net)))
    | Raise e => Raise e
    | Hang => Hang
    end.
Proof. cbn [for_each]. now rewrite bind_res. Qed.

Lemma rows_metadata_first self rows net :
  metadata_first (trace (for_each (scrape_attraction self) rows net)).
Proof.
  revert net. induction rows as [|row rows IH]; intros net t1 rv t2 H.
  - now destruct t1.
  - rewrite for_each_cons_trace, scrape_attraction_trace in H.
    apply split_app in H as [(l & E & _)|(l & -> & E)].
    + apply (attraction_metadata_first self row net t1 rv l E).
    + destruct (res (scrape_attraction self row net)); [|now destruct l..].
      destruct (IH _ _ _ _ E) as (lon & lat & n & id & Hin & Hid).
      exists lon, lat, n, id. split; [|exact Hid].
      apply in_or_app. now right.
Qed.

Lemma rows_scraped_after_pages self rows net :
  scraped_after_pages self rows (trace (for_each (scrape_attraction self) rows net)).
Proof.
  revert net. induction rows as [|row rows IH]; intros net t1 b id t2 H.
  - now destruct t1.
  - rewrite for_each_cons_trace, scrape_attraction_trace in H.
    apply split_app in H as [(l & E & _)|(l & -> & E)].
    + destruct (attraction_scraped_after_pages self row net t1 b id l E)
        as (Hb & url & d & lat & lon & t0 & net0 & tp & Hin & D & Loc
            & R & Hl & Hp & Ht).
      split; [exact Hb|].
      exists url, d, lat, lon, t0, net0, tp.
      split; [destruct Hin as [->|[]]; now left|].
      split; [exact D|]. split; [exact Loc|]. split; [exact R|].
      split; [exact Hl|]. split; [exact Hp|exact Ht].
    + destruct (res (scrape_attraction self row net)); [|now destruct l..].
      destruct (IH _ _ _ _ _ E)
        as (Hb & url & d & lat & lon & t0 & net0 & tp & Hin & D & Loc
            & R & Hl & Hp & Ht).
      split; [exact Hb|].
      exists url, d, lat, lon, (attraction_events self row net ++ t0), net0, tp.
      split; [now right|].
      split; [exact D|]. split; [exact Loc|]. split; [exact R|].
      split; [exact Hl|]. split; [exact Hp|].
      rewrite Ht. now rewrite app_assoc.
Qed.

Lemma rows_count_scraped self rows net id :
  count_scraped id (trace (for_each (scrape_attraction self) rows net))
  <= count_occ Z.eq_dec (map fst rows) id /\
  (res (for_each (scrape_attraction self) rows net) = Ret tt ->
   count_scraped id (trace (for_each (scrape_attraction self) rows net))
   = count_occ Z.eq_dec (map fst rows) id).
Proof.
  revert net. induction rows as [|row rows IH]; intros net.
  - split; reflexivity.
  - rewrite for_each_cons_trace, for_each_cons_res, count_scraped_app.
    rewrite scrape_attraction_trace, attraction_count_scraped.
    cbn [map count_occ].
    destruct (res (scrape_attraction self row net)) as [[]| |]; cbn [returned andb].
    + destruct (IH (rest (scrape_attraction self row net))) as [Hle Heq].
      destruct (Z.eq_dec (fst row) id) as [E|E].
      * apply Z.eqb_eq in E. rewrite E. split; [lia|]. intros R. now rewrite (Heq R).
      * apply Z.eqb_neq in E. rewrite E. split; [lia|]. intros R. now rewrite (Heq R).
    + split; [cbn; lia|discriminate].
    + split; [cbn; lia|discriminate].
Qed.

Lemma read_attractions_cases self db :
  read_attractions self db = Ret (Some (pending db)) \/
  read_attractions self db = Ret None \/
  read_attractions self db = Raise ProgrammingError.
Proof.
  unfold read_attractions, read_attractions_query.
  destruct (types_is (attr_types self) "all"); [now left|].
  destruct (Nat.eqb (types_len (attr_types self)) 1); [now right; right|].
  destruct (Nat.ltb 1 (types_len (attr_types self))); [now right; right|].
  now right; left.
Qed.

(** [do_scrape] is the loop over the pending attractions, or it stops
    before it does anything. *)
Lemma do_scrape_cases self db net :
  do_scrape self db net = for_each (scrape_attraction self) (pending db) net \/
  (trace (do_scrape self db net) = [] /\ res (do_scrape self db net) <> Ret tt).
Proof.
  unfold do_scrape. rewrite bind_lift.
  destruct (read_attractions_cases self db) as [->|[->| ->]].
  - now left.
  - right. split; [reflexivity|discriminate].
  - right. split; [reflexivity|discriminate].
Qed.

(** The order of the events of a run of [do_scrape]. *)
Lemma do_scrape_events self db net :
  let out := do_scrape self db net in
  metadata_first (trace out) /\
  scraped_after_pages self (pending db) (trace out) /\
  (NoDup (map fst (pending db)) ->
   (forall id, count_scraped id (trace out) <= 1) /\
   (res out = Ret tt ->
    forall id, In id (map fst (pending db)) -> count_scraped id (trace out) = 1)).
Proof.
  intros out. subst out.
  destruct (do_scrape_cases self db net) as [->|[E R]].
  - split; [apply rows_metadata_first|].
    split; [apply rows_scraped_after_pages|].
    intros ND. split.
    + intros id.
      destruct (rows_count_scraped self (pending db) net id) as [Hle _].
      pose proof (proj1 (NoDup_count_occ Z.eq_dec _) ND id). lia.
    + intros Hr id Hin.
      destruct (rows_count_scraped self (pending db) net id) as [_ Heq].
      rewrite (Heq Hr).
      apply (proj1 (NoDup_count_occ' Z.eq_dec _) ND id Hin).
  - rewrite E. split; [|split].
    + intros t1 rv t2 H. now destruct t1.
    + intros t1 b id t2 H. now destruct t1.
    + intros _. split; [intros id; cbn; lia|]. intros Hr. contradiction.
Qed.

(* ================================================================== *)
(** ** The scraped flag in the store *)

Lemma run_trace_app t1 t2 db :
  run_trace (t1 ++ t2) db = run_trace t2 (run_trace t1 db).
Proof.
  revert db. induction t1 as [|e t1 IH]; intros db; simpl; [reflexivity|].
  destruct e; apply IH.
Qed.

Lemma find_update_row id id' f rows :
  (forall r, row_id (f r) = row_id r) ->
  find (fun r => Z.eqb (row_id r) id) (update_row id' f rows)
  = option_map (fun r => if Z.eqb (row_id r) id' then f r else r)
               (find (fun r => Z.eqb (row_id r) id) rows).
Proof.
  intros Hf. unfold update_row.
  induction rows as [|r rows IH]; simpl; [reflexivity|].
  assert (E : row_id (if Z.eqb (row_id r) id' then f r else r) = row_id r).
  { destruct (Z.eqb (row_id r) id'); [apply Hf|reflexivity]. }
  rewrite E. destruct (Z.eqb (row_id r) id); [reflexivity|exact IH].
Qed.

(** A statement other than the setting of the flag of [id] leaves that
    flag as it is. *)
Lemma exec_scraped_flag q db id :
  (forall b, q <> SetScraped b id) ->
  scraped_flag (exec q db) id = scraped_flag db id.
Proof.
  intros Hq. unfold scraped_flag. destruct q; simpl.
  - rewrite find_update_row by reflexivity.
    destruct (find _ (attractions db)) as [r|]; simpl; [|reflexivity].
    now destruct (Z.eqb (row_id r) id0).
  - now destruct (has_review (ID r) (reviews db)).
  - now destruct (has_user (profile u) (users db)).
  - rewrite find_update_row by reflexivity.
    destruct (find _ (attractions db)) as [r|] eqn:F; simpl; [|reflexivity].
    apply find_some in F as [_ F]. apply Z.eqb_eq in F.
    destruct (Z.eqb_spec (row_id r) id0) as [E|E]; [|reflexivity].
    exfalso. apply (Hq b). congruence.
Qed.

Lemma run_trace_scraped_flag t db id :
  count_scraped id t = 0 ->
  scraped_flag (run_trace t db) id = scraped_flag db id.
Proof.
  revert db. induction t as [|e t IH]; intros db H; simpl; [reflexivity|].
  destruct e; try (apply IH; exact H).
  assert (Hq : forall b, q <> SetScraped b id).
  { intros b ->. unfold count_scraped in H. simpl in H.
    rewrite Z.eqb_refl in H. discriminate. }
  rewrite IH.
  - now apply exec_scraped_flag.
  - unfold count_scraped in *. simpl in H.
    destruct q; try exact H.
    destruct (Z.eqb id0 id) eqn:E; [|exact H].
    apply Z.eqb_eq in E. subst. exfalso. now apply (Hq b).
Qed.

Lemma set_scraped_flag b db id b0 :
  scraped_flag db id = Some b0 ->
  scraped_flag (exec (SetScraped b id) db) id = Some b.
Proof.
  unfold scraped_flag. simpl. rewrite find_update_row by reflexivity.
  destruct (find _ (attractions db)) as [r|] eqn:F; [|discriminate].
  intros _. apply find_some in F as [_ F]. simpl. now rewrite F.
Qed.

Lemma pending_ids_nodup db :
  NoDup (map row_id (attractions db)) -> NoDup (map fst (pending db)).
Proof.
  unfold pending. rewrite map_map. simpl.
  induction (attractions db) as [|r rows IH]; simpl; intros H; [constructor|].
  inversion H as [|? ? Hn Hr]; subst.
  destruct (negb (row_scraped r)); simpl; [|now apply IH].
  constructor; [|now apply IH].
  intros Hin. apply Hn. apply in_map_iff in Hin as (r' & E & Hin).
  apply filter_In in Hin as [Hin _]. apply in_map_iff. now exists r'.
Qed.

(** With distinct ids in the table, the flag of a pending attraction is
    false. *)
Lemma pending_scraped_flag db id url :
  NoDup (map row_id (attractions db)) ->
  In (id, url) (pending db) ->
  scraped_flag db id = Some false.
Proof.
  unfold pending, scraped_flag.
  induction (attractions db) as [|r rows IH]; simpl; intros H Hin; [contradiction|].
  inversion H as [|? ? Hn Hr]; subst.
  destruct (Z.eqb_spec (row_id r) id) as [E|E].
  - simpl. destruct (row_scraped r) eqn:S; [|reflexivity]. simpl in Hin.
    exfalso. apply Hn. apply in_map_iff in Hin as (r' & E' & Hin).
    apply filter_In in Hin as [Hin _]. inversion E'. subst.
    apply in_map_iff. exists r'. split; [congruence|exact Hin].
  - apply IH; [exact Hr|].
    destruct (negb (row_scraped r)); [|exact Hin].
    destruct Hin as [Hin|Hin]; [|exact Hin]. inversion Hin. contradiction.
Qed.

(** C1. In every run of [do_scrape], complete or not: a review is written
    only after the metadata of its attraction was written; the scraped flag
    is set only to true, only for a pending attraction, and only right
    after every page link of that attraction was processed (for each link
    of the plan, in order, a run of [scrape_page] that returned and the
    pause after it, every link announced once), which itself comes after
    the write of the metadata; the ids
    of the pending attractions being distinct, the flag of an attraction is
    set at most once, and exactly once for every pending attraction when
    the run returns; and, the ids of the table being distinct, the flag is
    false in the store when it is set and true afterwards. *)
Theorem do_scrape_order self db net :
  let out := do_scrape self db net in
  metadata_first (trace out) /\
  scraped_after_pages self (pending db) (trace out) /\
  (NoDup (map fst (pending db)) ->
   (forall id, count_scraped id (trace out) <= 1) /\
   (res out = Ret tt ->
    forall id, In id (map fst (pending db)) -> count_scraped id (trace out) = 1)) /\
  (NoDup (map row_id (attractions db)) ->
   forall t1 b id t2,
     trace out = t1 ++ Exec (SetScraped b id) :: t2 ->
     scraped_flag (run_trace t1 db) id = Some false /\
     scraped_flag (run_trace (t1 ++ [Exec (SetScraped b id)]) db) id = Some true).
Proof.
  intros out.
  destruct (do_scrape_events self db net) as (H1 & H2 & H3). fold out in H1, H2, H3.
  split; [exact H1|]. split; [exact H2|]. split; [exact H3|].
  intros ND t1 b id t2 H.
  destruct (H2 _ _ _ _ H)
    as (-> & url & d & lat & lon & t0 & net0 & tp & Hin & _).
  destruct (H3 (pending_ids_nodup db ND)) as [Hle _].
  specialize (Hle id). rewrite H, count_scraped_app in Hle.
  change (Exec (SetScraped true id) :: t2)
    with ([Exec (SetScraped true id)] ++ t2) in Hle.
  rewrite count_scraped_app in Hle. unfold count_scraped at 2 in Hle.
  simpl in Hle. rewrite Z.eqb_refl in Hle. simpl in Hle.
  assert (C : count_scraped id t1 = 0) by lia.
  assert (F : scraped_flag (run_trace t1 db) id = Some false).
  { rewrite (run_trace_scraped_flag t1 db id C).
    now apply (pending_scraped_flag db id url). }
  split; [exact F|].
  rewrite run_trace_app. simpl. now apply (set_scraped_flag true _ id false).
Qed.

(* ================================================================== *)
(** ** Further properties of the tree search and of the two loops *)

Lemma traverse_nil_absent j :
  traverse j = [] -> mentions collection_key j = false.
Proof.
  induction j using json_nested_ind; try reflexivity.
  - simpl. induction H as [|v rest Hv _ IH]; simpl; [reflexivity|].
    intros E. apply app_eq_nil in E as [E1 E2].
    now rewrite (Hv E1), (IH E2).
  - simpl. induction H as [|[k v] rest Hv _ IH]; simpl; [reflexivity|].
    intros E. apply app_eq_nil in E as [E1 E2].
    destruct (String.eqb k collection_key); [discriminate|].
    simpl in Hv. now rewrite (Hv E1), (IH E2).
Qed.

(** X1. The tree search yields nothing exactly when the collection key is the
    key of no object entry of the value, at any depth: an occurrence of the
    key, however deep, always makes the search yield something. *)
Theorem traverse_empty_iff j :
  traverse j = [] <-> mentions collection_key j = false.
Proof.
  split; [apply traverse_nil_absent|].
  induction j using json_nested_ind; try reflexivity.
  - simpl. induction H as [|v rest Hv _ IH]; simpl; [reflexivity|].
    intros E. apply orb_false_iff in E as [E1 E2].
    now rewrite (Hv E1), (IH E2).
  - simpl. induction H as [|[k v] rest Hv _ IH]; simpl; [reflexivity|].
    intros E. apply orb_false_iff in E as [E1 E2].
    apply orb_false_iff in E1 as [E0 E1].
    rewrite E0. simpl in Hv. now rewrite (Hv E1), (IH E2).
Qed.

Lemma guarded_fetch_cases resp :
  (exists d, obind (text_of resp) search_group = Ret d) \/
  (exists e, obind (text_of resp) search_group = Raise e).
Proof.
  destruct resp as [|text]; simpl; [eauto|].
  unfold search_group. destruct (re_search text); eauto.
Qed.

Lemma fetch_fails_raise resp :
  fetch_fails resp = true ->
  exists e, obind (text_of resp) search_group = Raise e.
Proof.
  unfold fetch_fails.
  destruct (guarded_fetch_cases resp) as [[d E]|[e E]]; rewrite E;
    [discriminate|eauto].
Qed.

(** X2. The first loop returns the blob of the first response that has the
    marker: every response before it costs a request, a reload notice and
    a pause, and the responses after it are left unread. *)
Theorem fetch_loop_first_good url fails good tail d :
  forallb fetch_fails fails = true ->
  obind (text_of good) search_group = Ret d ->
  fetch_loop url (fails ++ good :: tail)
  = mkRun (Ret d) tail
      (flat_map (fun _ => reload_events url) fails ++ [Get url]).
Proof.
  intros Hf Hg. rewrite (fetch_loop_retries url fails _ Hf).
  cbn [fetch_loop]. rewrite Hg. reflexivity.
Qed.

(** X3. The first loop never raises, whatever the responses; it goes on for as
    long as the responses fail, without a ceiling: on a script of failures
    only it has used all of it, retried after each, and is still waiting. *)
Theorem fetch_loop_never_gives_up url net :
  (forall e, res (fetch_loop url net) <> Raise e) /\
  (res (fetch_loop url net) = Hang <-> forallb fetch_fails net = true) /\
  (forallb fetch_fails net = true ->
   fetch_loop url net
   = mkRun Hang [] (flat_map (fun _ => reload_events url) net)).
Proof.
  induction net as [|resp net (IH1 & IH2 & IH3)].
  - split; [intros e; discriminate|]. split; [now split|reflexivity].
  - cbn [fetch_loop forallb].
    destruct (guarded_fetch_cases resp) as [[d E]|[e E]].
    + assert (Hf : fetch_fails resp = false)
        by (unfold fetch_fails; now rewrite E).
      rewrite E, Hf. cbn [andb res].
      split; [intros e; discriminate|].
      split; [split; intros H; discriminate H|intros H; discriminate H].
    + assert (Hf : fetch_fails resp = true)
        by (unfold fetch_fails; now rewrite E).
      rewrite E, Hf. cbn [andb after res rest trace].
      split; [exact IH1|]. split; [exact IH2|].
      intros H. rewrite (IH3 H). reflexivity.
Qed.

(** X4. Once the first loop has a blob whose tree search yields nothing, and
    every later response is such a blob again, [scrape_page] neither
    returns nor raises: it prints a retry notice and sends a request for
    every response, without any pause, and is still retrying when the
    script ends. *)
Theorem scrape_page_empty_tree_hangs url attr index script d data net t0 :
  fetch_loop url script = mkRun (Ret d) net t0 ->
  json_loads (requote d) = Some data ->
  traverse data = [] ->
  forallb empty_tree net = true ->
  scrape_page url attr index script
  = mkRun Hang []
      (Print (MsgScraping url) :: t0
       ++ flat_map (fun _ => refetch_events url index) net
       ++ [Print (MsgWeird index)]).
Proof.
  intros F L T E. rewrite (scrape_page_decoded _ _ _ _ _ _ _ _ F L).
  pose proof (weird_loop_retries url index data net [] T E) as W.
  rewrite app_nil_r in W. unfold bind. rewrite W.
  cbn [weird_loop]. rewrite T. cbn [next is_exhausted after res rest trace].
  reflexivity.
Qed.

(* ================================================================== *)
(** ** What a page writes, and what it does with values that are no lists *)

Lemma run_trace_pages_attractions attr t db :
  forallb (page_event attr) t = true ->
  attractions (run_trace t db) = attractions db.
Proof.
  revert db. induction t as [|e t IH]; intros db H; simpl; [reflexivity|].
  simpl in H. apply andb_prop in H as [He Ht].
  destruct e; try (now apply IH).
  rewrite (IH _ Ht). destruct q; simpl in He; try discriminate.
  - simpl. now destruct (has_review (ID r) (reviews db)).
  - simpl. now destruct (has_user (profile u) (users db)).
Qed.

Lemma inserted_reviews_In t rv :
  In rv (inserted_reviews t) -> In (Exec (InsertReview rv)) t.
Proof.
  induction t as [|e t IH]; simpl; [auto|].
  intros H. apply in_app_or in H as [H|H]; [left|right; auto].
  destruct e; try contradiction. destruct q; try contradiction.
  destruct H as [->|[]]. reflexivity.
Qed.

(** X5. Whatever the responses and the blob, [scrape_page] writes reviews of
    the attraction it was called for only, and it leaves the table of the
    attractions as it is: neither the metadata nor the scraped flag is
    touched by a page. *)
Theorem scrape_page_writes url attr index script db :
  (forall rv,
     In rv (inserted_reviews (trace (scrape_page url attr index script))) ->
     attr_ID rv = JInt attr) /\
  attractions (run_trace (trace (scrape_page url attr index script)) db)
  = attractions db.
Proof.
  pose proof (scrape_page_emits url attr index script) as E.
  split.
  - intros rv H. apply page_event_review.
    apply (forallb_In _ _ _ E). now apply inserted_reviews_In.
  - now apply (run_trace_pages_attractions attr).
Qed.

Lemma scrape_record_scalar url attr index ridx s net :
  scrape_record url attr index ridx (JStr s) net = mkRun (Raise TypeError) net [].
Proof. unfold scrape_record. now rewrite bind_lift. Qed.

(** X6. A yielded value that is not a list never leads to a write.  When it is
    falsy ([None], [False], 0, the empty string, the empty object) the page
    goes on after the "reviews" diagnostic, as for an empty list; when it
    is truthy (an object, a string, a number, [True]) the loop body raises
    [TypeError] before anything is printed or written. *)
Theorem scrape_reviews_not_a_list url attr index v net :
  (forall l, v <> JList l) ->
  scrape_reviews url attr index v net
  = if truthy v
    then mkRun (Raise TypeError) net []
    else mkRun (Ret tt) net [no_reviews url attr index].
Proof.
  intros Hv. unfold scrape_reviews.
  destruct v as [|b|z|m e|s|l|kvs]; cbn [truthy].
  - reflexivity.
  - destruct b; [now rewrite bind_lift|reflexivity].
  - destruct (negb (Z.eqb z 0)); [now rewrite bind_lift|reflexivity].
  - destruct (negb (Z.eqb m 0)); [now rewrite bind_lift|reflexivity].
  - destruct s as [|c s]; [reflexivity|].
    cbn [String.eqb negb]. rewrite bind_lift. cbn [iterate chars for_enumerate].
    now rewrite (bind_raise _ _ _ _ _ _ (scrape_record_scalar _ _ _ _ _ _)).
  - now destruct (Hv l).
  - destruct kvs as [|[k x] kvs]; [reflexivity|].
    rewrite bind_lift. cbn [iterate map fst for_enumerate].
    now rewrite (bind_raise _ _ _ _ _ _ (scrape_record_scalar _ _ _ _ _ _)).
Qed.

(* ================================================================== *)
(** ** Further properties of the record mapping *)

(** X7. A profile URL that is present but [null] raises nothing, so no
    "user profile" diagnostic is printed; the user write is skipped with
    the notice of [update_user] as its only trace, whatever the other
    values of the user are; and when the values of the review are values
    the database driver adapts, the run returns and the review is written
    with an absent profile. *)
Theorem null_profile_skips_user url attr index ridx r net :
  record_ok r = true ->
  getpath r profile_path = Ret JNull ->
  let out := scrape_record url attr index ridx r net in
  inserted_users (trace out) = [] /\
  In (Print MsgEmptyUser) (trace out) /\
  ~ In (missing "user profile" url attr index ridx) (trace out) /\
  (forallb adapts (review_values (review_of attr r)) = true ->
   res out = Ret tt /\
   exists rv, inserted_reviews (trace out) = [rv] /\ user_profile rv = JNull).
Proof.
  intros H E out. subst out. rewrite (scrape_record_run _ _ _ _ _ _ H).
  cbn [res rest trace].
  assert (P : profile (user_of r) = JNull) by (unfold user_of; now rewrite E).
  assert (O : record_outcome attr r = mogrify (review_values (review_of attr r))).
  { unfold record_outcome, user_outcome. now rewrite P. }
  split.
  { rewrite record_trace_users. now rewrite P. }
  split.
  { unfold record_trace. rewrite P. cbn [is_None].
    apply in_or_app. right. simpl. auto. }
  split.
  { unfold record_trace, diagnostics, optional_fields, missing.
    cbn [flat_map fst snd]. rewrite P, E. cbn [returned is_None].
    destruct (returned (getpath r hometown_path));
    destruct (returned (getpath r contributions_path));
    destruct (returned (getpath r helpful_path));
    destruct (returned (record_outcome attr r)); cbn;
      intros Hin; repeat (destruct Hin as [Hin|Hin]; [discriminate Hin|]);
      exact Hin. }
  intros A. rewrite O, (mogrify_ok _ A). split; [reflexivity|].
  exists (review_of attr r). split.
  - rewrite record_trace_reviews, O, (mogrify_ok _ A). reflexivity.
  - unfold review_of. cbn [user_profile]. now rewrite E.
Qed.

(** X8. The location of a user is the JSON text of the hometown, whatever the
    hometown is: a hometown that is present but [null] is stored as the
    text of [null], not left absent.  The user is written when its values
    are values the database driver adapts, and not otherwise. *)
Theorem hometown_is_dumped url attr index ridx r net p h :
  record_ok r = true ->
  getpath r profile_path = Ret p ->
  is_None p = false ->
  getpath r hometown_path = Ret h ->
  let u := mkUser p (JStr (json_dumps h))
                  (value_or_absent (getpath r contributions_path))
                  (value_or_absent (getpath r helpful_path)) in
  inserted_users (trace (scrape_record url attr index ridx r net))
  = if forallb adapts (user_values u) then [u] else [].
Proof.
  intros H Ep Hp Eh u. rewrite (scrape_record_run _ _ _ _ _ _ H).
  cbn [trace]. rewrite record_trace_users.
  assert (U : user_of r = u) by (unfold user_of, u; now rewrite Ep, Eh).
  rewrite U. unfold user_outcome. cbn [profile u]. rewrite Hp.
  now rewrite mogrify_adapts.
Qed.

(* ================================================================== *)
(** ** Further properties of the orchestration *)

(** X9. With any [attr_types] other than ["all"], [do_scrape] raises before it
    has printed, fetched or written anything: without elements no
    statement is executed and [fetchone] has no result set; otherwise the
    statement handed to [execute] holds the keyword [WHERE] twice. *)
Theorem do_scrape_with_filter self db net :
  types_is (attr_types self) "all" = false ->
  do_scrape self db net = mkRun (Raise ProgrammingError) net [] /\
  (types_len (attr_types self) = 0 -> read_attractions_query self = None) /\
  (1 <= types_len (attr_types self) ->
   exists q, read_attractions_query self = Some q /\
             count_substr "WHERE" q = 2).
Proof.
  intros H. unfold do_scrape, read_attractions, read_attractions_query.
  rewrite bind_lift, H.
  destruct (Nat.eqb_spec (types_len (attr_types self)) 1) as [E1|E1].
  - split; [reflexivity|]. split; [intros E0; lia|].
    intros _. now exists (query_template ++ filter_one)%string.
  - destruct (Nat.ltb_spec 1 (types_len (attr_types self))) as [E2|E2].
    + split; [reflexivity|]. split; [intros E0; lia|].
      intros _. now exists (query_template ++ filter_many)%string.
    + split; [reflexivity|]. split; [reflexivity|]. intros E0. lia.
Qed.

(** X10. When the detail extractor finds no location, [update_attraction]
    raises [TypeError] on the subscript: the attraction is given up after
    the line with its details, and with it the whole loop, whatever
    attractions follow; nothing is written and no page is fetched. *)
Theorem attraction_without_location self row rows net n k :
  get_attr_details (base_url self ++ snd row) = Some (None, n, k) ->
  for_each (scrape_attraction self) (row :: rows) net
  = mkRun (Raise TypeError) net [Print (MsgDetails (None, n, k))].
Proof.
  intros D. cbn [for_each].
  assert (E : scrape_attraction self row net
              = mkRun (Raise TypeError) net [Print (MsgDetails (None, n, k))]).
  { unfold scrape_attraction. rewrite bind_lift, D. cbn [fst snd].
    rewrite bind_emit. reflexivity. }
  now rewrite (bind_raise _ _ _ _ _ _ E).
Qed.

(** X11. When the page plan of an attraction is empty, the attraction is
    flagged as scraped right after its metadata is written, without any
    request and without any review. *)
Theorem attraction_without_pages self row net lat lon n k :
  get_attr_details (base_url self ++ snd row) = Some (Some (lat, lon), n, k) ->
  generate_page_links self (base_url self ++ snd row) k = [] ->
  scrape_attraction self row net
  = mkRun (Ret tt) net
      [ Print (MsgDetails (Some (lat, lon), n, k));
        Exec (UpdateAttraction lon lat (json_dumps n) (fst row));
        Print (MsgScrapedSet (fst row) true);
        Exec (SetScraped true (fst row)) ].
Proof.
  intros D G. unfold scrape_attraction. rewrite bind_lift, D. cbn [fst snd].
  rewrite bind_emit. unfold update_attraction, update_record. cbn [a_location].
  rewrite bind_emit. cbn [a_ID a_num_reviews]. rewrite G.
  reflexivity.
Qed.

Lemma pending_row_keys db : pending db = pending_keys (map row_key (attractions db)).
Proof.
  unfold pending, pending_keys.
  induction (attractions db) as [|r rows IH]; [reflexivity|].
  cbn [map filter row_key snd]. destruct (negb (row_scraped r)); cbn [map fst];
    now rewrite IH.
Qed.

Lemma exec_row_keys q db :
  map row_key (attractions (exec q db))
  = match q with
    | SetScraped b id =>
        map (fun k => if Z.eqb (fst (fst k)) id then (fst k, b) else k)
            (map row_key (attractions db))
    | _ => map row_key (attractions db)
    end.
Proof.
  destruct q; simpl.
  - unfold update_row. rewrite map_map. apply map_ext. intros r.
    now destruct (Z.eqb (row_id r) id).
  - now destruct (has_review (ID r) (reviews db)).
  - now destruct (has_user (profile u) (users db)).
  - unfold update_row. rewrite !map_map. apply map_ext. intros r.
    unfold row_key. simpl. now destruct (Z.eqb (row_id r) id).
Qed.

Lemma count_scraped_cons id e t :
  count_scraped id (e :: t)
  = (match e with
     | Exec (SetScraped _ id') => if Z.eqb id' id then 1 else 0
     | _ => 0
     end) + count_scraped id t.
Proof.
  unfold count_scraped. simpl.
  destruct e; try reflexivity. destruct q; try reflexivity.
  now destruct (Z.eqb id0 id).
Qed.

(** The keys of the rows after a trace that sets flags to true only. *)
Lemma run_trace_row_keys t db :
  forallb sets_true t = true ->
  map row_key (attractions (run_trace t db))
  = map (key_after t) (map row_key (attractions db)).
Proof.
  revert db. induction t as [|e t IH]; intros db H.
  - simpl. rewrite <- (map_id (map row_key (attractions db))) at 1.
    apply map_ext. intros [[id url] s]. unfold key_after. simpl.
    now rewrite orb_false_r.
  - cbn [forallb] in H. apply andb_prop in H as [He Ht].
    assert (Same : forall db',
              map row_key (attractions db') = map row_key (attractions db) ->
              (forall id, count_scraped id (e :: t) = count_scraped id t) ->
              map row_key (attractions (run_trace t db'))
              = map (key_after (e :: t)) (map row_key (attractions db))).
    { intros db' Hk Hc. rewrite (IH db' Ht), Hk. apply map_ext.
      intros k. unfold key_after. now rewrite Hc. }
    destruct e as [m|u|p|q]; cbn [run_trace];
      try (apply Same; [reflexivity|intros id; now rewrite count_scraped_cons]).
    destruct q as [lon lat n id0|r|u|b id0];
      try (apply Same; [now rewrite exec_row_keys
                       |intros id; now rewrite count_scraped_cons]).
    simpl in He. subst b.
    rewrite (IH _ Ht), (exec_row_keys (SetScraped true id0) db), map_map.
    apply map_ext. intros [[id url] s]. unfold key_after. cbn [fst snd].
    rewrite count_scraped_cons, (Z.eqb_sym id0 id).
    destruct (Z.eqb id id0); cbn [fst snd]; [|reflexivity].
    now rewrite orb_true_r.
Qed.

Lemma pending_keys_after t ks id url :
  In (id, url) (pending_keys (map (key_after t) ks)) <->
  In (id, url) (pending_keys ks) /\ count_scraped id t = 0.
Proof.
  unfold pending_keys. rewrite !in_map_iff. split.
  - intros ([k s] & E & Hin). simpl in E. subst k.
    apply filter_In in Hin as [Hin Hs]. simpl in Hs.
    apply in_map_iff in Hin as ([[id' url'] s'] & E & Hin).
    unfold key_after in E. simpl in E. inversion E. subst id' url' s.
    apply negb_true_iff, orb_false_iff in Hs as [Hs Hc].
    subst s'. split.
    + exists (id, url, false). split; [reflexivity|].
      apply filter_In. now split.
    + apply Nat.ltb_ge in Hc. lia.
  - intros [([k s] & E & Hin) Hc]. simpl in E. subst k.
    apply filter_In in Hin as [Hin Hs]. simpl in Hs.
    apply negb_true_iff in Hs. subst s.
    exists (id, url, false). split; [reflexivity|].
    apply filter_In. split; [|reflexivity].
    apply in_map_iff. exists (id, url, false). split; [|exact Hin].
    unfold key_after. simpl. now rewrite Hc.
Qed.

Lemma do_scrape_sets_true self db net :
  forallb sets_true (trace (do_scrape self db net)) = true.
Proof.
  apply forallb_forall. intros e Hin.
  destruct e as [m|u|p|q]; try reflexivity.
  destruct q as [lon lat n id0|r|u|b id0]; try reflexivity.
  apply in_split in Hin as (t1 & t2 & E).
  destruct (do_scrape_events self db net) as (_ & H2 & _).
  now destruct (H2 _ _ _ _ E) as [-> _].
Qed.

(** X12. The store after a run of [do_scrape], complete or not: the attractions
    pending in it are exactly those that were pending before and whose flag
    the run did not set, with the URL they had; and when the run returns,
    no attraction is pending any more. *)
Theorem do_scrape_leaves_pending self db net :
  let out := do_scrape self db net in
  (forall id url,
     In (id, url) (pending (run_trace (trace out) db)) <->
     In (id, url) (pending db) /\ count_scraped id (trace out) = 0) /\
  (res out = Ret tt -> pending (run_trace (trace out) db) = []).
Proof.
  intros out.
  assert (P : forall id url,
            In (id, url) (pending (run_trace (trace out) db)) <->
            In (id, url) (pending db) /\ count_scraped id (trace out) = 0).
  { intros id url.
    rewrite (pending_row_keys (run_trace (trace out) db)), (pending_row_keys db).
    rewrite (run_trace_row_keys _ _ (do_scrape_sets_true self db net)).
    apply pending_keys_after. }
  split; [exact P|].
  intros R. destruct (pending (run_trace (trace out) db)) as [|[id url] l] eqn:E;
    [reflexivity|].
  exfalso. destruct (proj1 (P id url)) as [Hin Hc]; [now left|].
  subst out. destruct (do_scrape_cases self db net) as [D|[_ N]];
    [|contradiction].
  rewrite D in R, Hc.
  destruct (rows_count_scraped self (pending db) net id) as [_ Heq].
  rewrite (Heq R) in Hc.
  assert (Hid : In id (map fst (pending db))).
  { apply in_map_iff. now exists (id, url). }
  apply (count_occ_In Z.eq_dec) in Hid. lia.
Qed.

(* ================================================================== *)
(** ** The users a page writes *)

Lemma record_trace_user_event url attr index ridx r :
  forallb user_event (record_trace url attr index ridx r) = true.
Proof.
  unfold record_trace, diagnostics, optional_fields, missing.
  cbn [flat_map fst snd]. generalize (user_of r). intros u.
  destruct (returned (getpath r profile_path));
  destruct (returned (getpath r hometown_path));
  destruct (returned (getpath r contributions_path));
  destruct (returned (getpath r helpful_path));
  destruct (is_None (profile u)) eqn:E;
  destruct (returned (user_outcome u));
  destruct (returned (record_outcome attr r)); cbn; now rewrite ?E.
Qed.

Lemma scrape_page_user_events url attr index :
  emits user_event (scrape_page url attr index).
Proof.
  unfold scrape_page.
  apply emits_bind; [now apply emits_emit|intros _].
  apply emits_bind.
  { intros net. apply (forallb_impl fetch_event); [|apply fetch_loop_events].
    intros [[]| |[]|]; simpl; congruence. }
  intros d. apply emits_bind; [apply emits_lift|intros data].
  apply emits_bind.
  { intros net. apply (forallb_impl refetch_event); [|apply weird_loop_events].
    intros [[]| |[]|]; simpl; congruence. }
  intros data'. apply emits_for_each. intros v.
  unfold scrape_reviews. apply emits_if.
  - apply emits_bind; [apply emits_lift|intros items].
    apply emits_for_enumerate. intros i r net.
    destruct (record_ok r) eqn:E.
    + rewrite (scrape_record_run _ _ _ _ _ _ E). apply record_trace_user_event.
    + destruct (scrape_record_bad url attr index i r E) as (e & He & _).
      now rewrite He.
  - unfold print_missing_info. now apply emits_emit.
Qed.

Lemma has_user_app p rows more :
  has_user p rows = true -> has_user p (rows ++ more) = true.
Proof. unfold has_user. intros H. now rewrite existsb_app, H. Qed.

Lemma exec_users_grow q db :
  exists added, users (exec q db) = users db ++ added.
Proof.
  destruct q; simpl; try (exists []; now rewrite app_nil_r).
  - destruct (has_review (ID r) (reviews db)); exists []; now rewrite app_nil_r.
  - destruct (has_user (profile u) (users db)); simpl.
    + exists []. now rewrite app_nil_r.
    + now exists [u].
Qed.

Lemma run_trace_users_grow t db :
  exists added, users (run_trace t db) = users db ++ added.
Proof.
  revert db. induction t as [|e t IH]; intros db; simpl.
  - exists []. now rewrite app_nil_r.
  - destruct e; auto.
    destruct (IH (exec q db)) as (a2 & E2).
    destruct (exec_users_grow q db) as (a1 & E1).
    exists (a1 ++ a2). now rewrite E2, E1, app_assoc.
Qed.

Lemma run_trace_covers_users t db u :
  In u (inserted_users t) ->
  has_user (profile u) (users (run_trace t db)) = true.
Proof.
  revert db. induction t as [|e t IH]; intros db; simpl; [contradiction|].
  intros H. apply in_app_or in H as [H|H].
  - destruct e; try contradiction. destruct q; try contradiction.
    destruct H as [->|[]].
    destruct (run_trace_users_grow t (exec (InsertUser u) db)) as (added & ->).
    apply has_user_app. simpl.
    destruct (has_user (profile u) (users db)) eqn:E; [exact E|].
    simpl. unfold has_user. rewrite existsb_app. simpl.
    now rewrite json_eqb_refl, orb_true_r.
  - destruct e; auto.
Qed.

Lemma run_trace_covered_users t db :
  (forall u, In u (inserted_users t) -> has_user (profile u) (users db) = true) ->
  users (run_trace t db) = users db.
Proof.
  revert db. induction t as [|e t IH]; intros db H; simpl; [reflexivity|].
  destruct e; try (apply IH; intros u Hu; apply H; simpl; exact Hu).
  assert (E : users (exec q db) = users db).
  { destruct q; try reflexivity.
    - simpl. now destruct (has_review (ID r) (reviews db)).
    - simpl. rewrite H; [reflexivity|]. simpl. now left. }
  rewrite IH; [exact E|]. intros u Hu. rewrite E. apply H. simpl.
  apply in_or_app. now right.
Qed.

Lemma inserted_users_In t u :
  In u (inserted_users t) -> In (Exec (InsertUser u)) t.
Proof.
  induction t as [|e t IH]; simpl; [auto|].
  intros H. apply in_app_or in H as [H|H]; [left|right; auto].
  destruct e; try contradiction. destruct q; try contradiction.
  destruct H as [->|[]]. reflexivity.
Qed.

(** X13. The users of a page: [scrape_page] never writes a user without a
    profile; the users it writes are appended to the table, so that a
    stored user is never changed by a later review of the same profile
    (the first write wins); and a second run on the same script, on the
    store the first run left, leaves the table of the users as it is. *)
Theorem scrape_page_users url attr index script db :
  let t := trace (scrape_page url attr index script) in
  let db1 := run_trace t db in
  (forall u, In u (inserted_users t) -> is_None (profile u) = false) /\
  (exists added, users db1 = users db ++ added) /\
  (forall u d, has_user (profile u) (users d) = true ->
               exec (InsertUser u) d = d) /\
  users (run_trace t db1) = users db1.
Proof.
  intros t db1. split; [|split; [|split]].
  - intros u Hu. apply inserted_users_In in Hu.
    pose proof (forallb_In _ _ _ (scrape_page_user_events url attr index script) Hu)
      as E.
    simpl in E. now apply negb_true_iff in E.
  - apply run_trace_users_grow.
  - intros u d H. simpl. now rewrite H.
  - apply run_trace_covered_users. intros u Hu. now apply run_trace_covers_users.
Qed.

(* ================================================================== *)
(** ** The blob of a page *)

Lemma prefix_nil s : String.prefix EmptyString s = true.
Proof. now destruct s. Qed.

Lemma prefix_split a s :
  String.prefix a s = true -> exists post, s = (a ++ post)%string.
Proof.
  revert s. induction a as [|c a IH]; intros s H.
  - now exists s.
  - destruct s as [|c' s]; simpl in H; [discriminate H|].
    destruct (ascii_dec c c') as [->|]; [|discriminate H].
    destruct (IH s H) as (post & ->). now exists post.
Qed.

Lemma prefix_append a s : String.prefix a (a ++ s)%string = true.
Proof.
  induction a as [|c a IH]; simpl; [apply prefix_nil|].
  now destruct (ascii_dec c c).
Qed.

Lemma drop_append a s : drop (String.length a) (a ++ s)%string = s.
Proof. induction a as [|c a IH]; simpl; [now destruct s|exact IH]. Qed.

Lemma lazy_group_eq s :
  lazy_group s
  = if String.prefix "};" s then Some "}"
    else match s with
         | EmptyString => None
         | String c s' =>
             if Ascii.eqb c newline then None
             else option_map (String c) (lazy_group s')
         end.
Proof. now destruct s. Qed.

Lemma re_search_eq text :
  re_search text
  = match (if String.prefix marker text
           then lazy_group (drop (String.length marker) text)
           else None) with
    | Some g => Some g
    | None => match text with
              | EmptyString => None
              | String _ text' => re_search text'
              end
    end.
Proof. now destruct text. Qed.

Lemma prefix_cons c1 s1 c2 s2 :
  String.prefix (String c1 s1) (String c2 s2)
  = if ascii_dec c1 c2 then String.prefix s1 s2 else false.
Proof. reflexivity. Qed.

Lemma closing_prefix c body post :
  String.prefix "};" (String c (body ++ "}"))%string = true ->
  String.prefix "};" (String c (body ++ "};" ++ post))%string = true.
Proof.
  destruct body as [|c2 body]; cbn [append]; rewrite !prefix_cons.
  - destruct (ascii_dec "}" c); [|intros H; discriminate H].
    destruct (ascii_dec ";" "}") as [E|]; [discriminate E|].
    intros H; discriminate H.
  - destruct (ascii_dec "}" c); [|intros H; discriminate H].
    destruct (ascii_dec ";" c2); [|intros H; discriminate H].
    now rewrite !prefix_nil.
Qed.

Lemma lazy_group_sound s g :
  lazy_group s = Some g ->
  exists body post,
    s = (body ++ "};" ++ post)%string /\
    g = (body ++ "}")%string /\
    contains_char newline body = false /\
    count_substr "};" g = 0.
Proof.
  revert g. induction s as [|c s IH]; intros g; rewrite lazy_group_eq.
  - discriminate.
  - destruct (String.prefix "};" (String c s)) eqn:P.
    + intros E. inversion E. subst g.
      destruct (prefix_split _ _ P) as (post & ->).
      now exists EmptyString, post.
    + destruct (Ascii.eqb c newline) eqn:N; [discriminate|].
      destruct (lazy_group s) as [g'|] eqn:L; [|discriminate].
      intros E. inversion E. subst g.
      destruct (IH g' eq_refl) as (body & post & -> & -> & Hn & Hc).
      exists (String c body), post.
      split; [reflexivity|]. split; [reflexivity|].
      split; [simpl; now rewrite N|].
      change (count_substr "};" (String c (body ++ "}")))
        with ((if String.prefix "};" (String c (body ++ "}"))%string
               then 1 else 0)
              + count_substr "};" (body ++ "}")).
      rewrite Hc.
      destruct (String.prefix "};" (String c (body ++ "}"))) eqn:Q;
        [|reflexivity].
      apply (closing_prefix c body post) in Q. simpl in Q, P. congruence.
Qed.

Lemma lazy_group_complete body post :
  contains_char newline body = false ->
  lazy_group (body ++ "};" ++ post)%string <> None.
Proof.
  induction body as [|c body IH]; intros H.
  - change ((EmptyString ++ "};" ++ post)%string) with (("};" ++ post)%string).
    rewrite lazy_group_eq. now rewrite (prefix_append "};" post).
  - simpl in H. apply orb_false_iff in H as [N H].
    change ((String c body ++ "};" ++ post)%string)
      with (String c (body ++ "};" ++ post)%string).
    rewrite lazy_group_eq.
    destruct (String.prefix "};" (String c (body ++ "};" ++ post))); [discriminate|].
    rewrite N. specialize (IH H).
    now destruct (lazy_group (body ++ "};" ++ post)%string).
Qed.

(** X14. The search of line 223 accepts a page exactly when the marker is
    followed, before the end of its line, by a brace and a semicolon; the
    blob it hands on then starts right after an occurrence of the marker,
    has no newline, and ends at the first brace that is followed by a
    semicolon: whatever comes after that is cut off, also when the JSON
    object goes on. *)
Theorem re_search_blob text :
  (forall g, re_search text = Some g ->
     exists pre body post,
       text = (pre ++ marker ++ body ++ "};" ++ post)%string /\
       g = (body ++ "}")%string /\
       contains_char newline body = false /\
       count_substr "};" g = 0) /\
  (forall pre body post,
     text = (pre ++ marker ++ body ++ "};" ++ post)%string ->
     contains_char newline body = false ->
     re_search text <> None).
Proof.
  split.
  - induction text as [|c text IH]; intros g; rewrite re_search_eq.
    + cbn. discriminate.
    + assert (Tail : re_search text = Some g ->
                     exists pre body post,
                       String c text = (pre ++ marker ++ body ++ "};" ++ post)%string /\
                       g = (body ++ "}")%string /\
                       contains_char newline body = false /\
                       count_substr "};" g = 0).
      { intros E. destruct (IH g E) as (pre & body & post & -> & Hg & Hn & Hc).
        now exists (String c pre), body, post. }
      destruct (String.prefix marker (String c text)) eqn:P; [|exact Tail].
      destruct (lazy_group (drop (String.length marker) (String c text)))
        as [g0|] eqn:L; [|exact Tail].
      intros E. inversion E. subst g0.
      destruct (prefix_split _ _ P) as (rest0 & Er). rewrite Er in L.
      rewrite drop_append in L.
      destruct (lazy_group_sound _ _ L) as (body & post & -> & Hg & Hn & Hc).
      exists EmptyString, body, post. now rewrite Er.
  - intros pre. revert text. induction pre as [|c pre IH];
      intros text body post -> Hn; rewrite re_search_eq.
    + change ((EmptyString ++ marker ++ body ++ "};" ++ post)%string)
        with ((marker ++ (body ++ "};" ++ post))%string).
      rewrite prefix_append, drop_append.
      pose proof (lazy_group_complete body post Hn) as C.
      now destruct (lazy_group (body ++ "};" ++ post)%string).
    + change ((String c pre ++ marker ++ body ++ "};" ++ post)%string)
        with (String c (pre ++ marker ++ body ++ "};" ++ post)%string).
      destruct (if String.prefix marker
                     (String c (pre ++ marker ++ body ++ "};" ++ post))
                then lazy_group (drop (String.length marker)
                       (String c (pre ++ marker ++ body ++ "};" ++ post)))
                else None); [discriminate|].
      now apply (IH _ body post).
Qed.

(* ================================================================== *)
(** ** The fix-up of the blob *)

Lemma string_app_assoc (a b c : string) :
  ((a ++ b) ++ c)%string = (a ++ b ++ c)%string.
Proof. induction a as [|x a IH]; simpl; [reflexivity|now rewrite IH]. Qed.

Lemma string_length_app (a b : string) :
  String.length (a ++ b) = String.length a + String.length b.
Proof. induction a as [|x a IH]; simpl; [reflexivity|now rewrite IH]. Qed.

Lemma prefix_refl s : String.prefix s s = true.
Proof.
  induction s as [|c s IH]; [reflexivity|].
  rewrite prefix_cons. now destruct (ascii_dec c c).
Qed.

(** Whether [p] starts [x ++ y] is decided within [x] when [x] is at
    least as long as [p]. *)
Lemma prefix_app_long p x y :
  String.length p <= String.length x ->
  String.prefix p (x ++ y)%string = String.prefix p x.
Proof.
  revert x. induction p as [|c p IH]; intros x H.
  - now rewrite !prefix_nil.
  - destruct x as [|c' x]; simpl in H; [lia|].
    cbn [append]. rewrite !prefix_cons.
    destruct (ascii_dec c c'); [|reflexivity]. apply IH. lia.
Qed.

Lemma count_substr_cons sub c s :
  count_substr sub (String c s)
  = (if String.prefix sub (String c s) then 1 else 0) + count_substr sub s.
Proof. reflexivity. Qed.

Lemma count_substr_end old a :
  old <> EmptyString -> 1 <= count_substr old (a ++ old)%string.
Proof.
  intros Ho. induction a as [|c a IH].
  - destruct old as [|c o]; [contradiction|].
    cbn [append]. rewrite count_substr_cons, prefix_refl. lia.
  - cbn [append]. rewrite count_substr_cons. lia.
Qed.

Lemma replace_from_eq old new c s :
  replace_from old new 0 (String c s)
  = if String.prefix old (String c s)
    then (new ++ replace_from old new (String.length old - 1) s)%string
    else String c (replace_from old new 0 s).
Proof. reflexivity. Qed.

Lemma replace_skip old new t s :
  replace_from old new (String.length t) (t ++ s)%string
  = replace_from old new 0 s.
Proof.
  induction t as [|c t IH]; cbn [String.length append]; [reflexivity|].
  destruct s; exact IH.
Qed.

Lemma replace_absent old new s :
  count_substr old s = 0 -> replace old new s = s.
Proof.
  unfold replace. induction s as [|c s IH]; [reflexivity|].
  rewrite count_substr_cons, replace_from_eq.
  destruct (String.prefix old (String c s)); [discriminate|].
  intros H. now rewrite (IH H).
Qed.

Lemma replace_occurrence old new a s :
  old <> EmptyString ->
  count_substr old (a ++ old)%string = 1 ->
  replace old new (a ++ old ++ s)%string
  = (a ++ new ++ replace old new s)%string.
Proof.
  intros Ho. unfold replace. induction a as [|c a IH]; intros H.
  - destruct old as [|x o]; [contradiction|].
    cbn [append]. rewrite replace_from_eq.
    change (String x (o ++ s)%string) with ((String x o ++ s)%string).
    rewrite prefix_append.
    replace (String.length (String x o) - 1) with (String.length o)
      by (cbn [String.length]; lia).
    now rewrite replace_skip.
  - cbn [append] in *. rewrite count_substr_cons in H.
    pose proof (count_substr_end old a Ho) as Hend.
    destruct (String.prefix old (String c (a ++ old))) eqn:P; [lia|].
    rewrite replace_from_eq.
    assert (Q : String.prefix old (String c (a ++ old ++ s)) = false).
    { rewrite <- P.
      change (String c (a ++ old ++ s)%string)
        with ((String c a ++ old ++ s)%string).
      rewrite <- string_app_assoc.
      change ((String c a ++ old)%string) with (String c (a ++ old)%string).
      apply prefix_app_long. cbn [String.length].
      rewrite string_length_app. lia. }
    rewrite Q, IH; [reflexivity|]. simpl in H. lia.
Qed.

(** X15. The fix-up of line 230 is not limited to the first key of the blob: a
    blob without the name is left as it is, and every occurrence of the
    name is put between quotes and the rest of the blob fixed up in the
    same way, so that an occurrence in a review text is changed too and a
    name that is quoted already gets a second pair of quotes. *)
Theorem requote_every_occurrence :
  (forall s, count_substr "pageManifest" s = 0 -> requote s = s) /\
  (forall a s,
     count_substr "pageManifest" (a ++ "pageManifest")%string = 1 ->
     requote (a ++ "pageManifest" ++ s)%string
     = (a ++ quoted "pageManifest" ++ requote s)%string).
Proof.
  split.
  - intros s. apply replace_absent.
  - intros a s H. unfold requote, quoted.
    apply replace_occurrence; [discriminate|exact H].
Qed.

(* ================================================================== *)
(** ** The page loop, and the second loop when it ends *)

(** X16. The page loop of [do_scrape] takes the links in their order, each at
    most once: the notices of the pages it started are an initial part of
    the links; every page that returned is followed by one pause, so that
    the number of pauses is the number of pages started or one less; and
    when the loop returns, every link was scraped once and followed by a
    pause, the last one included. *)
Theorem scrape_pages_in_order attr links net :
  let out := scrape_pages attr links net in
  (exists later, links = scraped_links (trace out) ++ later) /\
  page_pauses (trace out) <= List.length (scraped_links (trace out))
                          <= page_pauses (trace out) + 1 /\
  (res out = Ret tt ->
   scraped_links (trace out) = links /\
   page_pauses (trace out) = List.length links).
Proof. exact (pages_in_order attr links 0 net). Qed.

Lemma weird_loop_first_good url index data empties good tail data' :
  traverse data = [] ->
  forallb empty_tree empties = true ->
  reload good = Ret data' ->
  traverse data' <> [] ->
  weird_loop url index data (empties ++ good :: tail)
  = mkRun (Ret data') tail
      (flat_map (fun _ => refetch_events url index) empties
       ++ refetch_events url index).
Proof.
  intros T E R T'. rewrite (weird_loop_retries url index data empties _ T E).
  cbn [weird_loop]. rewrite T. cbn [next is_exhausted]. rewrite R.
  rewrite (weird_loop_done url index data' tail T').
  cbn [after res rest trace app]. rewrite ?app_nil_r. reflexivity.
Qed.

(** X17. When the second loop ends, the page is the last blob fetched: after a
    blob without record lists and any number of such blobs again, the
    first response whose blob has a list ends the loop, and the records
    written are those of that blob, a well-formed one (lists of records
    with their required fields and values the database driver adapts). *)
Theorem scrape_page_recovers
    url attr index script d data empties good tail t0 data' :
  fetch_loop url script = mkRun (Ret d) (empties ++ good :: tail) t0 ->
  json_loads (requote d) = Some data ->
  traverse data = [] ->
  forallb empty_tree empties = true ->
  reload good = Ret data' ->
  traverse data' <> [] ->
  forallb list_ok (traverse data') = true ->
  forallb (storable attr) (flat_map records (traverse data')) = true ->
  scrape_page url attr index script
  = mkRun (Ret tt) tail
      (Print (MsgScraping url) :: t0
       ++ flat_map (fun _ => refetch_events url index) empties
       ++ refetch_events url index
       ++ page_events url attr index (traverse data')).
Proof.
  intros F L T E R T' W S. rewrite (scrape_page_decoded _ _ _ _ _ _ _ _ F L).
  rewrite (bind_ret _ _ _ _ _ _
             (weird_loop_first_good url index data empties good tail data' T E R T')).
  rewrite (lists_run _ _ _ _ _ W S). unfold after. cbn [res rest trace].
  rewrite <- app_assoc. reflexivity.
Qed.

(** X18. What the guards of [scrape_page] do not cover.  A blob that is not
    JSON raises the decoding error out of [scrape_page], after the first
    loop has ended; and while the second loop retries, the first response
    that cannot be fetched, searched or decoded raises its error out of
    [scrape_page], with nothing written. *)
Theorem scrape_page_unguarded url attr index script d net t0 :
  fetch_loop url script = mkRun (Ret d) net t0 ->
  (json_loads (requote d) = None ->
   scrape_page url attr index script
   = mkRun (Raise JSONDecodeError) net (Print (MsgScraping url) :: t0)) /\
  (forall data empties bad tail e,
     json_loads (requote d) = Some data ->
     traverse data = [] ->
     net = empties ++ bad :: tail ->
     forallb empty_tree empties = true ->
     reload bad = Raise e ->
     scrape_page url attr index script
     = mkRun (Raise e) tail
         (Print (MsgScraping url) :: t0
          ++ flat_map (fun _ => refetch_events url index) empties
          ++ refetch_events url index)).
Proof.
  intros F. split.
  - intros L. unfold scrape_page. rewrite bind_emit.
    rewrite (bind_ret _ _ _ _ _ _ F), bind_lift. unfold loads. rewrite L.
    unfold after. cbn [res rest trace app]. rewrite ?app_nil_r. reflexivity.
  - intros data empties bad tail e L T -> E R.
    rewrite (scrape_page_decoded _ _ _ _ _ _ _ _ F L).
    assert (W : weird_loop url index data (empties ++ bad :: tail)
                = mkRun (Raise e) tail
                    (flat_map (fun _ => refetch_events url index) empties
                     ++ refetch_events url index)).
    { rewrite (weird_loop_retries url index data empties _ T E).
      cbn [weird_loop]. rewrite T. cbn [next is_exhausted]. now rewrite R. }
    now rewrite (bind_raise _ _ _ _ _ _ W).
Qed.

(* ================================================================== *)
(** ** Values the database driver does not adapt *)

Lemma mogrify_raise params e :
  mogrify params = Raise e -> exists v, In v params /\ adapt v = Some e.
Proof.
  induction params as [|v params IH]; simpl; [discriminate|].
  destruct (adapt v) as [e'|] eqn:A.
  - intros E. inversion E. subst. exists v. auto.
  - intros E. destruct (IH E) as (v' & Hin & Hv). exists v'. auto.
Qed.

Lemma user_outcome_returned u :
  returned (user_outcome u)
  = is_None (profile u) || forallb adapts (user_values u).
Proof.
  unfold user_outcome. destruct (is_None (profile u)); [reflexivity|].
  apply mogrify_adapts.
Qed.

Lemma record_outcome_returned attr r :
  returned (record_outcome attr r) = storable attr r.
Proof.
  unfold storable. rewrite <- user_outcome_returned, <- mogrify_adapts.
  unfold record_outcome.
  destruct (user_outcome_cases (user_of r)) as [->|[e ->]]; cbn [obind returned].
  - now rewrite andb_true_r.
  - now rewrite andb_false_r.
Qed.

Lemma record_outcome_unstorable attr r :
  storable attr r = false ->
  exists v e,
    record_outcome attr r = Raise e /\ adapt v = Some e /\
    (In v (user_values (user_of r)) \/
     In v (review_values (review_of attr r))).
Proof.
  intros E. pose proof (record_outcome_returned attr r) as S. rewrite E in S.
  unfold record_outcome in *.
  destruct (user_outcome_cases (user_of r)) as [U|[e U]];
    rewrite U in *; cbn [obind returned] in *.
  - destruct (mogrify_cases (review_values (review_of attr r)))
      as [M|[e M]]; rewrite M in S; [discriminate|].
    destruct (mogrify_raise _ _ M) as (v & Hin & Hv).
    exists v, e. auto.
  - unfold user_outcome in U.
    destruct (is_None (profile (user_of r))); [discriminate|].
    destruct (mogrify_raise _ _ U) as (v & Hin & Hv).
    exists v, e. auto.
Qed.

(** X19. A value the database driver does not adapt is not tolerated the way
    a missing optional field is.  A record with its required fields is
    mapped and written without raising exactly when the driver adapts the
    values of its review and, with a profile, of its user; otherwise the
    exception the driver raises on one of these values leaves the record
    loop and the review is not written.  The user is written before the
    review is attempted: when its values are adapted it is written, also
    when the review then fails. *)
Theorem unadaptable_value_raises url attr index ridx r net :
  record_ok r = true ->
  let out := scrape_record url attr index ridx r net in
  (res out = Ret tt <-> storable attr r = true) /\
  rest out = net /\
  (storable attr r = false ->
   inserted_reviews (trace out) = [] /\
   exists v e,
     res out = Raise e /\ adapt v = Some e /\
     (In v (user_values (user_of r)) \/
      In v (review_values (review_of attr r)))) /\
  (is_None (profile (user_of r)) = false ->
   inserted_users (trace out)
   = if forallb adapts (user_values (user_of r)) then [user_of r] else []).
Proof.
  intros H out. subst out. rewrite (scrape_record_run _ _ _ _ _ _ H).
  cbn [res rest trace].
  pose proof (record_outcome_returned attr r) as S.
  split; [|split; [reflexivity|split]].
  - split.
    + intros E. now rewrite E in S.
    + intros E. rewrite E in S.
      destruct (record_outcome_cases attr r) as [->|[e He]]; [reflexivity|].
      rewrite He in S. discriminate.
  - intros E. split.
    + rewrite record_trace_reviews. now rewrite S, E.
    + destruct (record_outcome_unstorable attr r E) as (v & e & He & Hv & Hin).
      exists v, e. auto.
  - intros N. rewrite record_trace_users, N, user_outcome_returned, N.
    reflexivity.
Qed.

(** The loop over the records stops at the first record whose run raises. *)
Lemma records_run_stop url attr index ridx rs1 r rs2 e (t : nat -> list event) :
  forallb record_ok rs1 = true ->
  forallb (storable attr) rs1 = true ->
  (forall i net, scrape_record url attr index i r net = mkRun (Raise e) net (t i)) ->
  forall net,
    for_enumerate (scrape_record url attr index) ridx (rs1 ++ r :: rs2) net
    = mkRun (Raise e) net
        (records_events url attr index ridx rs1 ++ t (ridx + List.length rs1)).
Proof.
  intros H1 S1 Hr. revert ridx.
  induction rs1 as [|r1 rs1 IH]; intros ridx net; simpl in *.
  - rewrite (bind_raise _ _ _ _ _ _ (Hr ridx net)). now rewrite Nat.add_0_r.
  - apply andb_prop in H1 as [Hr1 Hrs1]. apply andb_prop in S1 as [Sr1 Srs1].
    rewrite (bind_ret _ _ _ _ _ _
               (scrape_record_ok url attr index ridx r1 net Hr1 Sr1)).
    rewrite (IH Hrs1 Srs1 (S ridx)). unfold after. cbn [res rest trace].
    replace (ridx + S (List.length rs1)) with (S ridx + List.length rs1) by lia.
    now rewrite <- app_assoc.
Qed.

Lemma lists_run_stop url attr index ls1 rs1 r rs2 ls2 e (t : nat -> list event) :
  forallb list_ok ls1 = true ->
  forallb record_ok rs1 = true ->
  forallb (storable attr) (flat_map records ls1 ++ rs1) = true ->
  (forall i net, scrape_record url attr index i r net = mkRun (Raise e) net (t i)) ->
  forall net,
    for_each (scrape_reviews url attr index)
             (ls1 ++ JList (rs1 ++ r :: rs2) :: ls2) net
    = mkRun (Raise e) net
        (page_events url attr index ls1
         ++ records_events url attr index 0 rs1 ++ t (List.length rs1)).
Proof.
  intros H1 Hrs S Hr.
  rewrite forallb_app in S. apply andb_prop in S as [S1 Srs].
  pose proof (records_run_stop url attr index 0 rs1 r rs2 e t Hrs Srs Hr) as He.
  induction ls1 as [|v ls1 IH]; intros net; cbn [forallb flat_map] in *.
  - assert (E : scrape_reviews url attr index (JList (rs1 ++ r :: rs2)) net
                = mkRun (Raise e) net
                    (records_events url attr index 0 rs1 ++ t (List.length rs1))).
    { unfold scrape_reviews.
      replace (truthy (JList (rs1 ++ r :: rs2))) with true by now destruct rs1.
      rewrite bind_lift. cbn [iterate]. apply He. }
    simpl. now rewrite (bind_raise _ _ _ _ _ _ E).
  - apply andb_prop in H1 as [Hv Hls].
    rewrite forallb_app in S1. apply andb_prop in S1 as [Sv Sls].
    cbn [app for_each].
    rewrite (bind_ret _ _ _ _ _ _ (scrape_reviews_ok url attr index v net Hv Sv)).
    rewrite (IH Hls Sls). unfold after. simpl. now rewrite app_assoc.
Qed.

Lemma fetch_loop_no_users url script :
  inserted_users (trace (fetch_loop url script)) = [].
Proof.
  apply (flat_map_nil_forallb fetch_event); [|apply fetch_loop_events].
  intros [[]| |[]|[]]; simpl; congruence.
Qed.

Lemma fetch_loop_no_reviews url script :
  inserted_reviews (trace (fetch_loop url script)) = [].
Proof.
  apply (flat_map_nil_forallb fetch_event); [|apply fetch_loop_events].
  intros [[]| |[]|[]]; simpl; congruence.
Qed.

(** X20. A record with a value the database driver does not adapt ends the
    page: when it is the first record the page fails on, [scrape_page]
    raises the exception of the driver on that value; the reviews of the
    lists and records before it are written and no other, and of the
    record itself the user is written when it has a profile and values the
    driver adapts; nothing after the record is looked at. *)
Theorem unadaptable_value_aborts_page
    url attr index script d data net t0 ls1 rs1 r rs2 ls2 :
  fetch_loop url script = mkRun (Ret d) net t0 ->
  json_loads (requote d) = Some data ->
  traverse data = ls1 ++ JList (rs1 ++ r :: rs2) :: ls2 ->
  forallb list_ok ls1 = true ->
  forallb record_ok rs1 = true ->
  forallb (storable attr) (flat_map records ls1 ++ rs1) = true ->
  record_ok r = true ->
  storable attr r = false ->
  let out := scrape_page url attr index script in
  (exists v e,
     res out = Raise e /\ adapt v = Some e /\
     (In v (user_values (user_of r)) \/
      In v (review_values (review_of attr r)))) /\
  rest out = net /\
  inserted_reviews (trace out)
  = map (review_of attr) (flat_map records ls1 ++ rs1) /\
  inserted_users (trace out)
  = inserted_users (page_events url attr index ls1
                    ++ records_events url attr index 0 rs1)
    ++ (if negb (is_None (profile (user_of r)))
           && forallb adapts (user_values (user_of r))
        then [user_of r] else []).
Proof.
  intros F L T H1 Hrs S Hr Sr out. subst out.
  assert (T' : traverse data <> []) by (rewrite T; now destruct ls1).
  rewrite (scrape_page_lists _ _ _ _ _ _ _ _ F L T'), T.
  destruct (record_outcome_unstorable attr r Sr) as (v & e & He & Hv & Hin).
  assert (R : forall i net',
             scrape_record url attr index i r net'
             = mkRun (Raise e) net' (record_trace url attr index i r)).
  { intros i net'. rewrite (scrape_record_run _ _ _ _ _ _ Hr). now rewrite He. }
  rewrite (lists_run_stop url attr index ls1 rs1 r rs2 ls2 e
             (fun i => record_trace url attr index i r) H1 Hrs S R net).
  cbn [after res rest trace]. rewrite <- app_comm_cons.
  pose proof (fetch_loop_no_reviews url script) as E1.
  pose proof (fetch_loop_no_users url script) as E2.
  rewrite F in E1, E2. cbn [trace] in E1, E2.
  split; [exists v, e; auto|]. split; [reflexivity|]. split.
  - change (inserted_reviews (Print (MsgScraping url) :: ?l))
      with (inserted_reviews l).
    rewrite !inserted_reviews_app, E1, page_events_reviews,
      records_events_reviews, record_trace_reviews, map_app.
    rewrite record_outcome_returned, Sr. cbn [app]. now rewrite app_nil_r.
  - change (inserted_users (Print (MsgScraping url) :: ?l))
      with (inserted_users l).
    rewrite !inserted_users_app, E2, record_trace_users,
      user_outcome_returned. cbn [app]. rewrite <- app_assoc. do 2 f_equal.
    now destruct (is_None (profile (user_of r))).
Qed.

End Scraper.

(* ================================================================== *)
(** ** The theorems at the sample pages *)

(** [scrape_page_well_formed] at the page with an empty list and a list of
    one record: the page is well formed and the one review is written. *)
Lemma scrape_page_well_formed_witness :
  fetch_loop "u" [Body page_one_review]
  = mkRun (Ret blob_one_review) [] [Get "u"] /\
  sample_loads (requote blob_one_review) = Some data_one_review /\
  traverse data_one_review <> [] /\
  forallb list_ok (traverse data_one_review) = true /\
  forallb (storable sample_dumps sample_adapt 42)
          (flat_map records (traverse data_one_review)) = true /\
  res (scrape_page sample_loads sample_dumps sample_adapt "u" 42 0
         [Body page_one_review])
  = Ret tt /\
  inserted_reviews
    (trace (scrape_page sample_loads sample_dumps sample_adapt "u" 42 0
              [Body page_one_review]))
  = [review_of 42 sample_record].
Proof.
  assert (F : fetch_loop "u" [Body page_one_review]
              = mkRun (Ret blob_one_review) [] [Get "u"]) by reflexivity.
  assert (L : sample_loads (requote blob_one_review) = Some data_one_review)
    by reflexivity.
  assert (T : traverse data_one_review <> []) by discriminate.
  assert (W : forallb list_ok (traverse data_one_review) = true) by reflexivity.
  assert (S : forallb (storable sample_dumps sample_adapt 42)
                      (flat_map records (traverse data_one_review)) = true)
    by reflexivity.
  pose proof (scrape_page_well_formed sample_loads sample_dumps sample_adapt
                "u" 42 0 [Body page_one_review] blob_one_review
                data_one_review [] [Get "u"] F L T W S) as (R & _ & _ & I & _).
  exact (conj F (conj L (conj T (conj W (conj S (conj R I)))))).
Defined.

(** [retry_iff_no_list] at the page whose only list is empty: no retry,
    and the page is logged as one without reviews; and at a page without
    any list, followed by that page: one retry, with its request, and then
    the events of the second page. *)
Lemma retry_iff_no_list_witness :
  (fetch_loop "u" [Body page_no_reviews]
   = mkRun (Ret blob_no_reviews) [] [Get "u"] /\
   sample_loads (requote blob_no_reviews)
   = Some (JDict [("pageManifest", JDict [("reviews", JList [])])]) /\
   existsb is_weird
     (trace (scrape_page sample_loads sample_dumps sample_adapt "u" 42 0
               [Body page_no_reviews]))
   = false) /\
  (fetch_loop "u" [Body page_without_lists; Body page_no_reviews]
   = mkRun (Ret blob_without_lists) [Body page_no_reviews] [Get "u"] /\
   sample_loads (requote blob_without_lists)
   = Some (JDict [("pageManifest", JInt 1)]) /\
   trace (scrape_page sample_loads sample_dumps sample_adapt "u" 42 0
            [Body page_without_lists; Body page_no_reviews])
   = Print (MsgScraping "u") :: [Get "u"]
     ++ Print (MsgWeird 0)
     :: tl (trace (scrape_page sample_loads sample_dumps sample_adapt "u" 42 0
                     [Body page_no_reviews]))).
Proof.
  assert (F : fetch_loop "u" [Body page_no_reviews]
              = mkRun (Ret blob_no_reviews) [] [Get "u"]) by reflexivity.
  assert (L : sample_loads (requote blob_no_reviews)
              = Some (JDict [("pageManifest", JDict [("reviews", JList [])])]))
    by reflexivity.
  pose proof (retry_iff_no_list sample_loads sample_dumps sample_adapt "u" 42 0
                [Body page_no_reviews] blob_no_reviews _ [] [Get "u"] F L)
    as (_ & _ & E & _).
  assert (F' : fetch_loop "u" [Body page_without_lists; Body page_no_reviews]
               = mkRun (Ret blob_without_lists) [Body page_no_reviews] [Get "u"])
    by reflexivity.
  assert (L' : sample_loads (requote blob_without_lists)
               = Some (JDict [("pageManifest", JInt 1)])) by reflexivity.
  pose proof (retry_iff_no_list sample_loads sample_dumps sample_adapt "u" 42 0
                [Body page_without_lists; Body page_no_reviews]
                blob_without_lists _ [Body page_no_reviews] [Get "u"] F' L')
    as (_ & _ & _ & _ & E' & _).
  exact (conj (conj F (conj L (proj1 (E [] eq_refl))))
              (conj F' (conj L'
                 (proj2 (proj2 (E' (Body page_no_reviews) [] _
                                   eq_refl eq_refl eq_refl)))))).
Defined.


(** [required_field_missing_raises] at the page whose second record has no
    title: the first record is written, then the page is given up. *)
Lemma required_field_missing_raises_witness :
  fetch_loop "u" [Body page_untitled]
  = mkRun (Ret blob_untitled) [] [Get "u"] /\
  sample_loads (requote blob_untitled) = Some data_untitled /\
  traverse data_untitled = [] ++ JList ([sample_record] ++ untitled_record :: []) :: [] /\
  forallb (storable sample_dumps sample_adapt 42)
          (flat_map records [] ++ [sample_record]) = true /\
  record_ok untitled_record = false /\
  inserted_reviews
    (trace (scrape_page sample_loads sample_dumps sample_adapt "u" 42 0
              [Body page_untitled]))
  = [review_of 42 sample_record].
Proof.
  assert (F : fetch_loop "u" [Body page_untitled]
              = mkRun (Ret blob_untitled) [] [Get "u"]) by reflexivity.
  assert (L : sample_loads (requote blob_untitled) = Some data_untitled)
    by reflexivity.
  assert (T : traverse data_untitled
              = [] ++ JList ([sample_record] ++ untitled_record :: []) :: [])
    by reflexivity.
  assert (S : forallb (storable sample_dumps sample_adapt 42)
                      (flat_map records [] ++ [sample_record]) = true)
    by reflexivity.
  assert (B : record_ok untitled_record = false) by reflexivity.
  pose proof (required_field_missing_raises sample_loads sample_dumps
                sample_adapt "u" 42 0
                [Body page_untitled] blob_untitled data_untitled [] [Get "u"]
                [] [sample_record] untitled_record [] []
                F L T eq_refl eq_refl S B) as (_ & _ & I).
  exact (conj F (conj L (conj T (conj S (conj B I))))).
Defined.

(** The end-to-end scenario: one pending attraction, id 42, two pages.  The
    metadata is written first, then the pages are scraped, then the flag is
    set. *)
Example do_scrape_scenario :
  do_scrape sample_loads sample_dumps sample_adapt sample_details sample_page_url
            sample_scraper sample_db [Body page_one_review; Body page_no_reviews]
  = mkRun (Ret tt) []
      [ Print (MsgDetails (Some (JFloat 1 0, JFloat 1 1), JInt 10, 2));
        Exec (UpdateAttraction (JFloat 1 1) (JFloat 1 0) "10" 42);
        Print (MsgScraping "https://www.tripadvisor.com/Attraction-42-reviews-0");
        Get "https://www.tripadvisor.com/Attraction-42-reviews-0";
        no_reviews "https://www.tripadvisor.com/Attraction-42-reviews-0" 42 0;
        missing "user profile"
                "https://www.tripadvisor.com/Attraction-42-reviews-0" 42 0 0;
        missing "user location"
                "https://www.tripadvisor.com/Attraction-42-reviews-0" 42 0 0;
        missing "user contributions"
                "https://www.tripadvisor.com/Attraction-42-reviews-0" 42 0 0;
        missing "helpful"
                "https://www.tripadvisor.com/Attraction-42-reviews-0" 42 0 0;
        Print (MsgUpdatingUser JNull);
        Print MsgEmptyUser;
        Exec (InsertReview (review_of 42 sample_record));
        Sleep PagePause;
        Print (MsgScraping "https://www.tripadvisor.com/Attraction-42-reviews-1");
        Get "https://www.tripadvisor.com/Attraction-42-reviews-1";
        no_reviews "https://www.tripadvisor.com/Attraction-42-reviews-1" 42 1;
        Sleep PagePause;
        Print (MsgScrapedSet 42 true);
        Exec (SetScraped true 42) ].
Proof. reflexivity. Qed.

(** C6 fails on the code.  A blob that is not JSON surfaces from
    [scrape_page] as a decoding error; a transport failure or a page
    without the marker met while the second loop fetches again surfaces as
    well; and the second loop fetches again without a pause. *)
Lemma scrape_page_surfaces_failures :
  res (scrape_page sample_loads sample_dumps sample_adapt "u" 42 0 [Body page_not_json])
  = Raise JSONDecodeError /\
  res (scrape_page sample_loads sample_dumps sample_adapt "u" 42 0
         [Body page_without_lists; TransportFailure])
  = Raise TransportError /\
  res (scrape_page sample_loads sample_dumps sample_adapt "u" 42 0
         [Body page_without_lists; Body "<html></html>"])
  = Raise AttributeError /\
  trace (scrape_page sample_loads sample_dumps sample_adapt "u" 42 0
           [Body page_without_lists; Body page_no_reviews])
  = [Print (MsgScraping "u"); Get "u"; Print (MsgWeird 0); Get "u";
     no_reviews "u" 42 0].
Proof. repeat split. Qed.

(** [fetch_loop_first_good] after a transport failure and a page without
    the marker. *)
Lemma fetch_loop_first_good_witness :
  forallb fetch_fails [TransportFailure; Body "<html></html>"] = true /\
  obind (text_of (Body page_no_reviews)) search_group = Ret blob_no_reviews /\
  fetch_loop "u" ([TransportFailure; Body "<html></html>"]
                  ++ Body page_no_reviews :: [Body page_not_json])
  = mkRun (Ret blob_no_reviews) [Body page_not_json]
      (flat_map (fun _ => reload_events "u")
                [TransportFailure; Body "<html></html>"] ++ [Get "u"]).
Proof.
  exact (conj eq_refl (conj eq_refl
           (fetch_loop_first_good "u" [TransportFailure; Body "<html></html>"]
              (Body page_no_reviews) [Body page_not_json] blob_no_reviews
              eq_refl eq_refl))).
Defined.

(** [scrape_page_empty_tree_hangs] on a site that keeps serving a blob
    without record lists. *)
Lemma scrape_page_empty_tree_hangs_witness :
  fetch_loop "u" [Body page_without_lists; Body page_without_lists]
  = mkRun (Ret blob_without_lists) [Body page_without_lists] [Get "u"] /\
  sample_loads (requote blob_without_lists)
  = Some (JDict [("pageManifest", JInt 1)]) /\
  forallb (empty_tree sample_loads) [Body page_without_lists] = true /\
  res (scrape_page sample_loads sample_dumps sample_adapt "u" 42 0
         [Body page_without_lists; Body page_without_lists])
  = Hang.
Proof.
  assert (F : fetch_loop "u" [Body page_without_lists; Body page_without_lists]
              = mkRun (Ret blob_without_lists) [Body page_without_lists] [Get "u"])
    by reflexivity.
  assert (L : sample_loads (requote blob_without_lists)
              = Some (JDict [("pageManifest", JInt 1)])) by reflexivity.
  assert (E : forallb (empty_tree sample_loads) [Body page_without_lists] = true)
    by reflexivity.
  pose proof (scrape_page_empty_tree_hangs sample_loads sample_dumps sample_adapt "u" 42 0
                _ _ _ _ _ F L eq_refl E) as H.
  exact (conj F (conj L (conj E (f_equal res H)))).
Defined.

(** [scrape_reviews_not_a_list] at an object found under the collection
    key. *)
Lemma scrape_reviews_not_a_list_witness :
  (forall l, JDict [("total", JInt 3)] <> JList l) /\
  scrape_reviews sample_dumps sample_adapt "u" 42 0 (JDict [("total", JInt 3)]) []
  = mkRun (Raise TypeError) [] [].
Proof.
  assert (H : forall l, JDict [("total", JInt 3)] <> JList l)
    by (intros l; discriminate).
  exact (conj H (scrape_reviews_not_a_list sample_dumps sample_adapt "u" 42 0 _ [] H)).
Defined.

(** [null_profile_skips_user] at a record whose profile URL is [null]. *)
Lemma null_profile_skips_user_witness :
  record_ok null_profile_record = true /\
  getpath null_profile_record profile_path = Ret JNull /\
  forallb (adapts sample_adapt)
          (review_values (review_of 42 null_profile_record)) = true /\
  inserted_users
    (trace (scrape_record sample_dumps sample_adapt "u" 42 0 0
              null_profile_record []))
  = [] /\
  ~ In (missing "user profile" "u" 42 0 0)
       (trace (scrape_record sample_dumps sample_adapt "u" 42 0 0
                 null_profile_record [])) /\
  res (scrape_record sample_dumps sample_adapt "u" 42 0 0
         null_profile_record [])
  = Ret tt.
Proof.
  pose proof (null_profile_skips_user sample_dumps sample_adapt "u" 42 0 0
                null_profile_record [] eq_refl eq_refl) as (U & _ & D & W).
  exact (conj eq_refl (conj eq_refl (conj eq_refl
           (conj U (conj D (proj1 (W eq_refl))))))).
Defined.

(** [hometown_is_dumped] at a record whose hometown is [null]. *)
Lemma hometown_is_dumped_witness :
  record_ok homeless_record = true /\
  getpath homeless_record profile_path = Ret (JStr "/Profile/a") /\
  is_None (JStr "/Profile/a") = false /\
  getpath homeless_record hometown_path = Ret JNull /\
  inserted_users
    (trace (scrape_record sample_dumps sample_adapt "u" 42 0 0
              homeless_record []))
  = [mkUser (JStr "/Profile/a") (JStr "null") JNull JNull].
Proof.
  exact (conj eq_refl (conj eq_refl (conj eq_refl (conj eq_refl
           (hometown_is_dumped sample_dumps sample_adapt "u" 42 0 0
              homeless_record [] (JStr "/Profile/a") JNull
              eq_refl eq_refl eq_refl eq_refl))))).
Defined.

(** [do_scrape_with_filter] at the constructor's default [attr_types]. *)
Lemma do_scrape_with_filter_witness :
  types_is (attr_types default_scraper) "all" = false /\
  do_scrape sample_loads sample_dumps sample_adapt sample_details sample_page_url
            default_scraper sample_db [Body page_one_review]
  = mkRun (Raise ProgrammingError) [Body page_one_review] [].
Proof.
  exact (conj eq_refl
           (proj1 (do_scrape_with_filter sample_loads sample_dumps sample_adapt sample_details
                     sample_page_url default_scraper sample_db
                     [Body page_one_review] eq_refl))).
Defined.

(** [attraction_without_location] at the pending attraction of the sample
    store. *)
Lemma attraction_without_location_witness :
  details_without_location
    (base_url sample_scraper ++ snd (42%Z, "/Attraction-42"))%string
  = Some (None, JInt 10, 2) /\
  for_each (scrape_attraction sample_loads sample_dumps sample_adapt details_without_location
              sample_page_url sample_scraper)
           [(42%Z, "/Attraction-42"); (43%Z, "/Attraction-43")]
           [Body page_one_review]
  = mkRun (Raise TypeError) [Body page_one_review]
      [Print (MsgDetails (None, JInt 10, 2))].
Proof.
  exact (conj eq_refl
           (attraction_without_location sample_loads sample_dumps sample_adapt
              details_without_location sample_page_url sample_scraper
              (42%Z, "/Attraction-42") [(43%Z, "/Attraction-43")]
              [Body page_one_review] (JInt 10) 2 eq_refl)).
Defined.

(** [attraction_without_pages] at an attraction for which the detail
    extractor reports no page. *)
Lemma attraction_without_pages_witness :
  details_without_pages
    (base_url sample_scraper ++ snd (42%Z, "/Attraction-42"))%string
  = Some (Some (JFloat 1 0, JFloat 1 1), JInt 0, 0) /\
  generate_page_links sample_page_url sample_scraper
    (base_url sample_scraper ++ snd (42%Z, "/Attraction-42"))%string 0 = [] /\
  res (scrape_attraction sample_loads sample_dumps sample_adapt details_without_pages
         sample_page_url sample_scraper (42%Z, "/Attraction-42")
         [Body page_one_review])
  = Ret tt.
Proof.
  exact (conj eq_refl (conj eq_refl
           (f_equal res
              (attraction_without_pages sample_loads sample_dumps sample_adapt
                 details_without_pages sample_page_url sample_scraper
                 (42%Z, "/Attraction-42") [Body page_one_review]
                 (JFloat 1 0) (JFloat 1 1) (JInt 0) 0 eq_refl eq_refl)))).
Defined.

(** [scrape_page_recovers] when the second response has the record lists
    the first one lacked. *)
Lemma scrape_page_recovers_witness :
  fetch_loop "u" [Body page_without_lists; Body page_one_review]
  = mkRun (Ret blob_without_lists) ([] ++ Body page_one_review :: []) [Get "u"] /\
  sample_loads (requote blob_without_lists)
  = Some (JDict [("pageManifest", JInt 1)]) /\
  reload sample_loads (Body page_one_review) = Ret data_one_review /\
  forallb (storable sample_dumps sample_adapt 42)
          (flat_map records (traverse data_one_review)) = true /\
  inserted_reviews
    (trace (scrape_page sample_loads sample_dumps sample_adapt "u" 42 0
              [Body page_without_lists; Body page_one_review]))
  = [review_of 42 sample_record].
Proof.
  assert (F : fetch_loop "u" [Body page_without_lists; Body page_one_review]
              = mkRun (Ret blob_without_lists)
                      ([] ++ Body page_one_review :: []) [Get "u"])
    by reflexivity.
  assert (L : sample_loads (requote blob_without_lists)
              = Some (JDict [("pageManifest", JInt 1)])) by reflexivity.
  assert (R : reload sample_loads (Body page_one_review) = Ret data_one_review)
    by reflexivity.
  assert (T' : traverse data_one_review <> []) by discriminate.
  pose proof (scrape_page_recovers sample_loads sample_dumps sample_adapt "u" 42 0
                _ _ _ [] _ [] _ _ F L eq_refl eq_refl R T' eq_refl eq_refl)
    as H.
  exact (conj F (conj L (conj R (conj eq_refl
           (f_equal (fun r => inserted_reviews (trace r)) H))))).
Defined.

(** [scrape_page_unguarded] at the page whose blob is not JSON. *)
Lemma scrape_page_unguarded_witness :
  fetch_loop "u" [Body page_not_json]
  = mkRun (Ret blob_not_json) [] [Get "u"] /\
  sample_loads (requote blob_not_json) = None /\
  scrape_page sample_loads sample_dumps sample_adapt "u" 42 0 [Body page_not_json]
  = mkRun (Raise JSONDecodeError) [] [Print (MsgScraping "u"); Get "u"].
Proof.
  assert (F : fetch_loop "u" [Body page_not_json]
              = mkRun (Ret blob_not_json) [] [Get "u"]) by reflexivity.
  exact (conj F (conj eq_refl
           (proj1 (scrape_page_unguarded sample_loads sample_dumps sample_adapt "u" 42 0
                     _ _ _ _ F) eq_refl))).
Defined.

(** [unadaptable_value_raises] at a record whose title is an object: the
    driver has no adapter for it, the user is written and the review is
    not. *)
Lemma unadaptable_value_raises_witness :
  record_ok dict_title_record = true /\
  storable sample_dumps sample_adapt 42 dict_title_record = false /\
  res (scrape_record sample_dumps sample_adapt "u" 42 0 0 dict_title_record [])
  <> Ret tt /\
  inserted_reviews
    (trace (scrape_record sample_dumps sample_adapt "u" 42 0 0
              dict_title_record []))
  = [] /\
  inserted_users
    (trace (scrape_record sample_dumps sample_adapt "u" 42 0 0
              dict_title_record []))
  = [user_of sample_dumps dict_title_record].
Proof.
  pose proof (unadaptable_value_raises sample_dumps sample_adapt "u" 42 0 0
                dict_title_record [] eq_refl) as (R & _ & I & U).
  assert (S : storable sample_dumps sample_adapt 42 dict_title_record = false)
    by reflexivity.
  refine (conj eq_refl (conj S (conj _ (conj (proj1 (I S)) (U eq_refl))))).
  intros E. apply (proj1 R) in E. rewrite S in E. discriminate E.
Defined.

(** [unadaptable_value_aborts_page] at a page whose second record has an
    object as its title: the first review is written, the second is not,
    and the user of the second record is. *)
Lemma unadaptable_value_aborts_page_witness :
  fetch_loop "u" [Body page_dict_title]
  = mkRun (Ret blob_dict_title) [] [Get "u"] /\
  loads_dict_title (requote blob_dict_title) = Some data_dict_title /\
  traverse data_dict_title
  = [] ++ JList ([sample_record] ++ dict_title_record :: []) :: [] /\
  forallb (storable sample_dumps sample_adapt 42)
          (flat_map records [] ++ [sample_record]) = true /\
  record_ok dict_title_record = true /\
  storable sample_dumps sample_adapt 42 dict_title_record = false /\
  inserted_reviews
    (trace (scrape_page loads_dict_title sample_dumps sample_adapt "u" 42 0
              [Body page_dict_title]))
  = [review_of 42 sample_record] /\
  inserted_users
    (trace (scrape_page loads_dict_title sample_dumps sample_adapt "u" 42 0
              [Body page_dict_title]))
  = [user_of sample_dumps dict_title_record].
Proof.
  assert (F : fetch_loop "u" [Body page_dict_title]
              = mkRun (Ret blob_dict_title) [] [Get "u"]) by reflexivity.
  assert (L : loads_dict_title (requote blob_dict_title) = Some data_dict_title)
    by reflexivity.
  assert (T : traverse data_dict_title
              = [] ++ JList ([sample_record] ++ dict_title_record :: []) :: [])
    by reflexivity.
  assert (S : forallb (storable sample_dumps sample_adapt 42)
                      (flat_map records [] ++ [sample_record]) = true)
    by reflexivity.
  assert (B : storable sample_dumps sample_adapt 42 dict_title_record = false)
    by reflexivity.
  pose proof (unadaptable_value_aborts_page loads_dict_title sample_dumps
                sample_adapt "u" 42 0
                [Body page_dict_title] blob_dict_title data_dict_title
                [] [Get "u"] [] [sample_record] dict_title_record [] []
                F L T eq_refl eq_refl S eq_refl B) as (_ & _ & I & U).
  exact (conj F (conj L (conj T (conj S (conj eq_refl (conj B (conj I U))))))).
Defined.
